(** * EDXML SDK: type system, schema registry, sticky hashes and event merging

    A shallow embedding of [edxml/EDXMLBase.py] and
    [edxml/EDXMLDefinitions.py] (CPython 2.7 semantics), followed by the
    properties of the embedding.

    Conventions of the embedding.
    - A Python [unicode] object is a [string]; each [ascii] is one code
      point, so the embedding covers text whose code points lie in the
      Latin-1 range U+0000..U+00FF.
    - A Python [dict] is a [gmap], a Python [set] is a [gset]; the order in
      which CPython iterates over a set is the order of [elements].
    - A Python call that can raise returns a [result]; the exception is
      the payload of [Raise].  The counters [WarningCount] and
      [ErrorCount] and the text written to stderr are not part of the
      state. *)

From Stdlib Require Import ZArith NArith String Ascii List Bool Lia.
From stdpp Require Import base option list gmap strings sorting.

Local Open Scope Z_scope.

(** ** Exceptions and results *)

(** [EDXMLError] carries the value built by [EDXMLBase.Error]; the other
    constructors are the built-in exceptions the code can let escape. *)
Inductive exn : Type :=
  | EDXMLError (value : string)
  | ValueError
  | KeyError
  | IndexError
  | TypeError
  | UnicodeError
  | InvalidOperation.

Inductive result (A : Type) : Type :=
  | Ok (a : A)
  | Raise (e : exn).
Arguments Ok {A} a.
Arguments Raise {A} e.

Definition result_bind {A B} (f : A → result B) (r : result A) : result B :=
  match r with
  | Ok a => f a
  | Raise e => Raise e
  end.

#[global] Instance result_mbind : MBind result := @result_bind.
#[global] Instance result_mret : MRet result := @Ok.

Definition is_Ok {A} (r : result A) : bool :=
  match r with Ok _ => true | Raise _ => false end.

(** [d[k]] on a dict and [l[i]] on a list. *)
Definition getitem {K A} `{Countable K} (d : gmap K A) (k : K) : result A :=
  match d !! k with
  | Some a => Ok a
  | None => Raise KeyError
  end.

Definition index {A} (l : list A) (i : nat) : result A :=
  match l !! i with
  | Some a => Ok a
  | None => Raise IndexError
  end.

(** [EDXMLBase.Error]: raise [EDXMLError("ERROR: " + Message)]. *)
Definition Error {A} (Message : string) : result A :=
  Raise (EDXMLError ("ERROR: " +:+ Message)).

(** ** Python strings *)

Module Py.

Definition code (c : ascii) : Z := Z.of_N (N_of_ascii c).
Definition chr (z : Z) : ascii := ascii_of_N (Z.to_N z).

(** [s.split(sep)] for a one-character separator. *)
Fixpoint split (sep : ascii) (s : string) : list string :=
  match s with
  | EmptyString => [EmptyString]
  | String c s' =>
      if Ascii.eqb c sep then EmptyString :: split sep s'
      else match split sep s' with
           | [] => [String c EmptyString]
           | w :: ws => String c w :: ws
           end
  end.

(** [sep.join(l)]. *)
Fixpoint join (sep : string) (l : list string) : string :=
  match l with
  | [] => EmptyString
  | [x] => x
  | x :: l' => x +:+ sep +:+ join sep l'
  end.

(** [unicode.lower] on the Latin-1 block: A-Z and the accented capitals
    U+00C0..U+00DE (without the multiplication sign U+00D7) move up by
    32. *)
Definition lower_char (c : ascii) : ascii :=
  let n := code c in
  if ((65 <=? n) && (n <=? 90))
     || ((192 <=? n) && (n <=? 222) && negb (n =? 215))
  then chr (n + 32) else c.

Fixpoint lower (s : string) : string :=
  match s with
  | EmptyString => EmptyString
  | String c s' => String (lower_char c) (lower s')
  end.

(** [Py_UNICODE_ISSPACE] on the Latin-1 block. *)
Definition isspace (c : ascii) : bool :=
  let n := code c in
  ((9 <=? n) && (n <=? 13)) || ((28 <=? n) && (n <=? 32))
  || (n =? 133) || (n =? 160).

Fixpoint lstrip (s : string) : string :=
  match s with
  | String c s' => if isspace c then lstrip s' else s
  | EmptyString => EmptyString
  end.

Definition rstrip (s : string) : string :=
  String.rev (lstrip (String.rev s)).

Definition strip (s : string) : string := rstrip (lstrip s).

Definition digit (c : ascii) : option Z :=
  let n := code c in
  if (48 <=? n) && (n <=? 57) then Some (n - 48) else None.

Definition isdigit (c : ascii) : bool :=
  match digit c with Some _ => true | None => false end.

(** Value of a run of decimal digits, read left to right from [acc];
    [None] when a character is not a digit. *)
Fixpoint digits_value (acc : Z) (s : string) : option Z :=
  match s with
  | EmptyString => Some acc
  | String c s' =>
      match digit c with
      | Some d => digits_value (10 * acc + d) s'
      | None => None
      end
  end.

(** One or more decimal digits. *)
Definition number (s : string) : option Z :=
  match s with
  | EmptyString => None
  | _ => digits_value 0 s
  end.

(** An optional sign in front of [s]: the sign and the rest. *)
Definition sign (s : string) : bool * string :=
  match s with
  | String "-" s' => (true, s')
  | String "+" s' => (false, s')
  | _ => (false, s)
  end.

(** [int(s)] in base 10: blanks, an optional sign, blanks again
    ([PyOS_strtoul] skips them), one or more digits, blanks. *)
Definition int (s : string) : result Z :=
  let '(neg, s1) := sign (strip s) in
  match number (lstrip s1) with
  | Some n => Ok (if neg then - n else n)
  | None => Raise ValueError
  end.

(** The decimal digits of a natural number, most significant first;
    at most [fuel] digits are produced. *)
Fixpoint digits_of (fuel : nat) (n : Z) (acc : string) : string :=
  match fuel with
  | O => acc
  | S fuel' =>
      let acc' := String (chr (48 + n mod 10)) acc in
      if n <? 10 then acc' else digits_of fuel' (n / 10) acc'
  end.

Definition str_nat (n : Z) : string :=
  digits_of (S (Z.to_nat (Z.log2 n))) n EmptyString.

(** ['%d' % z] and [str(z)] for an integer. *)
Definition str_int (z : Z) : string :=
  if z <? 0 then String "-" (str_nat (- z)) else str_nat z.

Fixpoint repeat (c : ascii) (n : nat) : string :=
  match n with
  | O => EmptyString
  | S n' => String c (repeat c n')
  end.

(** [s.encode('utf-8')] as a list of byte values. *)
Fixpoint encode_utf8 (s : string) : list Z :=
  match s with
  | EmptyString => []
  | String c s' =>
      let n := code c in
      if n <? 128 then n :: encode_utf8 s'
      else (192 + n / 64) :: (128 + n mod 64) :: encode_utf8 s'
  end.

(** [min] and [max] of the strings of a list, by code points. *)
Definition min_str (x : string) (l : list string) : string :=
  foldl (λ m y, if String.ltb y m then y else m) x l.
Definition max_str (x : string) (l : list string) : string :=
  foldl (λ m y, if String.ltb m y then y else m) x l.

End Py.

(** ** SHA-1 ([hashlib.sha1]) on 32-bit words held in [Z] *)

Module SHA1.

Definition w32 (x : Z) : Z := x mod 2 ^ 32.
Definition add32 (x y : Z) : Z := w32 (x + y).
Definition rotl (n x : Z) : Z :=
  w32 (Z.lor (Z.shiftl x n) (Z.shiftr x (32 - n))).
Definition not32 (x : Z) : Z := 2 ^ 32 - 1 - x.

Definition f (t b c d : Z) : Z :=
  if t <? 20 then Z.lor (Z.land b c) (Z.land (not32 b) d)
  else if t <? 40 then Z.lxor (Z.lxor b c) d
  else if t <? 60 then
    Z.lor (Z.lor (Z.land b c) (Z.land b d)) (Z.land c d)
  else Z.lxor (Z.lxor b c) d.

Definition K (t : Z) : Z :=
  if t <? 20 then 0x5A827999
  else if t <? 40 then 0x6ED9EBA1
  else if t <? 60 then 0x8F1BBCDC
  else 0xCA62C1D6.

(** Padding: 0x80, zeros up to 56 modulo 64, the bit length on 8 bytes. *)
Definition be_bytes (n : nat) (x : Z) : list Z :=
  map (λ i, (x / 2 ^ (8 * Z.of_nat i)) mod 256) (rev (seq 0 n)).

Definition pad (m : list Z) : list Z :=
  let len := Z.of_nat (length m) in
  let zeros := Z.to_nat ((55 - len) mod 64) in
  m ++ 128 :: replicate zeros 0 ++ be_bytes 8 (8 * len).

Fixpoint words (fuel : nat) (bs : list Z) : list Z :=
  match fuel, bs with
  | S fuel', b0 :: b1 :: b2 :: b3 :: bs' =>
      (((b0 * 256 + b1) * 256 + b2) * 256 + b3) :: words fuel' bs'
  | _, _ => []
  end.

(** The message schedule, newest word first. *)
Fixpoint schedule (n : nat) (w : list Z) : list Z :=
  match n with
  | O => w
  | S n' =>
      let x := Z.lxor (Z.lxor (nth 2 w 0) (nth 7 w 0))
                      (Z.lxor (nth 13 w 0) (nth 15 w 0)) in
      schedule n' (rotl 1 x :: w)
  end.

Definition state : Type := Z * Z * Z * Z * Z.

Fixpoint rounds (t : Z) (ws : list Z) (s : state) : state :=
  match ws with
  | [] => s
  | w :: ws' =>
      let '(a, b, c, d, e) := s in
      let tmp :=
        add32 (add32 (add32 (add32 (rotl 5 a) (f t b c d)) e) (K t)) w in
      rounds (t + 1) ws' (tmp, a, rotl 30 b, c, d)
  end.

Definition block (s : state) (ws : list Z) : state :=
  let '(h0, h1, h2, h3, h4) := s in
  let '(a, b, c, d, e) := rounds 0 (rev (schedule 64 (rev ws))) s in
  (add32 h0 a, add32 h1 b, add32 h2 c, add32 h3 d, add32 h4 e).

Fixpoint blocks (fuel : nat) (s : state) (ws : list Z) : state :=
  match fuel, ws with
  | S fuel', _ :: _ => blocks fuel' (block s (take 16 ws)) (drop 16 ws)
  | _, _ => s
  end.

Definition init : state :=
  (0x67452301, 0xEFCDAB89, 0x98BADCFE, 0x10325476, 0xC3D2E1F0).

Definition hex_digit (x : Z) : ascii :=
  if x <? 10 then Py.chr (48 + x) else Py.chr (87 + x).

Definition hex_word (x : Z) : string :=
  fold_right (λ i s, String (hex_digit ((x / 16 ^ Z.of_nat i) mod 16)) s)
    EmptyString (rev (seq 0 8)).

(** [hashlib.sha1(m).hexdigest()]. *)
Definition hexdigest (m : list Z) : string :=
  let p := pad m in
  let ws := words (length p) p in
  let '(h0, h1, h2, h3, h4) := blocks (length ws) init ws in
  hex_word h0 +:+ hex_word h1 +:+ hex_word h2 +:+ hex_word h3
    +:+ hex_word h4.

End SHA1.

Definition sha1_utf8 (s : string) : string :=
  SHA1.hexdigest (Py.encode_utf8 s).

(** ** Numeric literals, [float] and [Decimal] *)

Module PyNum.

Fixpoint span (p : ascii → bool) (s : string) : string * string :=
  match s with
  | EmptyString => (EmptyString, EmptyString)
  | String c s' =>
      if p c then let '(a, b) := span p s' in (String c a, b)
      else (EmptyString, s)
  end.

Definition is_e (c : ascii) : bool :=
  Ascii.eqb c "e" || Ascii.eqb c "E".

(** A decimal numeral [digits [. digits]] or [. digits] with an optional
    exponent [e [sign] digits]: the coefficient, the power of ten and
    what is left of the input. *)
Definition numeral (s : string) : option (Z * Z * string) :=
  let '(ip, r1) := span Py.isdigit s in
  let '(fp, r2) :=
    match r1 with
    | String "." r => span Py.isdigit r
    | _ => (EmptyString, r1)
    end in
  match Py.number (ip +:+ fp) with
  | None => None
  | Some c =>
      let frac := Z.of_nat (String.length fp) in
      match r2 with
      | String x r3 =>
          if is_e x then
            let '(neg, r4) := Py.sign r3 in
            let '(ed, r5) := span Py.isdigit r4 in
            match Py.number ed with
            | Some n => Some (c, (if neg then - n else n) - frac, r5)
            | None => Some (c, - frac, r2)
            end
          else Some (c, - frac, r2)
      | EmptyString => Some (c, - frac, r2)
      end
  end.

(** [round(num / den)] to the nearest integer, ties to even; [den > 0]. *)
Definition round_half_even (num den : Z) : Z :=
  let q := num / den in
  let r := num mod den in
  if 2 * r <? den then q
  else if den <? 2 * r then q + 1
  else if Z.even q then q else q + 1.

(** Number of decimal digits of [n > 0]. *)
Definition ndigits (n : Z) : Z := Z.of_nat (String.length (Py.str_nat n)).

Fixpoint rstrip_zeros_rev (s : string) : string :=
  match s with
  | String "0" s' => rstrip_zeros_rev s'
  | _ => s
  end.
Definition rstrip_zeros (s : string) : string :=
  String.rev (rstrip_zeros_rev (String.rev s)).

Fixpoint take (n : nat) (s : string) : string :=
  match n, s with
  | S n', String c s' => String c (take n' s')
  | _, _ => EmptyString
  end.
Fixpoint drop (n : nat) (s : string) : string :=
  match n, s with
  | S n', String _ s' => drop n' s'
  | _, _ => s
  end.

End PyNum.

Module PyFloat.
Import PyNum.

(** A binary64 value: a NaN, an infinity, or [(-1)^neg * m * 2^e]. *)
Inductive float : Type :=
  | NaN
  | Inf (neg : bool)
  | Fin (neg : bool) (m e : Z).

(** The double nearest to [c * 10^e10] (ties to even), for [c >= 0]. *)
Definition of_decimal (neg : bool) (c e10 : Z) : float :=
  if c <=? 0 then Fin neg 0 0
  else
    let num := if 0 <=? e10 then c * 10 ^ e10 else c in
    let den := if 0 <=? e10 then 1 else 10 ^ (- e10) in
    let l := Z.log2 num - Z.log2 den in
    let ge_pow2 (k : Z) :=
      if 0 <=? k then den * 2 ^ k <=? num else den <=? num * 2 ^ (- k) in
    let L := if ge_pow2 l then l else l - 1 in
    let e := Z.max (L - 52) (-1074) in
    let m :=
      if 0 <=? e then round_half_even num (den * 2 ^ e)
      else round_half_even (num * 2 ^ (- e)) den in
    if (971 <? e) || ((e =? 971) && (2 ^ 53 <=? m)) then Inf neg
    else Fin neg m e.

(** [float(s)] for a unicode string. *)
Definition of_string (s : string) : result float :=
  let '(neg, r) := Py.sign (Py.strip s) in
  let w := Py.lower r in
  if String.eqb w "inf" || String.eqb w "infinity" then Ok (Inf neg)
  else if String.eqb w "nan" then Ok NaN
  else match numeral r with
       | Some (c, e10, EmptyString) => Ok (of_decimal neg c e10)
       | _ => Raise ValueError
       end.

(** The magnitude of a finite value as a fraction. *)
Definition fraction (m e : Z) : Z * Z :=
  if 0 <=? e then (m * 2 ^ e, 1) else (m, 2 ^ (- e)).

Definition sign_str (neg : bool) : string := if neg then "-" else "".

(** The conversion ['%.<prec>g'] of a finite magnitude [num / den];
    [dot0] is the [repr] flag that turns an integer-looking result
    like 3 into 3.0 . *)
Definition format_g_mag (dot0 : bool) (prec : Z) (num den : Z) : string :=
  let P := Z.max prec 1 in
  let '(ds, decpt) :=
    if num =? 0 then ("0"%string, 1)
    else
      let k0 := ndigits num - ndigits den in
      let k := if num <? den * 10 ^ k0 then k0     (* num/den < 10^k0 *)
               else k0 + 1 in
      let k := if 0 <=? k - 1
               then (if num <? den * 10 ^ (k - 1) then k - 1 else k)
               else (if num * 10 ^ (1 - k) <? den then k - 1 else k) in
      let n := if 0 <=? P - k then round_half_even (num * 10 ^ (P - k)) den
               else round_half_even num (den * 10 ^ (k - P)) in
      if n =? 10 ^ P then (rstrip_zeros (Py.str_nat (10 ^ (P - 1))), k + 1)
      else (rstrip_zeros (Py.str_nat n), k) in
  let nd := Z.of_nat (String.length ds) in
  if (decpt <=? -4) || (P <? decpt) then
    let x := decpt - 1 in
    let xs := Py.str_nat (Z.abs x) in
    take 1 ds
      +:+ (if 1 <? nd then "." +:+ drop 1 ds else "")
      +:+ "e" +:+ (if x <? 0 then "-" else "+")
      +:+ (if Z.abs x <? 10 then "0" +:+ xs else xs)
  else if decpt <=? 0 then
    "0." +:+ Py.repeat "0" (Z.to_nat (- decpt)) +:+ ds
  else if nd <=? decpt then
    ds +:+ Py.repeat "0" (Z.to_nat (decpt - nd))
       +:+ (if dot0 then ".0" else "")
  else
    take (Z.to_nat decpt) ds +:+ "." +:+ drop (Z.to_nat decpt) ds.

(** The conversion ['%.<prec>f'] of a finite magnitude. *)
Definition format_f_mag (prec : Z) (num den : Z) : string :=
  let n := round_half_even (num * 10 ^ prec) den in
  let s := Py.str_nat n in
  let len := Z.of_nat (String.length s) in
  let s := Py.repeat "0" (Z.to_nat (prec + 1 - len)) +:+ s in
  let ip := Z.to_nat (Z.of_nat (String.length s) - prec) in
  if prec =? 0 then s else take ip s +:+ "." +:+ drop ip s.

(** ['%.<prec>f' % x]; CPython 2 replaces the conversion by
    ['%.<prec>g'] once [abs(x) >= 1e50]. *)
Definition format_f (prec : Z) (x : float) : string :=
  match x with
  | NaN => "nan"
  | Inf neg => sign_str neg +:+ "inf"
  | Fin neg m e =>
      let '(num, den) := fraction m e in
      let big :=
        match of_decimal false 1 50 with
        | Fin _ m' e' =>
            let '(n', d') := fraction m' e' in n' * den <=? num * d'
        | _ => false
        end in
      sign_str neg +:+
        (if big then format_g_mag false prec num den
         else format_f_mag prec num den)
  end.

(** [str(x)], the conversion ['%.12g'] with the [repr] flag. *)
Definition str (x : float) : string :=
  match x with
  | NaN => "nan"
  | Inf neg => sign_str neg +:+ "inf"
  | Fin neg m e =>
      let '(num, den) := fraction m e in
      sign_str neg +:+ format_g_mag true 12 num den
  end.

(** [x < y] and [x == y]. *)
Definition signed (neg : bool) (m e : Z) : Z * Z :=
  let '(num, den) := fraction m e in ((if neg then - num else num), den).

Definition ltb (x y : float) : bool :=
  match x, y with
  | NaN, _ | _, NaN => false
  | Inf nx, Inf ny => nx && negb ny
  | Inf nx, Fin _ _ _ => nx
  | Fin _ _ _, Inf ny => negb ny
  | Fin nx mx ex, Fin ny my ey =>
      let '(a, b) := signed nx mx ex in
      let '(c, d) := signed ny my ey in
      a * d <? c * b
  end.

Definition eqb (x y : float) : bool :=
  match x, y with
  | NaN, _ | _, NaN => false
  | Inf nx, Inf ny => Bool.eqb nx ny
  | Fin nx mx ex, Fin ny my ey =>
      let '(a, b) := signed nx mx ex in
      let '(c, d) := signed ny my ey in
      a * d =? c * b
  | _, _ => false
  end.

End PyFloat.

Module PyDecimal.
Import PyNum.

(** A [decimal.Decimal]: a NaN (quiet or signaling, with its diagnostic
    digits), an infinity, or [(-1)^neg * coeff * 10^exp]. *)
Inductive decimal : Type :=
  | DNaN (neg signaling : bool) (diag : string)
  | DInf (neg : bool)
  | DFin (neg : bool) (coeff exp : Z).

Definition nan_literal (w : string) : option (bool * string) :=
  let '(sig, r) :=
    match w with
    | String "s" r => (true, r)
    | _ => (false, w)
    end in
  if String.eqb (take 3 r) "nan" then
    match Py.digits_value 0 (drop 3 r) with
    | Some n => Some (sig, if n =? 0 then "" else Py.str_nat n)
    | None => None
    end
  else None.

(** [Decimal(s)] for a unicode string. *)
Definition of_string (s : string) : result decimal :=
  let '(neg, r) := Py.sign (Py.strip s) in
  let w := Py.lower r in
  if String.eqb w "inf" || String.eqb w "infinity" then Ok (DInf neg)
  else match nan_literal w with
       | Some (sig, diag) => Ok (DNaN neg sig diag)
       | None =>
           match numeral r with
           | Some (c, e10, EmptyString) => Ok (DFin neg c e10)
           | _ => Raise InvalidOperation
           end
       end.

(** [str(d)]: plain notation when the exponent is at most zero and
    the number has more than -6 digits left of the point, scientific
    notation otherwise. *)
Definition str (d : decimal) : string :=
  match d with
  | DNaN neg sig diag =>
      PyFloat.sign_str neg +:+ (if sig then "sNaN" else "NaN") +:+ diag
  | DInf neg => PyFloat.sign_str neg +:+ "Infinity"
  | DFin neg c e =>
      let ds := Py.str_nat c in
      let nd := Z.of_nat (String.length ds) in
      let leftdigits := e + nd in
      let dotplace :=
        if (e <=? 0) && (-6 <? leftdigits) then leftdigits else 1 in
      let body :=
        if dotplace <=? 0 then
          "0." +:+ Py.repeat "0" (Z.to_nat (- dotplace)) +:+ ds
        else if nd <=? dotplace then
          ds +:+ Py.repeat "0" (Z.to_nat (dotplace - nd))
        else take (Z.to_nat dotplace) ds +:+ "."
               +:+ drop (Z.to_nat dotplace) ds in
      let x := leftdigits - dotplace in
      PyFloat.sign_str neg +:+ body +:+
        (if x =? 0 then ""
         else "E" +:+ (if x <? 0 then "-" else "+")
                  +:+ Py.str_nat (Z.abs x))
  end.

(** [float(d)], the double nearest to [d]. *)
Definition to_float (d : decimal) : result PyFloat.float :=
  match d with
  | DNaN _ true _ => Raise ValueError
  | DNaN _ false _ => Ok PyFloat.NaN
  | DInf neg => Ok (PyFloat.Inf neg)
  | DFin neg c e => Ok (PyFloat.of_decimal neg c e)
  end.

(** Three-way comparison of two numbers; [None] when a NaN is
    involved. *)
Definition scaled (neg : bool) (c e : Z) (emin : Z) : Z :=
  let v := c * 10 ^ (e - emin) in if neg then - v else v.

Definition cmp (x y : decimal) : option comparison :=
  match x, y with
  | DNaN _ _ _, _ | _, DNaN _ _ _ => None
  | DInf nx, DInf ny =>
      Some (if Bool.eqb nx ny then Eq else if nx then Lt else Gt)
  | DInf nx, DFin _ _ _ => Some (if nx then Lt else Gt)
  | DFin _ _ _, DInf ny => Some (if ny then Gt else Lt)
  | DFin nx cx ex, DFin ny cy ey =>
      let emin := Z.min ex ey in
      Some (scaled nx cx ex emin ?= scaled ny cy ey emin)
  end.

(** [x == y]: false when a NaN is involved. *)
Definition eqb (x y : decimal) : bool :=
  match cmp x y with Some Eq => true | _ => false end.

(** [x < y]: raises when a NaN is involved. *)
Definition lt (x y : decimal) : result bool :=
  match cmp x y with
  | Some Lt => Ok true
  | Some _ => Ok false
  | None => Raise InvalidOperation
  end.

End PyDecimal.

(** ** Regular expressions ([re.match]) *)

Module Re.

Inductive regex : Type :=
  | Void
  | Eps
  | Chr (p : ascii → bool)
  | Cat (r1 r2 : regex)
  | Alt (r1 r2 : regex)
  | Star (r : regex).

Fixpoint nullable (r : regex) : bool :=
  match r with
  | Void => false
  | Eps => true
  | Chr _ => false
  | Cat r1 r2 => nullable r1 && nullable r2
  | Alt r1 r2 => nullable r1 || nullable r2
  | Star _ => true
  end.

Fixpoint deriv (c : ascii) (r : regex) : regex :=
  match r with
  | Void | Eps => Void
  | Chr p => if p c then Eps else Void
  | Cat r1 r2 =>
      if nullable r1 then Alt (Cat (deriv c r1) r2) (deriv c r2)
      else Cat (deriv c r1) r2
  | Alt r1 r2 => Alt (deriv c r1) (deriv c r2)
  | Star r1 => Cat (deriv c r1) (Star r1)
  end.

(** The whole of [s] is in the language of [r]. *)
Fixpoint fullmatch (r : regex) (s : string) : bool :=
  match s with
  | EmptyString => nullable r
  | String c s' => fullmatch (deriv c r) s'
  end.

Fixpoint lit (s : string) : regex :=
  match s with
  | EmptyString => Eps
  | String c s' => Cat (Chr (Ascii.eqb c)) (lit s')
  end.

Definition opt (r : regex) : regex := Alt Eps r.
Definition plus (r : regex) : regex := Cat r (Star r).
Fixpoint rep (n : nat) (r : regex) : regex :=
  match n with
  | O => Eps
  | S n' => Cat r (rep n' r)
  end.
Fixpoint alts (l : list regex) : regex :=
  match l with
  | [] => Void
  | [r] => r
  | r :: l' => Alt r (alts l')
  end.
Fixpoint cats (l : list regex) : regex :=
  match l with
  | [] => Eps
  | [r] => r
  | r :: l' => Cat r (cats l')
  end.

Definition range (lo hi : ascii) : ascii → bool :=
  λ c, (Py.code lo <=? Py.code c) && (Py.code c <=? Py.code hi).
Definition digit : regex := Chr (range "0" "9").
(** [.] matches anything but a newline. *)
Definition dot : regex := Chr (λ c, negb (Py.code c =? 10)).

(** [re.match] looks for a match at the start of the string.  An
    alternative that ends in [$] has to reach the end of the string or
    the newline that ends it; any other alternative may stop
    anywhere. *)
Definition anywhere : regex := Star (Chr (λ _, true)).
Definition dollar : regex := opt (Chr (λ c, Py.code c =? 10)).
Definition prefix (r : regex) : regex := Cat r anywhere.
Definition to_end (r : regex) : regex := Cat r dollar.

Definition match_ (r : regex) (s : string) : bool := fullmatch r s.

End Re.

(** ** [EDXMLBase] *)

Module EDXMLBase.
Import Re.

(** ["^[0-9a-zA-Z]{40}$"] *)
Definition HashlinkPattern : regex :=
  to_end (rep 40 (Chr (λ c, range "0" "9" c || range "a" "z" c
                            || range "A" "Z" c))).

(** ["string:[0-9]+:((cs)|(ci))(:[ru]+)?"] *)
Definition StringDataTypePattern : regex :=
  prefix (cats [lit "string:"; plus digit; lit ":";
                Alt (lit "cs") (lit "ci");
                opt (Cat (lit ":")
                       (plus (Chr (λ c, Ascii.eqb c "r"
                                        || Ascii.eqb c "u"))))]).

(** ["binstring:[0-9]+(:r)?"] *)
Definition BinstringDataTypePattern : regex :=
  prefix (cats [lit "binstring:"; plus digit; opt (lit ":r")]).

(** [re.match(...) == False]: [re.match] returns a match object or
    [None], and neither compares equal to [False]. *)
Definition match_eq_False (found : bool) : bool :=
  if found then false else false.

(** [Value < 0] for a unicode [Value]: CPython 2 orders an [int] before
    any string, so the test is false; for the same reason
    [ObjectDataType[1] > 0] is true and [len(Value) > ObjectDataType[1]]
    is false. *)
Definition unicode_lt_int (Value : string) (n : Z) : bool := false.
Definition unicode_gt_int (s : string) (n : Z) : bool := true.
Definition int_gt_unicode (n : Z) (s : string) : bool := false.

Definition is_ascii (s : string) : bool :=
  forallb (λ c, Py.code c <? 128) (list_ascii_of_string s).

(** [str(Value)] for a unicode [Value] encodes to ASCII. *)
Definition str_ (Value : string) : result string :=
  if is_ascii Value then Ok Value else Raise UnicodeError.

Definition is_hex_digit (c : ascii) : bool :=
  range "0" "9" c || range "a" "f" c || range "A" "F" c.

(** [Value.decode("hex")] succeeds on an even number of hex digits. *)
Definition hex_decodable (Value : string) : bool :=
  Nat.even (String.length Value)
  && forallb is_hex_digit (list_ascii_of_string Value).

Definition remove_char (c : ascii) (s : string) : string :=
  string_of_list_ascii
    (List.filter (λ x, negb (Ascii.eqb x c)) (list_ascii_of_string s)).

Definition contains_char (c : ascii) (s : string) : bool :=
  existsb (Ascii.eqb c) (list_ascii_of_string s).

Definition invalid_ip {A} (Value : string) : result A :=
  v ← str_ Value;
  Error ("EDXMLBase::ValidateObject: Invalid IP address: '" +:+ v +:+ "'").

Definition ValidateObject (Value ObjectTypeName DataType : string)
  : result unit :=
  let ObjectDataType := Py.split ":" DataType in
  dt0 ← index ObjectDataType 0;
  if String.eqb dt0 "timestamp" then
    match PyFloat.of_string Value with
    | Ok _ => Ok ()
    | Raise _ =>
        v ← str_ Value;
        Error ("Invalid timestamp '" +:+ v +:+ "' of object type "
                 +:+ ObjectTypeName +:+ ".")
    end
  else if String.eqb dt0 "number" then
    dt1 ← index ObjectDataType 1;
    if String.eqb dt1 "decimal" then
      if (length ObjectDataType <? 5)%nat && unicode_lt_int Value 0 then
        v ← str_ Value;
        Error ("Unsigned decimal value '" +:+ v +:+ "' of object type "
                 +:+ ObjectTypeName +:+ " is negative.")
      else Ok ()
    else if String.eqb dt1 "hex" then
      Value' ←
        (if (3 <? length ObjectDataType)%nat then
           HexSeparator ← index ObjectDataType 5;
           if (String.length HexSeparator =? 0)%nat
           then Ok (remove_char ":" Value)
           else Ok Value
         else Ok Value);
      if hex_decodable Value' then Ok ()
      else
        v ← str_ Value';
        Error ("Invalid hexadecimal value '" +:+ v +:+ "' of object type "
                 +:+ ObjectTypeName +:+ ".")
    else if String.eqb dt1 "float" || String.eqb dt1 "double" then
      match PyFloat.of_string Value with
      | Ok _ =>
          if (length ObjectDataType <? 3)%nat && unicode_lt_int Value 0
          then
            v ← str_ Value;
            Error ("Unsigned float or double value '" +:+ v
                     +:+ "' of object type " +:+ ObjectTypeName
                     +:+ " is negative.")
          else Ok ()
      | Raise _ =>
          v ← str_ Value;
          Error ("Invalid number '" +:+ v +:+ "' of object type "
                   +:+ ObjectTypeName +:+ ".")
      end
    else
      if (length ObjectDataType <? 3)%nat && unicode_lt_int Value 0 then
        v ← str_ Value;
        Error ("Unsigned integer value '" +:+ v +:+ "' of object type "
                 +:+ ObjectTypeName +:+ " is negative.")
      else Ok ()
  else if String.eqb dt0 "geo" then
    dt1 ← index ObjectDataType 1;
    if String.eqb dt1 "point" then Ok () else Ok ()
  else if String.eqb dt0 "string" then
    if match_eq_False (match_ StringDataTypePattern DataType) then
      Error ("EDXMLBase::ValidateObject: Invalid string data type: "
               +:+ DataType)
    else
      dt1 ← index ObjectDataType 1;
      StringLength ← Py.int dt1;
      if (0 <? StringLength)
         && (StringLength <? Z.of_nat (String.length Value)) then
        Error ("EDXMLBase::ValidateObject: string too long for object type "
                 +:+ ObjectTypeName +:+ ": '" +:+ Value +:+ "'")
      else
        (* every code point of the embedding encodes to latin1 *)
        Ok ()
  else if String.eqb dt0 "binstring" then
    if match_eq_False (match_ BinstringDataTypePattern DataType) then
      Error ("EDXMLBase::ValidateObject: Invalid binstring data type: "
               +:+ DataType)
    else
      dt1 ← index ObjectDataType 1;
      if unicode_gt_int dt1 0
         && int_gt_unicode (Z.of_nat (String.length Value)) dt1 then
        Error ("EDXMLBase::ValidateObject: binstring too long for object type "
                 +:+ ObjectTypeName +:+ ": '" +:+ Value +:+ "'")
      else Ok ()
  else if String.eqb dt0 "hashlink" then
    if match_eq_False (match_ HashlinkPattern Value) then
      v ← str_ Value;
      Error ("EDXMLBase::ValidateObject: Invalid hashlink: '" +:+ v +:+ "'")
    else Ok ()
  else if String.eqb dt0 "ip" then
    let SplitIp := Py.split "." Value in
    if negb (length SplitIp =? 4)%nat then invalid_ip Value
    else
      foldl (λ acc SplitIpPart,
               _ ← acc;
               match Py.int SplitIpPart with
               | Ok n => if (0 <=? n) && (n <=? 255) then Ok ()
                         else invalid_ip Value
               | Raise _ => invalid_ip Value
               end) (Ok ()) SplitIp
  else if String.eqb dt0 "boolean" then
    let ObjectString := Py.lower Value in
    if negb (String.eqb ObjectString "true")
       && negb (String.eqb ObjectString "false") then
      v ← str_ Value;
      Error ("EDXMLBase::ValidateObject: Invalid boolean: '" +:+ v +:+ "'")
    else Ok ()
  else if String.eqb dt0 "enum" then
    if negb (existsb (String.eqb Value) (tail ObjectDataType)) then
      v ← str_ Value;
      Error ("EDXMLBase::ValidateObject: Invalid value for enum data type: '"
               +:+ v +:+ "'")
    else Ok ()
  else
    v ← str_ DataType;
    Error ("EDXMLBase::ValidateObject: Invalid data type: '" +:+ v +:+ "'").

(** The precision that ['%.' + DecimalPrecision + 'f'] asks for; a
    field that is not a run of digits makes [%] stop at an unsupported
    format character. *)
Definition format_precision (DecimalPrecision : string) : result Z :=
  match Py.digits_value 0 DecimalPrecision with
  | Some p => Ok p
  | None => Raise ValueError
  end.

Definition int_types : list string :=
  ["tinyint"; "smallint"; "mediumint"; "int"; "bigint"].

Definition elem (x : string) (l : list string) : bool :=
  existsb (String.eqb x) l.

(** [NormalizeObject(Value, DataType)]; [DataType] is the descriptor
    already split at its colons. *)
Definition NormalizeObject (Value : string) (DataType : list string)
  : result string :=
  dt0 ← index DataType 0;
  if String.eqb dt0 "timestamp" then
    d ← PyDecimal.of_string Value;
    x ← PyDecimal.to_float d;
    Ok (PyFloat.format_f 6 x)
  else if String.eqb dt0 "number" then
    dt1 ← index DataType 1;
    if String.eqb dt1 "decimal" then
      DecimalPrecision ← index DataType 3;
      d ← PyDecimal.of_string Value;
      prec ← format_precision DecimalPrecision;
      x ← PyDecimal.to_float d;
      Ok (PyFloat.format_f prec x)
    else if elem dt1 int_types then
      n ← Py.int Value;
      Ok (Py.str_int n)
    else
      x ← PyFloat.of_string Value;
      Ok (PyFloat.format_f 6 x)
  else if String.eqb dt0 "ip" then
    let Octets := Py.split "." Value in
    match
      (o0 ← index Octets 0; n0 ← Py.int o0;
       o1 ← index Octets 1; n1 ← Py.int o1;
       o2 ← index Octets 2; n2 ← Py.int o2;
       o3 ← index Octets 3; n3 ← Py.int o3;
       Ok (Py.str_int n0 +:+ "." +:+ Py.str_int n1 +:+ "."
             +:+ Py.str_int n2 +:+ "." +:+ Py.str_int n3))
    with
    | Ok s => Ok s
    | Raise _ => Error ("NormalizeObject: Invalid IP: '" +:+ Value +:+ "'")
    end
  else if String.eqb dt0 "string" then
    dt2 ← index DataType 2;
    if String.eqb dt2 "ci" then Ok (Py.lower Value) else Ok Value
  else if String.eqb dt0 "boolean" then
    Ok (Py.lower Value)
  else Ok Value.

End EDXMLBase.

(** ** [EDXMLDefinitions]: the schema registry *)

Module EDXMLDefinitions.
Import Re.
Export EDXMLBase.

(** *** Validation patterns *)

Definition name_char (c : ascii) : bool :=
  range "a" "z" c || range "0" "9" c || Ascii.eqb c "-".
Definition display_char (c : ascii) : bool :=
  Ascii.eqb c " " || range "a" "z" c || range "A" "Z" c || range "0" "9" c.

(** ["^[a-z0-9-]*$"] *)
Definition SimpleNamePattern : regex := to_end (Star (Chr name_char)).
(** ["^[ a-zA-Z0-9]+/[ a-zA-Z0-9]+$"] *)
Definition DisplayNamePattern : regex :=
  to_end (cats [plus (Chr display_char); lit "/"; plus (Chr display_char)]).
(** ["^(true)|(false)$"] *)
Definition TrueFalsePattern : regex :=
  Alt (prefix (lit "true")) (to_end (lit "false")).
(** ["^[0-9.]+$"] *)
Definition DecimalPattern : regex :=
  to_end (plus (Chr (λ c, range "0" "9" c || Ascii.eqb c "."))).
(** ["^[0-9]{8}$"] *)
Definition SourceDatePattern : regex := to_end (rep 8 digit).
(** ["^(drop)|(add)|(replace)|(min)|(max)|(match)$"] *)
Definition MergeOptions : regex :=
  alts [prefix (lit "drop"); prefix (lit "add"); prefix (lit "replace");
        prefix (lit "min"); prefix (lit "max"); to_end (lit "match")].
(** ["^(intra|inter|parent|child|other):.+"] *)
Definition RelationTypePattern : regex :=
  prefix (cats [alts [lit "intra"; lit "inter"; lit "parent"; lit "child";
                      lit "other"];
                lit ":"; plus dot]).
(** ["^(none)|(phonetic)|(\[[0-9]{1,2}:\])|(\[:[0-9]{1,2}\])$"] *)
Definition FuzzyMatchingPattern : regex :=
  alts [prefix (lit "none"); prefix (lit "phonetic");
        prefix (cats [lit "["; digit; opt digit; lit ":]"]);
        to_end (cats [lit "[:"; digit; opt digit; lit "]"])].
(** The data type pattern: ["^(boolean)|(timestamp)|(ip)|(hashlink)|(...)$"],
    the last alternative being the descriptors with a colon. *)
Definition DataTypePattern : regex :=
  alts
    [prefix (lit "boolean"); prefix (lit "timestamp"); prefix (lit "ip");
     prefix (lit "hashlink");
     to_end
       (alts
          [cats [lit "number:";
                 alts [Cat (opt (alts [lit "tiny"; lit "small";
                                       lit "medium"; lit "big"]))
                           (lit "int");
                       lit "float"; lit "double"];
                 opt (lit ":signed")];
           cats [lit "number:decimal:"; plus digit; lit ":"; plus digit;
                 opt (lit ":signed")];
           cats [lit "number:hex:"; plus digit;
                 opt (cats [lit ":"; plus digit; lit ":"; dot])];
           Cat (lit "enum:") (Star dot);
           lit "geo:point";
           cats [lit "string:"; plus digit; lit ":";
                 Alt (lit "cs") (lit "ci");
                 opt (Cat (lit ":")
                        (plus (Chr (λ c, Ascii.eqb c "r"
                                         || Ascii.eqb c "u"))))];
           cats [lit "binstring:"; plus digit; opt (lit ":r")]])].

(** *** The attribute table [EDXMLEntityAttributes] *)

Record attr_spec : Type := AttrSpec {
  mandatory : bool;
  length_ : option nat;
  pattern : option regex;
  default_ : option string }.

Definition EDXMLEntityAttributes (Entity : string)
  : option (list (string * attr_spec)) :=
  if String.eqb Entity "eventtype" then Some
    [("name", AttrSpec true (Some 40%nat) (Some SimpleNamePattern) None);
     ("display-name",
       AttrSpec false (Some 64%nat) (Some DisplayNamePattern) (Some "/"));
     ("description", AttrSpec true (Some 128%nat) None None);
     ("classlist", AttrSpec true None None None);
     ("reporter-short", AttrSpec true None None None);
     ("reporter-long", AttrSpec true None None None)]
  else if String.eqb Entity "property" then Some
    [("name", AttrSpec true (Some 64%nat) (Some SimpleNamePattern) None);
     ("description", AttrSpec true (Some 128%nat) None None);
     ("similar", AttrSpec false (Some 64%nat) None None);
     ("object-type",
       AttrSpec true (Some 40%nat) (Some SimpleNamePattern) None);
     ("unique", AttrSpec false None (Some TrueFalsePattern) (Some "false"));
     ("merge", AttrSpec false None (Some MergeOptions) (Some "drop"));
     ("defines-entity",
       AttrSpec false None (Some TrueFalsePattern) (Some "false"));
     ("entity-confidence",
       AttrSpec false None (Some DecimalPattern) (Some "0"))]
  else if String.eqb Entity "relation" then Some
    [("property1",
       AttrSpec true (Some 64%nat) (Some SimpleNamePattern) None);
     ("property2",
       AttrSpec true (Some 64%nat) (Some SimpleNamePattern) None);
     ("directed", AttrSpec false None (Some TrueFalsePattern) (Some "true"));
     ("description", AttrSpec true (Some 255%nat) None None);
     ("type", AttrSpec true (Some 32%nat) (Some RelationTypePattern) None);
     ("confidence", AttrSpec true None (Some DecimalPattern) None)]
  else if String.eqb Entity "objecttype" then Some
    [("name", AttrSpec true (Some 40%nat) (Some SimpleNamePattern) None);
     ("display-name",
       AttrSpec false (Some 64%nat) (Some DisplayNamePattern) (Some "/"));
     ("description", AttrSpec true (Some 128%nat) None None);
     ("fuzzy-matching",
       AttrSpec false None (Some FuzzyMatchingPattern) (Some "none"));
     ("compress", AttrSpec false None (Some TrueFalsePattern) (Some "false"));
     ("enp", AttrSpec false None None (Some "0"));
     ("regexp", AttrSpec false (Some 128%nat) None (Some "[\s\S]*"));
     ("data-type", AttrSpec true None (Some DataTypePattern) None)]
  else if String.eqb Entity "source" then Some
    [("source-id", AttrSpec true None None None);
     ("url", AttrSpec true None None None);
     ("date-acquired", AttrSpec true None (Some SourceDatePattern) None);
     ("description", AttrSpec true (Some 128%nat) None None)]
  else None.

Fixpoint assoc {A} (k : string) (l : list (string * A)) : option A :=
  match l with
  | [] => None
  | (k', a) :: l' => if String.eqb k k' then Some a else assoc k l'
  end.

(** [self.EDXMLEntityAttributes[Entity][Attrib]] *)
Definition attribute_spec (Entity Attrib : string) : result attr_spec :=
  match EDXMLEntityAttributes Entity with
  | None => Raise KeyError
  | Some table =>
      match assoc Attrib table with
      | None => Raise KeyError
      | Some spec => Ok spec
      end
  end.

(** Run [f] on the items of [l] in turn, stopping at the first
    exception. *)
Fixpoint for_each {A} (f : A → result unit) (l : list A) : result unit :=
  match l with
  | [] => Ok ()
  | x :: l' => _ ← f x; for_each f l'
  end.

(** [ValidateEdxmlEntityAttributes(EntityName, Attributes)] *)
Definition ValidateEdxmlEntityAttributes (EntityName : string)
    (Attributes : gmap string string) : result unit :=
  match EDXMLEntityAttributes EntityName with
  | None => Raise KeyError
  | Some table =>
      _ ← for_each (λ '(Attribute, spec),
             match Attributes !! Attribute with
             | None =>
                 if mandatory spec then
                   Error ("Definition of " +:+ EntityName
                            +:+ " lacks mandatory attribute '"
                            +:+ Attribute +:+ "'.")
                 else Ok ()
             | Some Value =>
                 if String.eqb Value "" then Ok ()
                 else
                   _ ← match length_ spec with
                       | Some (S n) =>
                           if (S n <? String.length Value)%nat then
                             Error ("Value of " +:+ EntityName
                                      +:+ " attribute " +:+ Attribute
                                      +:+ " is too long: " +:+ Value +:+ " ")
                           else Ok ()
                       | _ => Ok ()
                       end;
                   match pattern spec with
                   | Some p =>
                       if negb (match_ p Value) then
                         Error ("Value of " +:+ EntityName
                                  +:+ " attribute " +:+ Attribute
                                  +:+ " is invalid: " +:+ Value +:+ " ")
                       else Ok ()
                   | None => Ok ()
                   end
             end) table;
      let UnknownAttributes :=
        elements (dom Attributes ∖ list_to_set (fst <$> table)) in
      if (0 <? length UnknownAttributes)%nat then
        Error ("Definition of " +:+ EntityName
                 +:+ " contains unknown attributes: "
                 +:+ Py.join "," UnknownAttributes)
      else Ok ()
  end.

(** [CheckEdxmlEntityConsistency(Entity, EntityDescription,
    CurrentAttributes, UpdatedAttributes)] *)
Definition check_retained (Entity EntityDescription : string)
    (CurrentAttributes UpdatedAttributes : gmap string string)
    (Attribute : string) : result unit :=
  cur ← getitem CurrentAttributes Attribute;
  upd ← getitem UpdatedAttributes Attribute;
  if negb (String.eqb cur upd) then
    Error ("Attribute " +:+ Attribute +:+ " of " +:+ Entity +:+ " '"
             +:+ EntityDescription
             +:+ "' does not match previous definition:" +:+ "
New:      " +:+ upd +:+ "
Existing: " +:+ cur +:+ "
")
  else Ok ().

Definition check_added (Entity EntityDescription : string)
    (UpdatedAttributes : gmap string string) (Attrib : string)
  : result unit :=
  spec ← attribute_spec Entity Attrib;
  if mandatory spec then
    Error ("Definition of " +:+ Entity +:+ " '" +:+ EntityDescription
             +:+ "' contains mandatory attribute that was not previously defined: "
             +:+ Attrib)
  else
    match default_ spec with
    | Some dflt =>
        upd ← getitem UpdatedAttributes Attrib;
        if negb (String.eqb upd dflt) then
          Error ("Definition of " +:+ Entity +:+ " '" +:+ EntityDescription
                   +:+ "' contains attribute with non-default value ("
                   +:+ upd +:+ ") that was not previously defined: "
                   +:+ Attrib)
        else Ok ()
    | None =>
        Error ("Definition of " +:+ Entity +:+ " '" +:+ EntityDescription
                 +:+ "' contains attribute that was not previously defined and has no default value: "
                 +:+ Attrib)
    end.

Definition check_removed (Entity EntityDescription : string)
    (CurrentAttributes : gmap string string) (Attrib : string)
  : result unit :=
  spec ← attribute_spec Entity Attrib;
  if mandatory spec then
    Error ("Definition of " +:+ Entity +:+ " '" +:+ EntityDescription
             +:+ "' lacks mandatory attribute: " +:+ Attrib)
  else
    match default_ spec with
    | Some dflt =>
        cur ← getitem CurrentAttributes Attrib;
        if negb (String.eqb cur dflt) then
          Error ("Previous definition of " +:+ Entity +:+ " '"
                   +:+ EntityDescription
                   +:+ "' contains optional attribute " +:+ Attrib
                   +:+ " with non-default value (" +:+ cur
                   +:+ ") while new definition does not define it.")
        else Ok ()
    | None =>
        Error ("Definition of " +:+ Entity +:+ " '" +:+ EntityDescription
                 +:+ "' lacks optional attribute that was previously defined and has no default value: "
                 +:+ Attrib)
    end.

Definition CheckEdxmlEntityConsistency (Entity EntityDescription : string)
    (CurrentAttributes UpdatedAttributes : gmap string string)
  : result unit :=
  let Current : gset string := dom CurrentAttributes in
  let Update : gset string := dom UpdatedAttributes in
  let AttribsAdded := Update ∖ Current in
  let AttribsRetained := Update ∩ Current in
  let AttribsRemoved := Current ∖ Update in
  _ ← for_each (check_retained Entity EntityDescription
                  CurrentAttributes UpdatedAttributes)
        (elements AttribsRetained);
  _ ← for_each (check_added Entity EntityDescription UpdatedAttributes)
        (elements AttribsAdded);
  for_each (check_removed Entity EntityDescription CurrentAttributes)
    (elements AttribsRemoved).

(** *** The registry state *)

(** One entry of [self.EventTypes]; [parent] is [None] while the key
    ['parent'] is absent. *)
Record EventType : Type := mkEventType {
  attributes : gmap string string;
  properties : gmap string (gmap string string);
  unique_properties : gset string;
  mandatory_properties : gset string;
  singleton_properties : gset string;
  parentmapping : gmap string string;
  relations : gmap string (gmap string string);
  related_properties : gset string;
  unique : bool;
  parent : option (gmap string string) }.

Record Definitions : Type := mkDefinitions {
  EventTypes : gmap string EventType;
  ObjectTypes : gmap string (gmap string string);
  ObjectTypeEventTypes : gmap string (gset string);
  EventTypeClasses : gmap string (gset string);
  RequiredObjectTypes : gset string;
  EntityProperties : gmap string (gset string);
  EventTypeNames : list string;
  PropertyNames : gmap string (list string);
  PropertyRelations : gmap string (list string) }.

(** [EDXMLDefinitions.__init__] *)
Definition init : Definitions :=
  mkDefinitions ∅ ∅ ∅ ∅ ∅ ∅ [] ∅ ∅.

Definition set_EventTypes (f : gmap string EventType → gmap string EventType)
    (self : Definitions) : Definitions :=
  mkDefinitions (f (EventTypes self)) (ObjectTypes self)
    (ObjectTypeEventTypes self) (EventTypeClasses self)
    (RequiredObjectTypes self) (EntityProperties self)
    (EventTypeNames self) (PropertyNames self) (PropertyRelations self).

Definition set_ObjectTypes (ots : gmap string (gmap string string))
    (self : Definitions) : Definitions :=
  mkDefinitions (EventTypes self) ots
    (ObjectTypeEventTypes self) (EventTypeClasses self)
    (RequiredObjectTypes self) (EntityProperties self)
    (EventTypeNames self) (PropertyNames self) (PropertyRelations self).

(** [d[k].add(x)], creating the set when [k] is new. *)
Definition add_to (k x : string) (d : gmap string (gset string))
  : gmap string (gset string) :=
  <[k := {[x]} ∪ default ∅ (d !! k)]> d.

(** [AddNewEventType(EventTypeName, Attributes)] *)
Definition AddNewEventType (EventTypeName : string)
    (Attributes : gmap string string) (self : Definitions)
  : result Definitions :=
  _ ← ValidateEdxmlEntityAttributes "eventtype" Attributes;
  classlist ← getitem Attributes "classlist";
  Ok (mkDefinitions
        (<[EventTypeName :=
             mkEventType Attributes ∅ ∅ ∅ ∅ ∅ ∅ ∅ false None]>
           (EventTypes self))
        (ObjectTypes self)
        (ObjectTypeEventTypes self)
        (foldl (λ d Class, add_to Class EventTypeName d)
           (EventTypeClasses self) (Py.split "," classlist))
        (RequiredObjectTypes self)
        (<[EventTypeName := ∅]> (EntityProperties self))
        (EventTypeNames self ++ [EventTypeName])
        (<[EventTypeName := []]> (PropertyNames self))
        (<[EventTypeName := []]> (PropertyRelations self))).

(** [ChildProperty, ParentProperty = PropertyMapping.split(':')] for
    each item of the property map. *)
Fixpoint property_map (items : list string) (m : gmap string string)
  : result (gmap string string) :=
  match items with
  | [] => Ok m
  | PropertyMapping :: items' =>
      match Py.split ":" PropertyMapping with
      | [ChildProperty; ParentProperty] =>
          property_map items' (<[ChildProperty := ParentProperty]> m)
      | _ => Raise ValueError
      end
  end.

(** [SetNewEventTypeParent(EventTypeName, Attributes)]; the handler
    [except KeyError, ValueError] catches [KeyError] only. *)
Definition SetNewEventTypeParent (EventTypeName : string)
    (Attributes : gmap string string) (self : Definitions)
  : result Definitions :=
  et ← getitem (EventTypes self) EventTypeName;
  match Attributes !! "propertymap" with
  | None =>
      Error ("Event type " +:+ EventTypeName
               +:+ " contains a parent definition which has an invalid or missing property map.")
  | Some propertymap =>
      m ← property_map (Py.split "," propertymap) (parentmapping et);
      Ok (set_EventTypes
            (<[EventTypeName :=
                 mkEventType (attributes et) (properties et)
                   (unique_properties et) (mandatory_properties et)
                   (singleton_properties et) m (relations et)
                   (related_properties et) (unique et)
                   (Some Attributes)]>) self)
  end.

Definition has_value_lower (Attributes : gmap string string)
    (k v : string) : bool :=
  match Attributes !! k with
  | Some x => String.eqb (Py.lower x) v
  | None => false
  end.

(** [AddNewProperty(EventTypeName, PropertyName, Attributes)] *)
Definition AddNewProperty (EventTypeName PropertyName : string)
    (Attributes : gmap string string) (self : Definitions)
  : result Definitions :=
  names ← getitem (PropertyNames self) EventTypeName;
  _ ← ValidateEdxmlEntityAttributes "property" Attributes;
  ObjectType ← getitem Attributes "object-type";
  let is_unique := has_value_lower Attributes "unique" "true" in
  et ← getitem (EventTypes self) EventTypeName;
  let uniques :=
    if is_unique then {[PropertyName]} ∪ unique_properties et
    else unique_properties et in
  let mandatories :=
    match Attributes !! "merge" with
    | Some merge =>
        if elem merge ["match"; "min"; "max"]
        then {[PropertyName]} ∪ mandatory_properties et
        else mandatory_properties et
    | None => mandatory_properties et
    end in
  let singletons :=
    match Attributes !! "merge" with
    | Some merge =>
        let s := if elem merge ["match"; "replace"; "min"; "max"]
                 then {[PropertyName]} ∪ singleton_properties et
                 else singleton_properties et in
        if bool_decide (PropertyName ∈ dom (parentmapping et))
        then {[PropertyName]} ∪ s else s
    | None => singleton_properties et
    end in
  entities ←
    (if has_value_lower Attributes "defines-entity" "true" then
       e ← getitem (EntityProperties self) EventTypeName;
       Ok (<[EventTypeName := {[PropertyName]} ∪ e]>
             (EntityProperties self))
     else Ok (EntityProperties self));
  Ok (mkDefinitions
        (<[EventTypeName :=
             mkEventType (attributes et)
               (<[PropertyName :=
                    Attributes ∪ {["unique" := "false";
                                   "defines-entity" := "false"]}]>
                  (properties et))
               uniques mandatories singletons (parentmapping et)
               (relations et) (related_properties et)
               (unique et || is_unique) (parent et)]>
           (EventTypes self))
        (ObjectTypes self)
        (add_to ObjectType EventTypeName (ObjectTypeEventTypes self))
        (EventTypeClasses self)
        ({[ObjectType]} ∪ RequiredObjectTypes self)
        entities
        (EventTypeNames self)
        (<[EventTypeName := names ++ [PropertyName]]> (PropertyNames self))
        (PropertyRelations self)).

(** [AddEventType(EventTypeName, Attributes)] *)
Definition AddEventType (EventTypeName : string)
    (Attributes : gmap string string) (self : Definitions)
  : result Definitions :=
  match EventTypes self !! EventTypeName with
  | Some et =>
      _ ← CheckEdxmlEntityConsistency "eventtype" EventTypeName
            (attributes et) Attributes;
      Ok self
  | None => AddNewEventType EventTypeName Attributes self
  end.

(** [SetEventTypeParent(EventTypeName, Attributes)] *)
Definition SetEventTypeParent (EventTypeName : string)
    (Attributes : gmap string string) (self : Definitions)
  : result Definitions :=
  et ← getitem (EventTypes self) EventTypeName;
  match parent et with
  | Some current =>
      description ← getitem Attributes "eventtype";
      _ ← CheckEdxmlEntityConsistency "parent" description
            current Attributes;
      Ok self
  | None => SetNewEventTypeParent EventTypeName Attributes self
  end.

(** [AddProperty(EventTypeName, PropertyName, Attributes)] *)
Definition AddProperty (EventTypeName PropertyName : string)
    (Attributes : gmap string string) (self : Definitions)
  : result Definitions :=
  et ← getitem (EventTypes self) EventTypeName;
  match properties et !! PropertyName with
  | Some current =>
      _ ← CheckEdxmlEntityConsistency "property" PropertyName
            current Attributes;
      Ok self
  | None => AddNewProperty EventTypeName PropertyName Attributes self
  end.

(** *** Queries *)

Definition dquote : string := String (Py.chr 34) EmptyString.
Definition nl : string := String (Py.chr 10) EmptyString.

(** [GetPropertyObjectType(EventTypeName, PropertyName)] *)
Definition GetPropertyObjectType (self : Definitions)
    (EventTypeName PropertyName : string) : result string :=
  match EventTypes self !! EventTypeName with
  | Some et =>
      match properties et !! PropertyName with
      | Some attrs => getitem attrs "object-type"
      | None =>
          e ← str_ EventTypeName;
          p ← str_ PropertyName;
          Error ("Event type " +:+ e +:+ " has no property named "
                   +:+ dquote +:+ p +:+ dquote)
      end
  | None =>
      e ← str_ EventTypeName;
      Error ("Unknown event type " +:+ e)
  end.

(** [GetObjectTypeDataType(ObjectTypeName)] *)
Definition GetObjectTypeDataType (self : Definitions)
    (ObjectTypeName : string) : result string :=
  ot ← getitem (ObjectTypes self) ObjectTypeName;
  getitem ot "data-type".

(** [GetEventTypeProperties(EventTypeName)] *)
Definition GetEventTypeProperties (self : Definitions)
    (EventTypeName : string) : result (list string) :=
  getitem (PropertyNames self) EventTypeName.

(** *** Merging events *)

(** The dict of an event: property name to list of object values. *)
Abbreviation objects := (gmap string (list string)).

(** The dicts live in a store and are passed by reference. *)
Definition store : Type := nat → objects.
Definition store_set (h : store) (l : nat) (o : objects) : store :=
  λ l', if Nat.eqb l' l then o else h l'.

(** [{p: set(EventObjects[p]) if p in EventObjects else set()}] for the
    properties of the event type. *)
Definition value_sets (names : list string) (EventObjects : objects)
  : gmap string (gset string) :=
  foldl (λ d p, <[p := list_to_set (default [] (EventObjects !! p))]> d)
    ∅ names.

Fixpoint map_result {A B} (f : A → result B) (l : list A)
  : result (list B) :=
  match l with
  | [] => Ok []
  | x :: l' => y ← f x; ys ← map_result f l'; Ok (y :: ys)
  end.

(** [min(Values)] and [max(Values)]: the first item, replaced by each
    later item that compares below (above) it. *)
Definition best {A} (below : A → A → bool) (l : list A) : result A :=
  match l with
  | [] => Raise ValueError
  | x :: l' => Ok (foldl (λ m y, if below y m then y else m) x l')
  end.

Definition best_decimal (is_min : bool) (l : list PyDecimal.decimal)
  : result PyDecimal.decimal :=
  match l with
  | [] => Raise ValueError
  | x :: l' =>
      foldl (λ (acc : result PyDecimal.decimal) (y : PyDecimal.decimal),
               m ← acc;
               b ← (if is_min then PyDecimal.lt y m else PyDecimal.lt m y);
               Ok (if b : bool then y else m)) (Ok x) l'
  end.

(** [Values.add(x)] with [eqb] as [==]. *)
Definition set_add {A} (eqb : A → A → bool) (Values : list A) (x : A)
  : list A :=
  if existsb (eqb x) Values then Values else Values ++ [x].

(** [Values.add(Decimal(Value))]; a signaling NaN cannot be hashed. *)
Definition decimal_item (Value : string) : result PyDecimal.decimal :=
  d ← PyDecimal.of_string Value;
  match d with
  | PyDecimal.DNaN _ true _ => Raise TypeError
  | _ => Ok d
  end.

(** The branch of [MergeEvents] for the strategies [min] and [max]:
    the value that replaces the objects of the property, if any. *)
Definition merge_min_max (is_min : bool) (SplitDataType : list string)
    (PropertyName : string) (Source Target : gmap string (gset string))
  : result (option string) :=
  dt0 ← index SplitDataType 0;
  if elem dt0 ["number"; "timestamp"] then
    if String.eqb dt0 "timestamp" then
      src ← getitem Source PropertyName;
      tgt ← getitem Target PropertyName;
      m ← best (if is_min then String.ltb else flip String.ltb)
            (elements (src ∪ tgt));
      v ← str_ m;
      Ok (Some v)
    else
      dt1 ← index SplitDataType 1;
      src ← getitem Source PropertyName;
      if elem dt1 ["float"; "double"] then
        xs ← map_result PyFloat.of_string (elements src);
        tgt ← getitem Target PropertyName;
        ys ← map_result PyFloat.of_string (elements tgt);
        m ← best (if is_min then PyFloat.ltb else flip PyFloat.ltb)
              (foldl (set_add PyFloat.eqb) [] (xs ++ ys));
        Ok (Some (PyFloat.str m))
      else if String.eqb dt1 "decimal" then
        xs ← map_result decimal_item (elements src);
        tgt ← getitem Target PropertyName;
        ys ← map_result decimal_item (elements tgt);
        m ← best_decimal is_min
              (foldl (set_add PyDecimal.eqb) [] (xs ++ ys));
        Ok (Some (PyDecimal.str m))
      else
        xs ← map_result Py.int (elements src);
        tgt ← getitem Target PropertyName;
        ys ← map_result Py.int (elements tgt);
        m ← best (if is_min then Z.ltb else flip Z.ltb) (xs ++ ys);
        Ok (Some (Py.str_int m))
  else Ok None.

(** The body of the loop [for PropertyName in Source]. *)
Definition merge_property (self : Definitions) (EventTypeName : string)
    (Source Target : gmap string (gset string)) (PropertyName : string)
  : result (gmap string (gset string)) :=
  et ← getitem (EventTypes self) EventTypeName;
  if bool_decide (PropertyName ∈ unique_properties et) then Ok Target
  else
    attrs ← getitem (properties et) PropertyName;
    MergeStrategy ← getitem attrs "merge";
    if elem MergeStrategy ["min"; "max"] then
      ot ← GetPropertyObjectType self EventTypeName PropertyName;
      dt ← GetObjectTypeDataType self ot;
      r ← merge_min_max (String.eqb MergeStrategy "min")
            (Py.split ":" dt) PropertyName Source Target;
      match r with
      | Some v => Ok (<[PropertyName := {[v]}]> Target)
      | None => Ok Target
      end
    else if String.eqb MergeStrategy "add" then
      src ← getitem Source PropertyName;
      tgt ← getitem Target PropertyName;
      Ok (<[PropertyName := src ∪ tgt]> Target)
    else if String.eqb MergeStrategy "replace" then
      src ← getitem Source PropertyName;
      Ok (<[PropertyName := src]> Target)
    else Ok Target.

Fixpoint merge_loop (self : Definitions) (EventTypeName : string)
    (Source : gmap string (gset string)) (keys : list string)
    (Target : gmap string (gset string))
  : result (gmap string (gset string)) :=
  match keys with
  | [] => Ok Target
  | PropertyName :: keys' =>
      Target' ← merge_property self EventTypeName Source Target
                  PropertyName;
      merge_loop self EventTypeName Source keys' Target'
  end.

(** The loop under "Remove any objects due to replace strategy". *)
Fixpoint remove_loop (self : Definitions) (EventTypeName : string)
    (names : list string) (Target : gmap string (gset string))
  : result (gmap string (gset string)) :=
  match names with
  | [] => Ok Target
  | PropertyName :: names' =>
      et ← getitem (EventTypes self) EventTypeName;
      attrs ← getitem (properties et) PropertyName;
      merge ← getitem attrs "merge";
      remove_loop self EventTypeName names'
        (if String.eqb merge "replace" then <[PropertyName := ∅]> Target
         else Target)
  end.

(** The loop under "Determine if anything changed". *)
Fixpoint event_updated (names : list string)
    (Original Target : gmap string (gset string)) : result bool :=
  match names with
  | [] => Ok false
  | PropertyName :: names' =>
      fresh ←
        (if bool_decide (PropertyName ∈ dom Original) then Ok false
         else t ← getitem Target PropertyName; Ok (0 <? size t)%nat);
      if fresh : bool then Ok true
      else
        t ← getitem Target PropertyName;
        o ← getitem Original PropertyName;
        if bool_decide (t ≠ o) then Ok true
        else event_updated names' Original Target
  end.

(** [MergeEvents] on the two dicts: the new contents of
    [EventObjectsA] when it has to be rewritten. *)
Definition merge_objects (self : Definitions) (EventTypeName : string)
    (EventObjectsA EventObjectsB : objects) : result (option objects) :=
  et ← getitem (EventTypes self) EventTypeName;
  if negb (unique et) then
    Error ("MergeEvent was called for event type " +:+ EventTypeName
             +:+ ", which is not a unique event type.")
  else
    names ← GetEventTypeProperties self EventTypeName;
    let Original := value_sets names EventObjectsA in
    let Source := value_sets names EventObjectsB in
    Target ← merge_loop self EventTypeName Source (elements (dom Source))
               (value_sets names EventObjectsA);
    Target ← remove_loop self EventTypeName
               (List.filter
                  (λ Property,
                     negb (bool_decide (Property ∈ dom Source))
                     && bool_decide (Property ∈ dom Target)) names)
               Target;
    EventUpdated ← event_updated names Original Target;
    if EventUpdated : bool then Ok (Some (elements <$> Target))
    else Ok None.

(** [MergeEvents(EventTypeName, EventObjectsA, EventObjectsB)], the two
    dicts being the objects at [a] and [b] in the store.  Both are read
    before anything is written; the only writes go through
    [EventObjectsA.clear()] and [EventObjectsA[PropertyName] = []]
    followed by [append], on lists made by the call.  When an exception
    is raised the store has not been written. *)
Definition MergeEvents (self : Definitions) (EventTypeName : string)
    (a b : nat) (h : store) : result (bool * store) :=
  r ← merge_objects self EventTypeName (h a) (h b);
  match r with
  | Some A' => Ok (true, store_set h a A')
  | None => Ok (false, h)
  end.

(** *** Sticky hashes *)

(** [sorted(ObjectStrings)] *)
Definition sorted (ObjectStrings : gset string) : list string :=
  merge_sort String.le (elements ObjectStrings).

(** The body of the loop [for EventObject in EventObjects]; an event
    object is the pair of its ['property'] and its ['value']. *)
Definition hash_object (self : Definitions) (EventTypeName : string)
    (ObjectStrings : gset string) (EventObject : string * string)
  : result (gset string) :=
  let '(Property, Value) := EventObject in
  et ← getitem (EventTypes self) EventTypeName;
  if unique et && negb (bool_decide (Property ∈ unique_properties et))
  then Ok ObjectStrings
  else
    ObjectType ← GetPropertyObjectType self EventTypeName Property;
    dt ← GetObjectTypeDataType self ObjectType;
    let DataType := Py.split ":" dt in
    dt0 ← index DataType 0;
    float ← (if String.eqb dt0 "number" then
               dt1 ← index DataType 1;
               Ok (elem dt1 ["float"; "double"])
             else Ok false);
    if float : bool then Ok ObjectStrings
    else
      NormalizedValue ←
        match NormalizeObject Value DataType with
        | Raise (EDXMLError Except) =>
            (* the message of [Except] is a byte string that [%]
               decodes as ASCII *)
            if is_ascii Except then
              Error ("Invalid value in property " +:+ Property
                       +:+ " of event type " +:+ EventTypeName +:+ ": '"
                       +:+ Value +:+ "': " +:+ Except)
            else Raise UnicodeError
        | r => r
        end;
      Ok ({[Property +:+ ":" +:+ NormalizedValue]} ∪ ObjectStrings).

Fixpoint object_strings (self : Definitions) (EventTypeName : string)
    (EventObjects : list (string * string)) (ObjectStrings : gset string)
  : result (gset string) :=
  match EventObjects with
  | [] => Ok ObjectStrings
  | EventObject :: rest =>
      s ← hash_object self EventTypeName ObjectStrings EventObject;
      object_strings self EventTypeName rest s
  end.

(** [ComputeStickyHash(EventTypeName, EventObjects, EventContent)] *)
Definition ComputeStickyHash (self : Definitions) (EventTypeName : string)
    (EventObjects : list (string * string)) (EventContent : string)
  : result string :=
  ObjectStrings ← object_strings self EventTypeName EventObjects ∅;
  et ← getitem (EventTypes self) EventTypeName;
  if unique et then
    Ok (sha1_utf8 (EventTypeName +:+ nl
                     +:+ Py.join nl (sorted ObjectStrings)))
  else
    Ok (sha1_utf8 (EventTypeName +:+ nl
                     +:+ Py.join nl (sorted ObjectStrings)
                     +:+ nl +:+ EventContent)).

(** [ComputeStickyHashV3(EventTypeName, SourceUrl, EventObjects,
    EventContent)] *)
Definition ComputeStickyHashV3 (self : Definitions)
    (EventTypeName SourceUrl : string)
    (EventObjects : list (string * string)) (EventContent : string)
  : result string :=
  ObjectStrings ← object_strings self EventTypeName EventObjects ∅;
  et ← getitem (EventTypes self) EventTypeName;
  if unique et then
    Ok (sha1_utf8 (SourceUrl +:+ nl +:+ EventTypeName +:+ nl
                     +:+ Py.join nl (sorted ObjectStrings)))
  else
    Ok (sha1_utf8 (SourceUrl +:+ nl +:+ EventTypeName +:+ nl
                     +:+ Py.join nl (sorted ObjectStrings)
                     +:+ nl +:+ EventContent)).

End EDXMLDefinitions.


(** ** The specification's vocabulary *)

Module Spec.
Import EDXMLDefinitions.

(** The objects of property [p] in an event, as a set (absent: empty). *)
Definition value_set (o : gmap string (list string)) (p : string)
  : gset string :=
  list_to_set (default [] (o !! p)).

(** The data type descriptor of the object type of property [p]. *)
Definition data_type_of (self : Definitions) (et : EventType)
    (p dt : string) : Prop :=
  ∃ attrs ot ota,
    properties et !! p = Some attrs ∧ attrs !! "object-type" = Some ot
    ∧ ObjectTypes self !! ot = Some ota ∧ ota !! "data-type" = Some dt.

(** The descriptor is [number:float] or [number:double], with or without
    further fields. *)
Definition float_type (dt : string) : Prop :=
  ∃ dt1 rest, Py.split ":" dt = "number" :: dt1 :: rest
              ∧ (dt1 = "float" ∨ dt1 = "double").

(** The descriptor is well formed and is not a floating point type. *)
Definition exact_type (dt : string) : Prop :=
  ∃ dt0 rest, Py.split ":" dt = dt0 :: rest
    ∧ (dt0 ≠ "number"
       ∨ ∃ dt1 rest', rest = dt1 :: rest' ∧ dt1 ≠ "float" ∧ dt1 ≠ "double").

(** Step 1 of the hash procedure, for one (property, value) pair of an
    event of type [et]: the pair is skipped ([None]) or contributes the
    string [property:normalized_value]. *)
Inductive outcome (self : Definitions) (et : EventType)
  : string * string → option string → Prop :=
  | skip_non_unique p v :
      unique et = true → p ∉ unique_properties et →
      outcome self et (p, v) None
  | skip_float p v dt :
      unique et = false ∨ p ∈ unique_properties et →
      data_type_of self et p dt → float_type dt →
      outcome self et (p, v) None
  | keep p v dt nv :
      unique et = false ∨ p ∈ unique_properties et →
      data_type_of self et p dt → exact_type dt →
      NormalizeObject v (Py.split ":" dt) = Ok nv →
      outcome self et (p, v) (Some (p +:+ ":" +:+ nv)).

(** The property is declared with a floating point object type. *)
Definition float_property (self : Definitions) (et : EventType)
    (p : string) : Prop :=
  ∃ dt, data_type_of self et p dt ∧ float_type dt.

(** Two events differ at most in the order of their pairs, in repeated
    pairs and in the objects of floating point properties. *)
Definition same_up_to_floats (self : Definitions) (et : EventType)
    (l1 l2 : list (string * string)) : Prop :=
  (∀ o, o ∈ l1 → o ∈ l2 ∨ float_property self et o.1)
  ∧ (∀ o, o ∈ l2 → o ∈ l1 ∨ float_property self et o.1).

(** The preimages of the two hash variants. *)
Definition preimage (et : EventType) (EventTypeName : string)
    (S : list string) (content : string) : string :=
  if unique et then EventTypeName +:+ nl +:+ Py.join nl S
  else EventTypeName +:+ nl +:+ Py.join nl S +:+ nl +:+ content.

Definition preimage_v3 (et : EventType) (SourceUrl EventTypeName : string)
    (S : list string) (content : string) : string :=
  SourceUrl +:+ nl +:+ preimage et EventTypeName S content.

(** Attribute [k] of entity kind [Entity] is optional and [v] is its
    documented default. *)
Definition optional_default (Entity k v : string) : Prop :=
  ∃ spec, attribute_spec Entity k = Ok spec
          ∧ mandatory spec = false ∧ default_ spec = Some v.

(** Every character of the string satisfies [p]. *)
Fixpoint all_chars (p : ascii → bool) (s : string) : bool :=
  match s with
  | EmptyString => true
  | String c s' => p c && all_chars p s'
  end.

(** The descriptor does not lead [NormalizeObject] through a floating
    point conversion. *)
Definition exact_descriptor (DataType : list string) : bool :=
  match DataType with
  | dt0 :: rest =>
      negb (String.eqb dt0 "timestamp")
      && (negb (String.eqb dt0 "number")
          || match rest with
             | dt1 :: _ => elem dt1 int_types
             | [] => false
             end)
  | [] => false
  end.

Definition plain_char (c : ascii) : bool :=
  Py.isdigit c || Ascii.eqb c "-".

(** A lower-case hexadecimal digit. *)
Definition lower_hex (c : ascii) : bool :=
  Re.range "0" "9" c || Re.range "a" "f" c.

(** The property is registered with a merge strategy of the list. *)
Definition merge_in (attrs : gmap string string) (l : list string) : Prop :=
  ∃ m, attrs !! "merge" = Some m ∧ m ∈ l.

(** What the derived sets of an event type say about its properties. *)
Record derived_sets (et : EventType) : Prop := {
  unique_flag : unique et = true ↔ unique_properties et ≠ ∅;
  unique_iff p :
    p ∈ unique_properties et
    ↔ ∃ attrs u, properties et !! p = Some attrs
                 ∧ attrs !! "unique" = Some u ∧ Py.lower u = "true";
  mandatory_iff p :
    p ∈ mandatory_properties et
    ↔ ∃ attrs, properties et !! p = Some attrs
               ∧ merge_in attrs ["match"; "min"; "max"];
  singleton_if p attrs :
    properties et !! p = Some attrs →
    merge_in attrs ["match"; "replace"; "min"; "max"] →
    p ∈ singleton_properties et;
  singleton_only_if p :
    p ∈ singleton_properties et →
    ∃ attrs, properties et !! p = Some attrs
             ∧ (merge_in attrs ["match"; "replace"; "min"; "max"]
                ∨ is_Some (attrs !! "merge") ∧ p ∈ dom (parentmapping et)) }.

(** The registries that the registration functions build. *)
Inductive reachable : Definitions → Prop :=
  | reach_init : reachable init
  | reach_event_type self name attrs self' :
      reachable self → AddEventType name attrs self = Ok self' →
      reachable self'
  | reach_parent self name attrs self' :
      reachable self → SetEventTypeParent name attrs self = Ok self' →
      reachable self'
  | reach_property self name p attrs self' :
      reachable self → AddProperty name p attrs self = Ok self' →
      reachable self'.

(** Every property is unique or has a merge strategy other than [min]
    and [max]. *)
Definition simple_strategies (et : EventType) (names : list string) : Prop :=
  ∀ p, p ∈ names →
       p ∈ unique_properties et
       ∨ ∃ attrs m, properties et !! p = Some attrs
                    ∧ attrs !! "merge" = Some m
                    ∧ elem m ["min"; "max"] = false.

(** The set S after a pair with outcome [r]. *)
Definition add_outcome (r : option string) (S : gset string) : gset string :=
  match r with Some s => {[s]} ∪ S | None => S end.

(** The exception raised when an event type that is not unique is
    merged. *)
Definition unsupported_operation (EventTypeName : string) : exn :=
  EDXMLError ("ERROR: MergeEvent was called for event type "
                +:+ EventTypeName +:+ ", which is not a unique event type.").

Definition merge_error (e : exn) : Prop :=
  ∃ EventTypeName, e = unsupported_operation EventTypeName.

(** The call does not raise that exception. *)
Definition clean {A} (r : result A) : Prop :=
  ∀ e, r = Raise e → ¬ merge_error e.

End Spec.

(** ** Concrete registries and events *)

Module Examples.
Import EDXMLDefinitions.

Definition registered (r : result Definitions) : Definitions :=
  match r with Ok self => self | Raise _ => init end.

Definition eventtype_attrs (name : string) : gmap string string :=
  list_to_map [("name", name); ("description", "an event");
               ("classlist", "test"); ("reporter-short", "short");
               ("reporter-long", "long")].

Definition property_attrs (name ot : string) (more : list (string * string))
  : gmap string string :=
  list_to_map ([("name", name); ("description", "a property");
                ("object-type", ot)] ++ more).

Definition objecttype_attrs (name dt : string) : gmap string string :=
  list_to_map [("name", name); ("description", "an object type");
               ("data-type", dt)].

Definition object_types : gmap string (gmap string string) :=
  list_to_map [("text", objecttype_attrs "text" "string:0:cs");
               ("count", objecttype_attrs "count" "number:int");
               ("time", objecttype_attrs "time" "timestamp");
               ("ratio", objecttype_attrs "ratio" "number:float");
               ("code", objecttype_attrs "code" "number:hex:2")].

(** Scenario S4: properties a (add), m (min, number:int), r (replace) and
    the unique property u. *)
Definition S4_registry : Definitions :=
  registered
    (s ← AddEventType "e" (eventtype_attrs "e") init;
     s ← AddProperty "e" "a" (property_attrs "a" "text" [("merge", "add")]) s;
     s ← AddProperty "e" "m" (property_attrs "m" "count" [("merge", "min")]) s;
     s ← AddProperty "e" "r"
           (property_attrs "r" "text" [("merge", "replace")]) s;
     s ← AddProperty "e" "u" (property_attrs "u" "text" [("unique", "true")]) s;
     Ok (set_ObjectTypes object_types s)).

Definition S4_A : gmap string (list string) :=
  list_to_map [("a", ["x"]); ("m", ["5"]); ("r", ["old"]); ("u", ["k"])].
Definition S4_B : gmap string (list string) :=
  list_to_map [("a", ["y"]); ("m", ["3"]); ("r", ["new"]); ("u", ["k"])].
Definition S4_A' : gmap string (list string) :=
  list_to_map [("a", ["y"; "x"]); ("m", ["3"]); ("r", ["new"]);
               ("u", ["k"])].

(** A store holding [A] at address 0 and [B] at address 1. *)
Definition two_events (A B : gmap string (list string)) : store :=
  λ l, match l with O => A | 1%nat => B | _ => ∅ end.

(** An event type whose property t (timestamp) merges by [min] or
    [max] and whose property f (number:float) merges by [min]. *)
Definition timed_registry (strategy : string) : Definitions :=
  registered
    (s ← AddEventType "e" (eventtype_attrs "e") init;
     s ← AddProperty "e" "u" (property_attrs "u" "text" [("unique", "true")]) s;
     s ← AddProperty "e" "t"
           (property_attrs "t" "time" [("merge", strategy)]) s;
     s ← AddProperty "e" "f"
           (property_attrs "f" "ratio" [("merge", "min")]) s;
     Ok (set_ObjectTypes object_types s)).

Definition timed_A : gmap string (list string) :=
  list_to_map [("u", ["k"]); ("t", ["9.000000"]); ("f", ["2.500000"])].
Definition timed_B : gmap string (list string) :=
  list_to_map [("u", ["k"]); ("t", ["10.000000"]); ("f", ["1.500000"])].


(** An event type without unique properties. *)
Definition plain_registry : Definitions :=
  registered
    (s ← AddEventType "e" (eventtype_attrs "e") init;
     s ← AddProperty "e" "p" (property_attrs "p" "text" []) s;
     Ok (set_ObjectTypes object_types s)).

(** An event type with a parent whose property map names property p,
    registered before p itself. *)
Definition parent_attrs : gmap string string :=
  list_to_map [("eventtype", "root"); ("propertymap", "p:q")].

(** An event type without unique properties that has a floating point
    property. *)
Definition measure_registry : Definitions :=
  registered
    (s ← AddEventType "e" (eventtype_attrs "e") init;
     s ← AddProperty "e" "p" (property_attrs "p" "text" []) s;
     s ← AddProperty "e" "f" (property_attrs "f" "ratio" []) s;
     Ok (set_ObjectTypes object_types s)).

(** The entry of event type e. *)
Definition eventtype_e (self : Definitions) : EventType :=
  default (mkEventType ∅ ∅ ∅ ∅ ∅ ∅ ∅ ∅ false None) (EventTypes self !! "e").

Definition child_registry (more : list (string * string))
  : result Definitions :=
  s ← AddEventType "e" (eventtype_attrs "e") init;
  s ← SetEventTypeParent "e" parent_attrs s;
  AddProperty "e" "p" (property_attrs "p" "text" more) s.

End Examples.

(** ** Further exceptions

    [ValidateDataType] can divide by zero and [AddNewObjectType] can look
    up a name that is not defined; [exception] adds the two exceptions to
    those of [exn], and [answer] is the result of a call that can raise
    them. *)

Inductive exception : Type :=
  | Builtin (e : exn)
  | ZeroDivisionError
  | NameError.

Inductive answer (A : Type) : Type :=
  | Return (a : A)
  | Throw (e : exception).
Arguments Return {A} a.
Arguments Throw {A} e.

Definition answer_bind {A B} (f : A → answer B) (r : answer A) : answer B :=
  match r with
  | Return a => f a
  | Throw e => Throw e
  end.

#[global] Instance answer_mbind : MBind answer := @answer_bind.
#[global] Instance answer_mret : MRet answer := @Return.

Definition lift {A} (r : result A) : answer A :=
  match r with
  | Ok a => Return a
  | Raise e => Throw (Builtin e)
  end.

(** ** [EDXMLBase.ValidateDataType] *)

Module DataTypes.
Import EDXMLDefinitions.

Definition number_types : list string :=
  ["tinyint"; "smallint"; "mediumint"; "int"; "bigint"; "float"; "double"].

Definition unsupported {A} (ObjectType DataType : string) : answer A :=
  lift (Error ("EDXMLBase::ValidateDataType: Object type " +:+ ObjectType
                 +:+ " has an unsupported data type: " +:+ DataType)).

Definition ValidateDataType (ObjectType DataType : string) : answer unit :=
  let SplitDataType := Py.split ":" DataType in
  let len := length SplitDataType in
  let unsupported := unsupported ObjectType DataType in
  dt0 ← lift (index SplitDataType 0);
  if String.eqb dt0 "enum" then
    if (1 <? len)%nat then Return () else unsupported
  else if String.eqb dt0 "timestamp" then
    if (len =? 1)%nat then Return () else unsupported
  else if String.eqb dt0 "ip" then
    if (len =? 1)%nat then Return () else unsupported
  else if String.eqb dt0 "hashlink" then
    if (len =? 1)%nat then Return () else unsupported
  else if String.eqb dt0 "boolean" then
    if (len =? 1)%nat then Return () else unsupported
  else if String.eqb dt0 "geo" then
    if (len =? 2)%nat then
      dt1 ← lift (index SplitDataType 1);
      if String.eqb dt1 "point" then Return () else unsupported
    else unsupported
  else if String.eqb dt0 "number" then
    if (2 <=? len)%nat then
      dt1 ← lift (index SplitDataType 1);
      if elem dt1 number_types then
        if (len =? 3)%nat then
          if String.eqb dt1 "unsigned" then Return () else unsupported
        else Return ()
      else if String.eqb dt1 "decimal" then
        if (4 <=? len)%nat then
          dt2 ← lift (index SplitDataType 2);
          dt3 ← lift (index SplitDataType 3);
          match Py.int dt2, Py.int dt3 with
          | Ok digits, Ok scale =>
              if digits <? scale then
                lift (Error ("Invalid Decimal: " +:+ DataType))
              else if (4 <? len)%nat then
                if (len =? 5)%nat then
                  dt4 ← lift (index SplitDataType 4);
                  if String.eqb dt4 "signed" then Return () else unsupported
                else unsupported
              else Return ()
          | _, _ => unsupported
          end
        else unsupported
      else if String.eqb dt1 "hex" then
        if (3 <? len)%nat then
          dt2 ← lift (index SplitDataType 2);
          dt3 ← lift (index SplitDataType 3);
          match Py.int dt2, Py.int dt3 with
          | Ok HexLength, Ok DigitGroupLength =>
              if DigitGroupLength =? 0 then Throw ZeroDivisionError
              else if negb (HexLength mod DigitGroupLength =? 0) then
                lift (Error ("Length of hex datatype is not a multiple of separator distance: "
                               +:+ DataType))
              else
                dt4 ← lift (index SplitDataType 4);
                if (String.length dt4 =? 0)%nat && (len =? 6)%nat
                then Return () else unsupported
          | _, _ => unsupported
          end
        else Return ()
      else unsupported
    else unsupported
  else if String.eqb dt0 "string" then
    if Re.match_ StringDataTypePattern DataType then Return ()
    else unsupported
  else if String.eqb dt0 "binstring" then
    if Re.match_ BinstringDataTypePattern DataType then Return ()
    else unsupported
  else unsupported.

End DataTypes.

(** ** [EDXMLDefinitions]: queries, checks, object types and relations *)

Module Registry.
Import EDXMLDefinitions DataTypes.

(** [re.findall] of the placeholder pattern (two opening brackets, a
    group of characters other than the closing bracket, two closing
    brackets): the groups of the matches, found from left to right
    without overlap.  After the opening brackets the group takes every
    character up to the next closing bracket, and the match needs two
    closing brackets there. *)
Definition placeholder_here (s : string) : option (string * string) :=
  match s with
  | String "[" (String "[" s1) =>
      let '(group, t) := PyNum.span (λ c, negb (Ascii.eqb c "]")) s1 in
      match t with
      | String "]" (String "]" rest) => Some (group, rest)
      | _ => None
      end
  | _ => None
  end.

Fixpoint findall_placeholders (fuel : nat) (s : string) : list string :=
  match fuel with
  | O => []
  | S fuel' =>
      match placeholder_here s with
      | Some (group, rest) => group :: findall_placeholders fuel' rest
      | None =>
          match s with
          | EmptyString => []
          | String _ s' => findall_placeholders fuel' s'
          end
      end
  end.

Definition placeholders (s : string) : list string :=
  findall_placeholders (S (String.length s)) s.

(** *** Queries *)

Definition EventTypeDefined (self : Definitions) (EventTypeName : string)
  : bool :=
  bool_decide (EventTypeName ∈ dom (EventTypes self)).

(** [PropertyDefined(EventTypeName, PropertyName)];
    [CheckEventTypeRelations] can pass [None] for the name. *)
Definition PropertyDefined (self : Definitions) (EventTypeName : string)
    (PropertyName : option string) : result bool :=
  et ← getitem (EventTypes self) EventTypeName;
  Ok (match PropertyName with
      | Some p => bool_decide (p ∈ dom (properties et))
      | None => false
      end).

Definition ObjectTypeDefined (self : Definitions) (ObjectTypeName : string)
  : bool :=
  bool_decide (ObjectTypeName ∈ dom (ObjectTypes self)).

Definition RelationDefined (self : Definitions)
    (EventTypeName Property1Name Property2Name : string) : result bool :=
  let RelationId := Property1Name +:+ " -> " +:+ Property2Name in
  et ← getitem (EventTypes self) EventTypeName;
  Ok (bool_decide (RelationId ∈ dom (relations et))).

Definition PropertyDefinesEntity (self : Definitions)
    (EventTypeName PropertyName : string) : result bool :=
  entities ← getitem (EntityProperties self) EventTypeName;
  Ok (bool_decide (PropertyName ∈ entities)).

Definition PropertyInRelation (self : Definitions)
    (EventTypeName PropertyName : string) : result bool :=
  et ← getitem (EventTypes self) EventTypeName;
  Ok (bool_decide (PropertyName ∈ related_properties et)).

Definition GetEventTypeNames (self : Definitions) : list string :=
  EventTypeNames self.

Definition GetEventTypeParent (self : Definitions) (EventTypeName : string)
  : result (gmap string string) :=
  et ← getitem (EventTypes self) EventTypeName;
  match parent et with
  | Some attrs => Ok attrs
  | None => Ok ∅
  end.

Definition GetEventTypeParentMapping (self : Definitions)
    (EventTypeName : string) : result (gmap string string) :=
  et ← getitem (EventTypes self) EventTypeName;
  match parent et with
  | Some _ => Ok (parentmapping et)
  | None => Ok ∅
  end.

Definition GetEventTypesHavingObjectType (self : Definitions)
    (ObjectTypeName : string) : list string :=
  match ObjectTypeEventTypes self !! ObjectTypeName with
  | None => []
  | Some names => elements names
  end.

Definition GetEventTypeNamesInClass (self : Definitions) (ClassName : string)
  : result (list string) :=
  names ← getitem (EventTypeClasses self) ClassName;
  Ok (elements names).

Definition GetEventTypePropertyRelations (self : Definitions)
    (EventTypeName : string) : result (list string) :=
  getitem (PropertyRelations self) EventTypeName.

Definition ObjectTypeRequiresUnicode (self : Definitions)
    (ObjectTypeName : string) : result bool :=
  attrs ← getitem (ObjectTypes self) ObjectTypeName;
  dt ← getitem attrs "data-type";
  let ObjectDataType := Py.split ":" dt in
  if (length ObjectDataType <? 4)%nat then Ok false
  else
    dt3 ← index ObjectDataType 3;
    Ok (contains_char "u" dt3).

(** *** Checks of a complete set of definitions *)

Definition CheckPropertyObjectTypes (self : Definitions) : result unit :=
  for_each
    (λ ObjectTypeName,
       if negb (ObjectTypeDefined self ObjectTypeName) then
         Error ("Objecttype " +:+ ObjectTypeName
                  +:+ " was used in a property definition, but it was not defined.")
       else Ok ())
    (elements (RequiredObjectTypes self)).

Definition CheckEventTypePropertyConsistency (self : Definitions)
    (EventTypeName : string) (PropertyNames : list string) : result unit :=
  for_each
    (λ PropertyName,
       defined ← PropertyDefined self EventTypeName (Some PropertyName);
       if negb defined then
         Error ("Property " +:+ PropertyName
                  +:+ " was previously defined as part of eventtype "
                  +:+ EventTypeName
                  +:+ ", but this definition does not define it.")
       else Ok ())
    PropertyNames.

(** [%s] of a value that is a string or [None]. *)
Definition show (v : option string) : string := default "None" v.

(** [v in l] for a value that is a string or [None]. *)
Definition is_in (v : option string) (l : list string) : bool :=
  match v with
  | Some s => elem s l
  | None => false
  end.

Definition check_relation (self : Definitions) (EventTypeName : string)
    (relation : string * gmap string string)
  : result unit :=
  let '(RelationId, attrs) := relation in
  let PropertyA := attrs !! "property1" in
  let PropertyB := attrs !! "property2" in
  match attrs !! "description" with
  | None => Raise TypeError
  | Some Description =>
      let Placeholders := placeholders Description in
      let missing (Property : option string) : result unit :=
        Error ("Event type " +:+ EventTypeName +:+ " defines relation "
                 +:+ RelationId
                 +:+ " which does not have one of its properties ("
                 +:+ show Property +:+ ") in the description.") in
      let undefined (Property : option string) : result unit :=
        Error ("Event type " +:+ EventTypeName +:+ " defines relation "
                 +:+ RelationId +:+ " which refers to property "
                 +:+ show Property
                 +:+ ", which does not exist in this event type.") in
      _ ← (if negb (is_in PropertyA Placeholders) then missing PropertyA
           else Ok ());
      _ ← (if negb (is_in PropertyB Placeholders) then missing PropertyB
           else Ok ());
      a ← PropertyDefined self EventTypeName PropertyA;
      _ ← (if negb a then undefined PropertyA else Ok ());
      b ← PropertyDefined self EventTypeName PropertyB;
      if negb b then undefined PropertyB else Ok ()
  end.

Definition CheckEventTypeRelations (self : Definitions)
    (EventTypeName : string) : result unit :=
  et ← getitem (EventTypes self) EventTypeName;
  for_each (check_relation self EventTypeName)
    (map_to_list (relations et)).

Definition check_mapping (self : Definitions) (EventTypeName : string)
    (et pet : EventType) (mapping : string * string) : result unit :=
  let '(ChildProperty, ParentProperty) := mapping in
  attrs ← getitem (properties et) ChildProperty;
  ChildMergeStrategy ← getitem attrs "merge";
  _ ← (if negb (bool_decide (ChildProperty ∈ dom (properties et))) then
         Error ("Event type " +:+ EventTypeName
                  +:+ " contains a parent definition which refers to unknown child property '"
                  +:+ ChildProperty +:+ "'.")
       else Ok ());
  _ ← (if negb (String.eqb ChildMergeStrategy "match")
          && negb (String.eqb ChildMergeStrategy "drop") then
         Error ("Event type " +:+ EventTypeName
                  +:+ " contains a parent definition which refers to child property '"
                  +:+ ChildProperty +:+ "'. This property has merge strategy "
                  +:+ ChildMergeStrategy
                  +:+ ", which is not allowed for properties that are used in parent definitions.")
       else Ok ());
  if negb (bool_decide (ParentProperty ∈ unique_properties pet)) then
    Error ("Event type " +:+ EventTypeName
             +:+ " contains a parent definition which refers to parent property '"
             +:+ ParentProperty
             +:+ "', but this property is not unique, or is does not exist.")
  else Ok ().

Definition CheckEventTypeParents (self : Definitions) (EventTypeName : string)
  : result unit :=
  et ← getitem (EventTypes self) EventTypeName;
  match parent et with
  | None => Ok ()
  | Some ParentAttribs =>
      ParentName ← getitem ParentAttribs "eventtype";
      _ ← (if negb (EventTypeDefined self ParentName) then
             Error ("Event type " +:+ EventTypeName
                      +:+ " contains a parent definition which refers to event type "
                      +:+ ParentName +:+ " which is not defined.")
           else Ok ());
      pet ← getitem (EventTypes self) ParentName;
      _ ← for_each
            (λ UniqueParentProperty,
               if negb (elem UniqueParentProperty
                          (snd <$> map_to_list (parentmapping et))) then
                 Error ("Event type " +:+ EventTypeName
                          +:+ " contains a parent definition which lacks a mapping for unique parent property '"
                          +:+ UniqueParentProperty +:+ "'.")
               else Ok ())
            (elements (unique_properties pet));
      for_each (check_mapping self EventTypeName et pet)
        (map_to_list (parentmapping et))
  end.

(** *** Object types and relations *)

(** The attributes of [self] beside those of [Definitions]. *)
Record Registry : Type := mkRegistry {
  defs : Definitions;
  RelationPredicates : gset string;
  CompiledObjectTypePatterns : gmap string string;
  ObjectTypeNames : list string }.

Definition empty : Registry := mkRegistry init ∅ ∅ [].

Definition set_defs (d : Definitions) (self : Registry) : Registry :=
  mkRegistry d (RelationPredicates self) (CompiledObjectTypePatterns self)
    (ObjectTypeNames self).

Section object_types.

(** Whether [re.compile] accepts a pattern. *)
Variable compiles : string → bool.

(** [AddNewObjectType(ObjectTypeName, Attributes)].  The handler of the
    [try] names [sre_constants], which the module does not import: when
    [re.compile] raises, looking up the handler's exception raises
    [NameError]. *)
Definition AddNewObjectType (ObjectTypeName : string)
    (Attributes : gmap string string) (self : Registry) : answer Registry :=
  _ ← lift (ValidateEdxmlEntityAttributes "objecttype" Attributes);
  dt ← lift (getitem Attributes "data-type");
  _ ← ValidateDataType ObjectTypeName dt;
  patterns ←
    match Attributes !! "regexp" with
    | Some regexp =>
        if negb (String.eqb regexp "[\s\S]*") then
          let anchored := "^" +:+ regexp +:+ "$" in
          if compiles anchored then
            Return (<[ObjectTypeName := anchored]>
                      (CompiledObjectTypePatterns self))
          else Throw NameError
        else Return (CompiledObjectTypePatterns self)
    | None => Return (CompiledObjectTypePatterns self)
    end;
  Return (mkRegistry
            (set_ObjectTypes
               (<[ObjectTypeName := Attributes]> (ObjectTypes (defs self)))
               (defs self))
            (RelationPredicates self) patterns
            (ObjectTypeNames self ++ [ObjectTypeName])).

(** [AddObjectType(ObjectTypeName, Attributes, WarnNotUsed)]; the
    warning goes to stderr. *)
Definition AddObjectType (ObjectTypeName : string)
    (Attributes : gmap string string) (self : Registry) : answer Registry :=
  match ObjectTypes (defs self) !! ObjectTypeName with
  | Some current =>
      _ ← lift (CheckEdxmlEntityConsistency "objecttype" ObjectTypeName
                  current Attributes);
      Return self
  | None => AddNewObjectType ObjectTypeName Attributes self
  end.

End object_types.

(** [AddNewRelation(EventTypeName, RelationId, Property1Name,
    Property2Name, Attributes)] *)
Definition AddNewRelation (EventTypeName RelationId
    Property1Name Property2Name : string)
    (Attributes : gmap string string) (self : Registry) : result Registry :=
  et ← getitem (EventTypes (defs self)) EventTypeName;
  ids ← getitem (PropertyRelations (defs self)) EventTypeName;
  _ ← ValidateEdxmlEntityAttributes "relation" Attributes;
  type ← getitem Attributes "type";
  let SplitEventType := Py.split ":" type in
  let predicates :=
    match SplitEventType with
    | [_; predicate] => {[predicate]} ∪ RelationPredicates self
    | _ => RelationPredicates self
    end in
  let d := defs self in
  Ok (mkRegistry
        (mkDefinitions
           (<[EventTypeName :=
                mkEventType (attributes et) (properties et)
                  (unique_properties et) (mandatory_properties et)
                  (singleton_properties et) (parentmapping et)
                  (<[RelationId := Attributes]> (relations et))
                  ({[Property2Name]} ∪ ({[Property1Name]}
                                         ∪ related_properties et))
                  (unique et) (parent et)]> (EventTypes d))
           (ObjectTypes d) (ObjectTypeEventTypes d) (EventTypeClasses d)
           (RequiredObjectTypes d) (EntityProperties d) (EventTypeNames d)
           (PropertyNames d)
           (<[EventTypeName := ids ++ [RelationId]]> (PropertyRelations d)))
        predicates (CompiledObjectTypePatterns self) (ObjectTypeNames self)).

(** [AddRelation(EventTypeName, Property1Name, Property2Name,
    Attributes)] *)
Definition AddRelation (EventTypeName Property1Name Property2Name : string)
    (Attributes : gmap string string) (self : Registry) : result Registry :=
  let RelationId := Property1Name +:+ " -> " +:+ Property2Name in
  et ← getitem (EventTypes (defs self)) EventTypeName;
  match relations et !! RelationId with
  | Some current =>
      _ ← CheckEdxmlEntityConsistency "relation" RelationId current
            Attributes;
      Ok self
  | None =>
      AddNewRelation EventTypeName RelationId Property1Name Property2Name
        Attributes self
  end.

(** [GetRelationPredicates()] *)
Definition GetRelationPredicates (self : Registry) : list string :=
  elements (RelationPredicates self).

(** [GetObjectTypeNames()] *)
Definition GetObjectTypeNames (self : Registry) : list string :=
  ObjectTypeNames self.

End Registry.

(** ** The event merger of [edxml-event-merger.py] *)

Module Merger.
Import EDXMLDefinitions.

(** [[Object['value'] for Object in EventObjects
      if Object['property'] == Property]] *)
Definition values_of (Property : string)
    (EventObjects : list (string * string)) : list string :=
  snd <$> List.filter (λ Object, String.eqb Object.1 Property) EventObjects.

(** The dict [EventProperties]: the objects of an event grouped by
    property. *)
Definition group (EventObjects : list (string * string)) : objects :=
  foldl (λ d Property, <[Property := values_of Property EventObjects]> d)
    ∅ (fst <$> EventObjects).

(** The list of objects rebuilt from a dict of the buffer. *)
Definition ungroup (Objects : objects) : list (string * string) :=
  flat_map (λ '(Property, Values), (λ Value, (Property, Value)) <$> Values)
    (map_to_list Objects).

(** A store that holds the buffered dict at address 0 and the dict of
    the current event at address 1; the two are distinct objects. *)
Definition cells (Objects EventProperties : objects) : store :=
  λ l, match l with O => Objects | _ => EventProperties end.

(** [EDXMLEventMerger.EditEvent]: the returned triple and the hash
    buffer after the call. *)
Definition EditEvent (self : Definitions) (HashBuffer : gmap string objects)
    (SourceId EventTypeName : string) (EventObjects : list (string * string))
    (EventContent : string) (EventAttributes : gmap string string)
  : result (list (string * string) * string * gmap string string
            * gmap string objects) :=
  Hash ← ComputeStickyHash self EventTypeName EventObjects EventContent;
  let EventProperties := group EventObjects in
  match HashBuffer !! Hash with
  | Some Objects =>
      r ← MergeEvents self EventTypeName 0 1 (cells Objects EventProperties);
      let Objects' := r.2 0%nat in
      Ok (ungroup Objects', EventContent, EventAttributes,
          <[Hash := Objects']> HashBuffer)
  | None =>
      Ok (EventObjects, EventContent, EventAttributes,
          <[Hash := EventProperties]> HashBuffer)
  end.

End Merger.

(** ** Vocabulary of the further properties *)

Module Laws.
Import EDXMLDefinitions DataTypes Registry Merger.

(** The string has no character [sep]. *)
Definition without (sep : ascii) (s : string) : bool :=
  Spec.all_chars (λ c, negb (Ascii.eqb c sep)) s.

(** The registries that successful registration calls build from an
    empty one.  A call that raises leaves no registry behind in this
    embedding. *)
Inductive built (compiles : string → bool) : Registry → Prop :=
  | built_empty : built compiles empty
  | built_event_type self name attrs d :
      built compiles self →
      AddEventType name attrs (defs self) = Ok d →
      built compiles (set_defs d self)
  | built_parent self name attrs d :
      built compiles self →
      SetEventTypeParent name attrs (defs self) = Ok d →
      built compiles (set_defs d self)
  | built_property self name p attrs d :
      built compiles self →
      AddProperty name p attrs (defs self) = Ok d →
      built compiles (set_defs d self)
  | built_object_type self name attrs self' :
      built compiles self →
      AddObjectType compiles name attrs self = Return self' →
      built compiles self'
  | built_relation self name p1 p2 attrs self' :
      built compiles self →
      AddRelation name p1 p2 attrs self = Ok self' →
      built compiles self'.

(** A list holds the keys of a dict, each once. *)
Definition lists {A} (names : list string) (d : gmap string A) : Prop :=
  NoDup names ∧ ∀ n, n ∈ names ↔ n ∈ dom d.

(** The objects of an event that belong to unique properties. *)
Definition unique_objects (et : EventType) (l : list (string * string))
  : list (string * string) :=
  List.filter (λ o, bool_decide (o.1 ∈ unique_properties et)) l.

(** The merge strategy a property is registered with. *)
Definition strategy (et : EventType) (p : string) : option string :=
  match properties et !! p with
  | Some attrs => attrs !! "merge"
  | None => None
  end.

(** The objects of property [p] after merging the objects [source] into
    the objects [target], for the strategies other than [min] and
    [max]. *)
Definition merged (et : EventType) (p : string) (source target : gset string)
  : gset string :=
  if bool_decide (p ∈ unique_properties et) then target
  else match strategy et p with
       | Some m =>
           if String.eqb m "add" then source ∪ target
           else if String.eqb m "replace" then source
           else target
       | None => target
       end.

(** The four octets of a dotted quad. *)
Definition dotted (n0 n1 n2 n3 : Z) : string :=
  Py.str_int n0 +:+ "." +:+ Py.str_int n1 +:+ "."
    +:+ Py.str_int n2 +:+ "." +:+ Py.str_int n3.

Definition octet (n : Z) : Prop := 0 ≤ n ≤ 255.

(** The exception that the test for an unknown child property in
    [CheckEventTypeParents] would raise. *)
Definition unknown_child (EventTypeName ChildProperty : string) : exn :=
  EDXMLError ("ERROR: Event type " +:+ EventTypeName
                +:+ " contains a parent definition which refers to unknown child property '"
                +:+ ChildProperty +:+ "'.").

(** The call does not raise an exception of the kind [bad]. *)
Definition avoids {A} (bad : exn → Prop) (r : result A) : Prop :=
  ∀ e, r = Raise e → ¬ bad e.

(** The text [t] occurs in [s]. *)
Definition occurs (t s : string) : Prop :=
  ∃ before after, s = before +:+ t +:+ after.

(** Property [p] of event type [n] has object type [ot]. *)
Definition has_object_type (self : Definitions) (n p ot : string) : Prop :=
  ∃ et attrs, EventTypes self !! n = Some et
              ∧ properties et !! p = Some attrs
              ∧ attrs !! "object-type" = Some ot.

(** What the name lists and the object type indexes of a registry say
    about its definitions. *)
Record indexed (self : Registry) : Prop := {
  event_types_listed :
    lists (EventTypeNames (defs self)) (EventTypes (defs self));
  object_types_listed :
    lists (ObjectTypeNames self) (ObjectTypes (defs self));
  properties_listed n et :
    EventTypes (defs self) !! n = Some et →
    ∃ names, PropertyNames (defs self) !! n = Some names
             ∧ lists names (properties et);
  relations_listed n et :
    EventTypes (defs self) !! n = Some et →
    ∃ ids, PropertyRelations (defs self) !! n = Some ids
           ∧ lists ids (relations et);
  data_type_valid n attrs :
    ObjectTypes (defs self) !! n = Some attrs →
    ∃ dt, attrs !! "data-type" = Some dt
          ∧ ValidateDataType n dt = Return ();
  object_type_named n et p attrs :
    EventTypes (defs self) !! n = Some et →
    properties et !! p = Some attrs →
    is_Some (attrs !! "object-type");
  having_object_type ot n :
    n ∈ GetEventTypesHavingObjectType (defs self) ot
    ↔ ∃ p, has_object_type (defs self) n p ot;
  required_object_type ot :
    ot ∈ RequiredObjectTypes (defs self)
    ↔ ∃ n p, has_object_type (defs self) n p ot }.

End Laws.

(** ** Further registries and events *)

Module Samples.
Import EDXMLDefinitions Examples DataTypes Registry Merger.

Definition answered (r : answer Registry) : Registry :=
  match r with Return self => self | Throw _ => empty end.

Definition stored (r : result Registry) : Registry :=
  match r with Ok self => self | Raise _ => empty end.

Definition relation_attrs (p1 p2 description : string) : gmap string string :=
  list_to_map [("property1", p1); ("property2", p2);
               ("description", description); ("type", "intra:knows");
               ("confidence", "1.0")].

(** A registry built call by call: event type e with the properties a
    (add) and u (unique), the object type text and a relation between a
    and u. *)
Definition sample_1 : Definitions :=
  registered (AddEventType "e" (eventtype_attrs "e") init).
Definition sample_2 : Definitions :=
  registered (AddProperty "e" "a"
                (property_attrs "a" "text" [("merge", "add")]) sample_1).
Definition sample_3 : Definitions :=
  registered (AddProperty "e" "u"
                (property_attrs "u" "text" [("unique", "true")]) sample_2).
Definition sample_4 : Registry :=
  answered (AddObjectType (λ _, true) "text"
              (objecttype_attrs "text" "string:0:cs")
              (set_defs sample_3 (set_defs sample_2 (set_defs sample_1 empty)))).
Definition sample : Registry :=
  stored (AddRelation "e" "a" "u" (relation_attrs "a" "u" "[[a]] knows [[u]]")
            sample_4).

(** An event type whose properties merge by add, replace and drop, with
    the unique property u. *)
Definition simple_registry : Definitions :=
  registered
    (s ← AddEventType "e" (eventtype_attrs "e") init;
     s ← AddProperty "e" "a" (property_attrs "a" "text" [("merge", "add")]) s;
     s ← AddProperty "e" "r"
           (property_attrs "r" "text" [("merge", "replace")]) s;
     s ← AddProperty "e" "d" (property_attrs "d" "text" [("merge", "drop")]) s;
     s ← AddProperty "e" "u" (property_attrs "u" "text" [("unique", "true")]) s;
     Ok (set_ObjectTypes object_types s)).

Definition simple_names : list string := ["a"; "r"; "d"; "u"].

Definition simple_A : gmap string (list string) :=
  list_to_map [("a", ["x"]); ("r", ["old"]); ("d", ["kept"]); ("u", ["k"])].
Definition simple_B : gmap string (list string) :=
  list_to_map [("a", ["y"]); ("r", ["new"]); ("d", ["lost"]); ("u", ["k"])].
Definition simple_A' : gmap string (list string) :=
  list_to_map [("a", ["y"; "x"]); ("r", ["new"]); ("d", ["kept"]);
               ("u", ["k"])].

(** The registry of the child event type, with the merge strategy drop
    for its mapped property. *)
Definition child : Definitions :=
  registered (child_registry [("merge", "drop")]).

(** An event of the event type without unique properties. *)
Definition plain_event : list (string * string) := [("p", "v")].

End Samples.

(** ** [EDXMLDefinitions]: event sources *)

Module Sources.
Import EDXMLDefinitions.

(** The attribute dicts of the sources live in a store and are passed by
    reference: [AddNewSource] keeps the dict it is given, and
    [UniqueSourceIDs] writes to the dicts that were kept. *)
Definition dicts : Type := nat → gmap string string.

Definition dicts_set (h : dicts) (l : nat) (d : gmap string string) : dicts :=
  λ l', if (l' =? l)%nat then d else h l'.

(** [self.SourceIDs], [self.SourceURLs] and [self.Sources]. *)
Record SourceTable : Type := mkSourceTable {
  SourceIDs : gmap string string;
  SourceURLs : gmap string nat;
  Sources : list string }.

(** The fields as [EDXMLDefinitions.__init__] sets them. *)
Definition no_sources : SourceTable := mkSourceTable ∅ ∅ [].

(** [SourceIdDefined(SourceId)] *)
Definition SourceIdDefined (self : SourceTable) (SourceId : string) : bool :=
  bool_decide (SourceId ∈ dom (SourceIDs self)).

(** [GetSourceIDs()] *)
Definition GetSourceIDs (self : SourceTable) : list string := Sources self.

(** [GetSourceId(Url)] *)
Definition GetSourceId (self : SourceTable) (h : dicts) (Url : string)
  : result string :=
  a ← getitem (SourceURLs self) Url;
  getitem (h a) "source-id".

(** [GetSourceURLProperties(Url)]: the dict, by reference. *)
Definition GetSourceURLProperties (self : SourceTable) (Url : string)
  : result nat :=
  getitem (SourceURLs self) Url.

(** [GetSourceIdProperties(SourceId)]: the dict, by reference. *)
Definition GetSourceIdProperties (self : SourceTable) (SourceId : string)
  : result nat :=
  url ← getitem (SourceIDs self) SourceId;
  getitem (SourceURLs self) url.

(** [AddNewSource(SourceUrl, Attributes)] *)
Definition AddNewSource (SourceUrl : string) (Attributes : nat) (h : dicts)
    (self : SourceTable) : result SourceTable :=
  _ ← ValidateEdxmlEntityAttributes "source" (h Attributes);
  Ok (mkSourceTable (SourceIDs self)
        (<[SourceUrl := Attributes]> (SourceURLs self)) (Sources self)).

(** [AddSource(SourceUrl, Attributes)] *)
Definition AddSource (SourceUrl : string) (Attributes : nat) (h : dicts)
    (self : SourceTable) : result SourceTable :=
  SourceId ← getitem (h Attributes) "source-id";
  let self := mkSourceTable (<[SourceId := SourceUrl]> (SourceIDs self))
                (SourceURLs self) (Sources self) in
  match SourceURLs self !! SourceUrl with
  | Some current =>
      _ ← CheckEdxmlEntityConsistency "source" SourceUrl (h current)
            (h Attributes);
      Ok self
  | None =>
      AddNewSource SourceUrl Attributes h
        (mkSourceTable (SourceIDs self) (SourceURLs self)
           (Sources self ++ [SourceId]))
  end.

(** The loop of [UniqueSourceIDs] over the source URLs that are left.
    Python does not fix the order in which a dict yields its keys, so the
    keys come as a list. *)
Fixpoint renumber (keys : list string) (Counter : Z)
    (Mapping : gmap string string) (self : SourceTable) (h : dicts)
  : result (gmap string string * SourceTable * dicts) :=
  match keys with
  | [] => Ok (Mapping, self, h)
  | SourceUrl :: keys' =>
      let Mapping := <[SourceUrl := Py.str_int Counter]> Mapping in
      a ← getitem (SourceURLs self) SourceUrl;
      let h := dicts_set h a (<["source-id" := Py.str_int Counter]> (h a)) in
      let self := mkSourceTable
                    (<[Py.str_int Counter := SourceUrl]> (SourceIDs self))
                    (SourceURLs self) (Sources self) in
      renumber keys' (Counter + 1) Mapping self h
  end.

(** [UniqueSourceIDs()], where [keys] are the keys of [self.SourceURLs]
    in the order of iteration. *)
Definition UniqueSourceIDs (keys : list string) (self : SourceTable)
    (h : dicts) : result (gmap string string * SourceTable * dicts) :=
  renumber keys 1 ∅ self h.

End Sources.

(** ** [EDXMLDefinitions.CheckReporterString] *)

Module Reporter.
Import EDXMLDefinitions Registry.

Definition KnownFormatters : list string :=
  ["TIMESPAN"; "DATE"; "DATETIME"; "FULLDATETIME"; "WEEK"; "MONTH"; "YEAR";
   "DURATION"; "LATITUDE"; "LONGITUDE"; "BYTECOUNT"; "CURRENCY";
   "COUNTRYCODE"; "FILESERVER"; "BOOLEAN_STRINGCHOICE"; "BOOLEAN_ON_OFF";
   "BOOLEAN_IS_ISNOT"; "EMPTY"].

Definition is_curly (c : ascii) : bool :=
  Ascii.eqb c "{" || Ascii.eqb c "}".

(** [CurlyNestings[Curly]] *)
Definition CurlyNestings (Curly : ascii) : Z :=
  if Ascii.eqb Curly "{" then 1 else -1.

Definition unbalanced {A} (String : string) : result A :=
  Error ("The following reporter string contains unbalanced curly brackets:
" +:+ String +:+ "
").

(** The loop over the curly brackets of the string. *)
Fixpoint nesting (String : string) (Curlies : list ascii) (Nesting : Z)
  : result Z :=
  match Curlies with
  | [] => Ok Nesting
  | Curly :: Curlies' =>
      let Nesting := Nesting + CurlyNestings Curly in
      if Nesting <? 0 then unbalanced String
      else nesting String Curlies' Nesting
  end.

(** [GetObjectTypeDataType(GetPropertyObjectType(EventTypeName,
    PropertyName))] *)
Definition property_data_type (self : Definitions)
    (EventTypeName PropertyName : string) : result string :=
  ot ← GetPropertyObjectType self EventTypeName PropertyName;
  GetObjectTypeDataType self ot.

Definition error_if (failed : bool) (Message : string) : result unit :=
  if failed then Error Message else Ok ().

Definition nonexisting {A} (EventTypeName String : string) : result A :=
  Error ("Event type " +:+ EventTypeName
           +:+ " contains a reporter string which refers to one or more nonexisting properties: "
           +:+ String).

(** The tests that follow the test for a known formatter. *)
Definition check_formatter (self : Definitions) (EventTypeName String : string)
    (StringComponents : list string) : result unit :=
  c0 ← index StringComponents 0;
  if elem c0 ["DATE"; "DATETIME"; "FULLDATETIME"; "WEEK"; "MONTH"; "YEAR"]
  then
    c1 ← index StringComponents 1;
    _ ← error_if (1 <? length (Py.split "," c1))%nat
          ("Event type " +:+ EventTypeName
             +:+ " contains a reporter string which uses the " +:+ c0
             +:+ " formatter, which accepts just one property. Multiple properties were specified: "
             +:+ c1);
    dt ← property_data_type self EventTypeName c1;
    error_if (negb (String.eqb dt "timestamp"))
      ("Event type " +:+ EventTypeName
         +:+ " contains a reporter string which uses the " +:+ c0
         +:+ " formatter. The used property (" +:+ c1
         +:+ ") is not a timestamp, though.")
  else if elem c0 ["LATITUDE"; "LONGITUDE"; "BYTECOUNT"; "COUNTRYCODE";
                   "FILESERVER"; "BOOLEAN_ON_OFF"; "BOOLEAN_IS_ISNOT"]
  then
    _ ← error_if (2 <? length StringComponents)%nat
          ("Event type " +:+ EventTypeName
             +:+ " contains a reporter string which uses the " +:+ c0
             +:+ " formatter. This formatter accepts no options, but they were specified: "
             +:+ String);
    c1 ← index StringComponents 1;
    _ ← error_if (1 <? length (Py.split "," c1))%nat
          ("Event type " +:+ EventTypeName
             +:+ " contains a reporter string which uses the " +:+ c0
             +:+ " formatter. This formatter accepts just one property. Multiple properties were given though: "
             +:+ c1);
    if elem c0 ["BOOLEAN_ON_OFF"; "BOOLEAN_IS_ISNOT"] then
      dt ← property_data_type self EventTypeName c1;
      error_if (negb (String.eqb dt "boolean"))
        ("Event type " +:+ EventTypeName
           +:+ " contains a reporter string which uses the " +:+ c0
           +:+ " formatter. The used property (" +:+ c1
           +:+ ") is not a boolean, though.")
    else Ok ()
  else if String.eqb c0 "CURRENCY" then
    error_if (negb (length StringComponents =? 3)%nat)
      ("Event type " +:+ EventTypeName
         +:+ " contains a reporter string which uses a malformed " +:+ c0
         +:+ " formatter: " +:+ String)
  else if String.eqb c0 "EMPTY" then
    error_if (negb (length StringComponents =? 3)%nat)
      ("Event type " +:+ EventTypeName
         +:+ " contains a reporter string which uses a malformed " +:+ c0
         +:+ " formatter: " +:+ String)
  else if String.eqb c0 "BOOLEAN_STRINGCHOICE" then
    _ ← error_if (negb (length StringComponents =? 4)%nat)
          ("Event type " +:+ EventTypeName
             +:+ " contains a reporter string which uses a malformed " +:+ c0
             +:+ " formatter: " +:+ String);
    c1 ← index StringComponents 1;
    dt ← property_data_type self EventTypeName c1;
    error_if (negb (String.eqb dt "boolean"))
      ("Event type " +:+ EventTypeName
         +:+ " contains a reporter string which uses the " +:+ c0
         +:+ " formatter. The used property (" +:+ c1
         +:+ ") is not a boolean, though.")
  else
    Error ("Event type " +:+ EventTypeName
             +:+ " contains a reporter string which uses an unknown formatter: "
             +:+ c0).

(** The body of the loop [for String in PlaceholderStrings]: the list
    [ReferredProperties] after the placeholder [String]. *)
Definition check_placeholder (self : Definitions) (EventTypeName : string)
    (PropertyNames : list string) (ReferredProperties : list string)
    (String : string) : result (list string) :=
  let StringComponents := Py.split ":" String in
  if (length StringComponents =? 1)%nat then
    c0 ← index StringComponents 0;
    if elem c0 PropertyNames then Ok (ReferredProperties ++ [c0])
    else nonexisting EventTypeName String
  else
    c0 ← index StringComponents 0;
    if elem c0 ["DURATION"; "TIMESPAN"] then
      c1 ← index StringComponents 1;
      let DurationProperties := Py.split "," c1 in
      _ ← error_if (negb (length DurationProperties =? 2)%nat)
            ("Event type " +:+ EventTypeName
               +:+ " contains a reporter string containing a string formatter ("
               +:+ c0 +:+ ") which requires two properties, but "
               +:+ Py.str_int (Z.of_nat (length DurationProperties))
               +:+ " properties were specified.");
      d0 ← index DurationProperties 0;
      if elem d0 PropertyNames then
        d1 ← index DurationProperties 1;
        if elem d1 PropertyNames then
          dt ← property_data_type self EventTypeName d0;
          _ ← error_if (negb (String.eqb dt "timestamp"))
                ("Event type " +:+ EventTypeName
                   +:+ " contains a reporter string which uses a time related formatter, but the used property ("
                   +:+ d0 +:+ ") is not a timestamp.");
          dt ← property_data_type self EventTypeName d1;
          _ ← error_if (negb (String.eqb dt "timestamp"))
                ("Event type " +:+ EventTypeName
                   +:+ " contains a reporter string which uses a time related formatter, but the used property ("
                   +:+ d1 +:+ ") is not a timestamp.");
          Ok (ReferredProperties ++ [d0; d1])
        else nonexisting EventTypeName String
      else nonexisting EventTypeName String
    else
      _ ← error_if (negb (elem c0 KnownFormatters))
            ("Event type " +:+ EventTypeName
               +:+ " contains a reporter string which refers to an unknown formatter: "
               +:+ c0);
      _ ← check_formatter self EventTypeName String StringComponents;
      c1 ← index StringComponents 1;
      if elem c1 PropertyNames then Ok (ReferredProperties ++ [c1])
      else nonexisting EventTypeName String.

(** The loop [for String in PlaceholderStrings]. *)
Fixpoint check_placeholders (self : Definitions) (EventTypeName : string)
    (PropertyNames : list string) (PlaceholderStrings : list string)
    (ReferredProperties : list string) : result (list string) :=
  match PlaceholderStrings with
  | [] => Ok ReferredProperties
  | Placeholder :: rest =>
      ReferredProperties ← check_placeholder self EventTypeName PropertyNames
                             ReferredProperties Placeholder;
      check_placeholders self EventTypeName PropertyNames rest
        ReferredProperties
  end.

(** The message of the warning about a property that the string does
    not refer to. *)
Definition incomplete (EventTypeName PropertyName : string) : string :=
  "Event type " +:+ EventTypeName
    +:+ " contains an incomplete long reporter string. The property '"
    +:+ PropertyName +:+ "' is missing.".

(** [CheckReporterString(EventTypeName, String, PropertyNames,
    CheckCompleteness)]; the result lists the messages passed to
    [self.Warning]. *)
Definition CheckReporterString (self : Definitions)
    (EventTypeName String : string) (PropertyNames : list string)
    (CheckCompleteness : bool) : result (list string) :=
  Nesting ← nesting String
              (List.filter is_curly (list_ascii_of_string String)) 0;
  _ ← (if negb (Nesting =? 0) then unbalanced String else Ok ());
  ReferredProperties ← check_placeholders self EventTypeName PropertyNames
                         (placeholders String) [];
  Ok (if CheckCompleteness then
        incomplete EventTypeName
          <$> List.filter (λ p, negb (elem p ReferredProperties))
                PropertyNames
      else []).

End Reporter.

(** ** [EDXMLDefinitions.GetEventTypeNamesInClasses] *)

Module ClassQueries.
Import EDXMLDefinitions.

(** The loop [for ClassName in ClassNames]. *)
Fixpoint names_in_classes (self : Definitions) (ClassNames : list string)
    (EventTypeNames : gset string) : result (gset string) :=
  match ClassNames with
  | [] => Ok EventTypeNames
  | ClassName :: rest =>
      names ← getitem (EventTypeClasses self) ClassName;
      names_in_classes self rest (EventTypeNames ∪ names)
  end.

(** [GetEventTypeNamesInClasses(ClassNames)] *)
Definition GetEventTypeNamesInClasses (self : Definitions)
    (ClassNames : list string) : result (list string) :=
  EventTypeNames ← names_in_classes self ClassNames ∅;
  Ok (elements EventTypeNames).

End ClassQueries.

(** ** Further notions for the statements *)

Module Invariants.
Import EDXMLDefinitions Registry Sources Reporter ClassQueries Laws.

(** The source tables that [AddSource] calls that returned build from an
    empty one, while the attribute dicts [h] stay as they are. *)
Inductive sourced (h : dicts) : SourceTable → Prop :=
  | sourced_none : sourced h no_sources
  | sourced_add self url a self' :
      sourced h self → AddSource url a h self = Ok self' →
      sourced h self'.

(** No two source URLs hold the same attribute dict. *)
Definition unshared (self : SourceTable) : Prop :=
  ∀ u1 u2 a,
    SourceURLs self !! u1 = Some a → SourceURLs self !! u2 = Some a →
    u1 = u2.

(** The exception of [CheckEdxmlEntityConsistency] for a source whose
    attribute source-id is [new] while the stored one is [existing]. *)
Definition source_id_mismatch (SourceUrl new existing : string) : exn :=
  EDXMLError ("ERROR: Attribute source-id of source '" +:+ SourceUrl
                +:+ "' does not match previous definition:" +:+ "
New:      " +:+ new +:+ "
Existing: " +:+ existing +:+ "
").

(** The number of characters [c] in a text. *)
Definition count_char (c : ascii) (l : list ascii) : nat :=
  length (List.filter (Ascii.eqb c) l).

(** The curly brackets of the string are balanced: no prefix closes more
    brackets than it opens, and the string closes all it opens. *)
Definition balanced (s : string) : Prop :=
  let l := list_ascii_of_string s in
  count_char "}" l = count_char "{" l
  ∧ ∀ n, (count_char "}" (take n l) ≤ count_char "{" (take n l))%nat.

(** The property names of a placeholder: the placeholder itself when it
    has no formatter, the two names of the field after a duration
    formatter, and the field after any other formatter. *)
Definition referred (Placeholder : string) : list string :=
  match Py.split ":" Placeholder with
  | f :: names :: _ =>
      if elem f ["DURATION"; "TIMESPAN"] then Py.split "," names
      else [names]
  | l => l
  end.

Definition date_formatters : list string :=
  ["DATE"; "DATETIME"; "FULLDATETIME"; "WEEK"; "MONTH"; "YEAR"].

Definition plain_formatters : list string :=
  ["LATITUDE"; "LONGITUDE"; "BYTECOUNT"; "COUNTRYCODE"; "FILESERVER";
   "BOOLEAN_ON_OFF"; "BOOLEAN_IS_ISNOT"].

Definition boolean_formatters : list string :=
  ["BOOLEAN_STRINGCHOICE"; "BOOLEAN_ON_OFF"; "BOOLEAN_IS_ISNOT"].

(** The field names one property: it has no comma. *)
Definition single (names : string) : Prop :=
  length (Py.split "," names) = 1%nat.

(** The placeholders of a reporter string that make sense for an event
    type with the properties [PropertyNames]: a property name, or a
    formatter followed by a colon, a field of property names, and maybe
    further fields (the options) after colons. *)
Definition well_formed (self : Definitions) (EventTypeName : string)
    (PropertyNames : list string) (Placeholder : string) : Prop :=
  match Py.split ":" Placeholder with
  | [] => False
  | [p] => p ∈ PropertyNames
  | f :: p :: options =>
      if elem f ["DURATION"; "TIMESPAN"] then
        ∃ p1 p2,
          Py.split "," p = [p1; p2]
          ∧ p1 ∈ PropertyNames ∧ p2 ∈ PropertyNames
          ∧ property_data_type self EventTypeName p1 = Ok "timestamp"%string
          ∧ property_data_type self EventTypeName p2 = Ok "timestamp"%string
      else
        f ∈ KnownFormatters ∧ p ∈ PropertyNames
        ∧ (f ∈ date_formatters →
           single p
           ∧ property_data_type self EventTypeName p
             = Ok "timestamp"%string)
        ∧ (f ∈ plain_formatters → options = [] ∧ single p)
        ∧ (f ∈ boolean_formatters →
           property_data_type self EventTypeName p = Ok "boolean"%string)
        ∧ (f ∈ ["CURRENCY"; "EMPTY"] → length options = 1%nat)
        ∧ (f = "BOOLEAN_STRINGCHOICE"%string → length options = 2%nat)
  end.

(** The exception of the last branch of the formatter tests in
    [CheckReporterString]. *)
Definition unknown_formatter (EventTypeName Formatter : string) : exn :=
  EDXMLError ("ERROR: Event type " +:+ EventTypeName
                +:+ " contains a reporter string which uses an unknown formatter: "
                +:+ Formatter).

Definition unknown_formatter_error (EventTypeName : string) (e : exn)
  : Prop :=
  ∃ Formatter, e = unknown_formatter EventTypeName Formatter.

(** Event type [n] is registered with class [c] in its class list. *)
Definition in_class (self : Definitions) (n c : string) : Prop :=
  ∃ et classlist,
    EventTypes self !! n = Some et
    ∧ attributes et !! "classlist" = Some classlist
    ∧ c ∈ Py.split "," classlist.

(** Property [p] of event type [n] is registered with the attribute
    defines-entity set to true, in any case. *)
Definition defines_entity (self : Definitions) (n p : string) : Prop :=
  ∃ et attrs v,
    EventTypes self !! n = Some et ∧ properties et !! p = Some attrs
    ∧ attrs !! "defines-entity" = Some v ∧ Py.lower v = "true"%string.

(** A relation of some event type has the type [kind:predicate]. *)
Definition has_predicate (self : Definitions) (predicate : string) : Prop :=
  ∃ n et id attrs type kind,
    EventTypes self !! n = Some et ∧ relations et !! id = Some attrs
    ∧ attrs !! "type" = Some type
    ∧ Py.split ":" type = [kind; predicate].

(** What the class, entity and relation indexes of a registry say about
    its definitions. *)
Record cross_indexed (self : Registry.Registry) : Prop := {
  classes_indexed c n :
    n ∈ default ∅ (EventTypeClasses (defs self) !! c)
    ↔ in_class (defs self) n c;
  classes_inhabited c names :
    EventTypeClasses (defs self) !! c = Some names → names ≠ ∅;
  entities_indexed n et :
    EventTypes (defs self) !! n = Some et →
    ∃ entities,
      EntityProperties (defs self) !! n = Some entities
      ∧ ∀ p, p ∈ entities ↔ defines_entity (defs self) n p;
  related_indexed n et p :
    EventTypes (defs self) !! n = Some et → p ∈ related_properties et →
    ∃ q, (p +:+ " -> " +:+ q) ∈ dom (relations et)
         ∨ (q +:+ " -> " +:+ p) ∈ dom (relations et);
  predicates_indexed predicate :
    predicate ∈ RelationPredicates self
    ↔ has_predicate (defs self) predicate }.

End Invariants.

(** ** Further source tables *)

Module SourceSamples.
Import EDXMLDefinitions Sources.

Definition tabled (r : result SourceTable) : SourceTable :=
  match r with Ok self => self | Raise _ => no_sources end.

Definition source_attrs (id url : string) : gmap string string :=
  list_to_map [("source-id", id); ("url", url);
               ("date-acquired", "20110101"); ("description", "a source")].

(** The dicts at the addresses 0 and 1 describe two sources that have
    the same source id; the dict at address 2 equals the one at
    address 0. *)
Definition source_dicts : dicts :=
  λ a, match a with
       | 0%nat => source_attrs "x" "/a/"
       | 1%nat => source_attrs "x" "/b/"
       | 2%nat => source_attrs "x" "/a/"
       | _ => ∅
       end.

Definition one_source : SourceTable :=
  tabled (AddSource "/a/" 0 source_dicts no_sources).

Definition two_sources : SourceTable :=
  tabled (AddSource "/b/" 1 source_dicts one_source).

Definition source_keys : list string := ["/b/"; "/a/"].

(** The mapping, the source table and the dicts after
    [UniqueSourceIDs]. *)
Definition renumbered : gmap string string * SourceTable * dicts :=
  match UniqueSourceIDs source_keys two_sources source_dicts with
  | Ok r => r
  | Raise _ => (∅, no_sources, source_dicts)
  end.

End SourceSamples.


(** * Properties of the embedding *)

Import EDXMLDefinitions Spec Examples.

#[local] Arguments elem : simpl never.
#[local] Arguments NormalizeObject : simpl never.
#[local] Set Warnings "-clear-no-such-hyp".

(** ** The result monad *)

Lemma bind_Ok {A B} (f : A → result B) (r : result A) (b : B) :
  r ≫= f = Ok b ↔ ∃ a, r = Ok a ∧ f a = Ok b.
Proof.
  destruct r as [a|e]; simpl; split.
  - intros H. by exists a.
  - by intros (a' & [= <-] & H).
  - discriminate.
  - by intros (a' & [=] & _).
Qed.

Lemma getitem_Ok {K A} `{Countable K} (d : gmap K A) k a :
  getitem d k = Ok a ↔ d !! k = Some a.
Proof. unfold getitem. destruct (d !! k); split; congruence. Qed.

Lemma index_Ok {A} (l : list A) i a : index l i = Ok a ↔ l !! i = Some a.
Proof. unfold index. destruct (l !! i); split; congruence. Qed.

Lemma for_each_Ok {A} (f : A → result unit) (l : list A) :
  for_each f l = Ok () ↔ ∀ x, x ∈ l → f x = Ok ().
Proof.
  induction l as [|x l IH]; simpl.
  - split; [|done]. intros _ x Hx. by apply elem_of_nil in Hx.
  - rewrite bind_Ok. split.
    + intros ([] & Hx & Hl) y [->|Hy]%elem_of_cons; [done|].
      by apply IH.
    + intros H. exists (). split; [apply H; left|].
      apply IH. intros y Hy. apply H. by right.
Qed.

(** ** Strings and decimal numerals *)

Lemma append_cons c (s t : string) : String c s +:+ t = String c (s +:+ t).
Proof. reflexivity. Qed.

Lemma append_nil_r (s : string) : s +:+ "" = s.
Proof.
  induction s as [|c s IH]; [reflexivity|]. by rewrite append_cons, IH.
Qed.

Lemma append_assoc (s t u : string) : (s +:+ t) +:+ u = s +:+ (t +:+ u).
Proof.
  induction s as [|c s IH]; [reflexivity|]. by rewrite !append_cons, IH.
Qed.

Lemma all_chars_append p s t :
  all_chars p (s +:+ t) = all_chars p s && all_chars p t.
Proof.
  induction s as [|c s IH]; [done|]. rewrite append_cons. simpl.
  by rewrite IH, andb_assoc.
Qed.

Lemma all_chars_impl (p q : ascii → bool) s :
  (∀ c, p c = true → q c = true) → all_chars p s = true →
  all_chars q s = true.
Proof.
  intros Hpq. induction s as [|c s IH]; [done|]. simpl.
  rewrite !andb_true_iff. intros [? ?]. auto.
Qed.

Lemma rev_app_append s t u :
  String.rev_app (String.rev_app s t) u = String.rev_app t (s +:+ u).
Proof.
  revert t u. induction s as [|c s IH]; intros t u; [done|].
  simpl. rewrite IH. done.
Qed.

Lemma rev_involutive s : String.rev (String.rev s) = s.
Proof. unfold String.rev. rewrite rev_app_append. simpl. apply append_nil_r. Qed.

Lemma all_chars_rev_app p s t :
  all_chars p (String.rev_app s t) = all_chars p s && all_chars p t.
Proof.
  revert t. induction s as [|c s IH]; intros t; [done|]. simpl.
  rewrite IH. simpl. rewrite !andb_assoc. f_equal. apply andb_comm.
Qed.

Lemma lstrip_id s :
  all_chars (λ c, negb (Py.isspace c)) s = true → Py.lstrip s = s.
Proof.
  destruct s as [|c s]; [done|]. simpl. intros [Hc _]%andb_true_iff.
  by apply negb_true_iff in Hc as ->.
Qed.

Lemma strip_id s :
  all_chars (λ c, negb (Py.isspace c)) s = true → Py.strip s = s.
Proof.
  intros Hs. unfold Py.strip, Py.rstrip. rewrite (lstrip_id s Hs).
  rewrite lstrip_id; [apply rev_involutive|].
  unfold String.rev. by rewrite all_chars_rev_app, Hs.
Qed.

Lemma plain_not_space c : plain_char c = true → negb (Py.isspace c) = true.
Proof. destruct c as [[] [] [] [] [] [] [] []]; vm_compute; congruence. Qed.

Lemma plain_not_dot c : plain_char c = true → Ascii.eqb c "." = false.
Proof. destruct c as [[] [] [] [] [] [] [] []]; vm_compute; congruence. Qed.

Lemma digit_not_sign c :
  Py.isdigit c = true → c ≠ "-"%char ∧ c ≠ "+"%char.
Proof.
  destruct c as [[] [] [] [] [] [] [] []]; vm_compute; intros; split;
    congruence.
Qed.

Lemma split_plain s :
  all_chars plain_char s = true → Py.split "." s = [s].
Proof.
  induction s as [|c s IH]; [done|]. simpl.
  intros [Hc Hs]%andb_true_iff. rewrite (plain_not_dot c Hc), IH; done.
Qed.

Lemma split_plain_dot s t :
  all_chars plain_char s = true →
  Py.split "." (s +:+ "." +:+ t) = s :: Py.split "." t.
Proof.
  induction s as [|c s IH]; [done|]. rewrite append_cons. simpl.
  intros [Hc Hs]%andb_true_iff. rewrite (plain_not_dot c Hc), IH; done.
Qed.

Lemma digit_chr (d : Z) : 0 ≤ d < 10 → Py.digit (Py.chr (48 + d)) = Some d.
Proof.
  intros Hd.
  assert (d = 0 ∨ d = 1 ∨ d = 2 ∨ d = 3 ∨ d = 4 ∨ d = 5 ∨ d = 6 ∨ d = 7
          ∨ d = 8 ∨ d = 9) as Hcases by lia.
  repeat (destruct Hcases as [->|Hcases]; [reflexivity|]).
  by subst.
Qed.

Lemma digits_of_S fuel n acc :
  Py.digits_of (S fuel) n acc
  = if n <? 10 then String (Py.chr (48 + n mod 10)) acc
    else Py.digits_of fuel (n / 10) (String (Py.chr (48 + n mod 10)) acc).
Proof. reflexivity. Qed.

Lemma digits_of_spec fuel n acc :
  0 ≤ n < 10 ^ Z.of_nat (S fuel) →
  ∃ ds, Py.digits_of (S fuel) n acc = ds +:+ acc
        ∧ ds ≠ EmptyString
        ∧ all_chars Py.isdigit ds = true
        ∧ ∀ a rest, Py.digits_value a (ds +:+ rest)
                    = Py.digits_value
                        (a * 10 ^ Z.of_nat (String.length ds) + n) rest.
Proof.
  revert n acc. induction fuel as [|fuel IH]; intros n acc Hn.
  - simpl in Hn. assert ((n <? 10) = true) as Hlt by lia.
    rewrite (digits_of_S 0 n acc), Hlt. exists (String (Py.chr (48 + n mod 10)) "").
    rewrite Z.mod_small by lia.
    split; [done|]. split; [done|]. split.
    + simpl. unfold Py.isdigit. by rewrite digit_chr by lia.
    + intros a rest. rewrite append_cons. simpl. rewrite digit_chr by lia.
      f_equal. lia.
  - rewrite (digits_of_S (S fuel) n acc). destruct (n <? 10) eqn:Hlt.
    + exists (String (Py.chr (48 + n mod 10)) "").
      apply Z.ltb_lt in Hlt. rewrite Z.mod_small by lia.
      split; [done|]. split; [done|]. split.
      * simpl. unfold Py.isdigit. by rewrite digit_chr by lia.
      * intros a rest. rewrite append_cons. simpl. rewrite digit_chr by lia.
        f_equal. lia.
    + apply Z.ltb_ge in Hlt.
      destruct (IH (n / 10) (String (Py.chr (48 + n mod 10)) acc))
        as (ds & Hds & Hne & Hall & Hval).
      { split; [apply Z.div_pos; lia|].
        apply Z.div_lt_upper_bound; [lia|].
        replace (10 * 10 ^ Z.of_nat (S fuel)) with (10 ^ Z.of_nat (S (S fuel)));
          [lia|].
        rewrite (Nat2Z.inj_succ (S fuel)), Z.pow_succ_r by lia. done. }
      exists (ds +:+ String (Py.chr (48 + n mod 10)) "").
      split; [by rewrite Hds, append_assoc|].
      split; [by destruct ds|]. split.
      * rewrite all_chars_append, Hall. simpl. unfold Py.isdigit.
        by rewrite digit_chr by (apply Z.mod_pos_bound; lia).
      * intros a rest. rewrite append_assoc, Hval, append_cons. simpl.
        rewrite digit_chr by (apply Z.mod_pos_bound; lia). f_equal.
        assert (String.length (ds +:+ String (Py.chr (48 + n mod 10)) "")
                = S (String.length ds)) as ->.
        { clear. induction ds as [|c ds IH]; [done|].
          rewrite append_cons. simpl. by rewrite IH. }
        rewrite Nat2Z.inj_succ, Z.pow_succ_r by lia.
        pose proof (Z.div_mod n 10). lia.
Qed.

Lemma str_nat_spec n :
  0 ≤ n →
  Py.str_nat n ≠ EmptyString
  ∧ all_chars Py.isdigit (Py.str_nat n) = true
  ∧ Py.number (Py.str_nat n) = Some n.
Proof.
  intros Hn. unfold Py.str_nat.
  destruct (digits_of_spec (Z.to_nat (Z.log2 n)) n "") as
    (ds & Hds & Hne & Hall & Hval).
  { split; [done|]. rewrite Nat2Z.inj_succ, Z2Nat.id by apply Z.log2_nonneg.
    destruct (decide (n = 0)) as [->|]; [done|].
    pose proof (Z.log2_spec n). 
    assert (2 ^ Z.succ (Z.log2 n) ≤ 10 ^ Z.succ (Z.log2 n)).
    { apply Z.pow_le_mono_l. pose proof (Z.log2_nonneg n). lia. }
    lia. }
  rewrite Hds, append_nil_r. split; [done|]. split; [done|].
  unfold Py.number. destruct ds as [|c ds]; [done|].
  specialize (Hval 0 EmptyString). rewrite append_nil_r in Hval.
  rewrite Hval. simpl. f_equal; lia.
Qed.

Lemma str_int_plain z : all_chars plain_char (Py.str_int z) = true.
Proof.
  unfold Py.str_int. destruct (z <? 0) eqn:Hz.
  - apply Z.ltb_lt in Hz. simpl.
    destruct (str_nat_spec (- z)) as (_ & Hall & _); [lia|].
    eapply all_chars_impl; [|exact Hall]. intros c Hc. unfold plain_char.
    by rewrite Hc.
  - apply Z.ltb_ge in Hz.
    destruct (str_nat_spec z) as (_ & Hall & _); [lia|].
    eapply all_chars_impl; [|exact Hall]. intros c Hc. unfold plain_char.
    by rewrite Hc.
Qed.

Lemma int_str_int z : Py.int (Py.str_int z) = Ok z.
Proof.
  unfold Py.int.
  rewrite strip_id
    by (eapply all_chars_impl; [apply plain_not_space|apply str_int_plain]).
  unfold Py.str_int. destruct (z <? 0) eqn:Hz.
  - apply Z.ltb_lt in Hz.
    destruct (str_nat_spec (- z)) as (Hne & Hall & Hnum); [lia|].
    simpl. rewrite lstrip_id.
    + rewrite Hnum. f_equal. lia.
    + eapply all_chars_impl; [|exact Hall]. intros c Hc.
      apply plain_not_space. unfold plain_char. by rewrite Hc.
  - apply Z.ltb_ge in Hz.
    destruct (str_nat_spec z) as (Hne & Hall & Hnum); [lia|].
    destruct (Py.str_nat z) as [|c s] eqn:Hs; [done|].
    simpl in Hall. apply andb_true_iff in Hall as [Hc Hall'].
    destruct (digit_not_sign c Hc) as [Hm Hp].
    assert (Py.sign (String c s) = (false, String c s)) as ->.
    { unfold Py.sign. destruct (Ascii.eqb_spec c "-"); [done|].
      destruct (Ascii.eqb_spec c "+"); [done|].
      destruct c as [[] [] [] [] [] [] [] []]; try done. }
    rewrite lstrip_id.
    + by rewrite Hnum.
    + simpl. rewrite (plain_not_space c) by (unfold plain_char; by rewrite Hc).
      simpl. eapply all_chars_impl; [|exact Hall']. intros c' Hc'.
      apply plain_not_space. unfold plain_char. by rewrite Hc'.
Qed.

Lemma length_append (s t : string) :
  String.length (s +:+ t) = (String.length s + String.length t)%nat.
Proof.
  induction s as [|c s IH]; [done|]. rewrite append_cons. simpl.
  by rewrite IH.
Qed.

Lemma lower_char_idem c : Py.lower_char (Py.lower_char c) = Py.lower_char c.
Proof. destruct c as [[] [] [] [] [] [] [] []]; reflexivity. Qed.

Lemma lower_idem s : Py.lower (Py.lower s) = Py.lower s.
Proof.
  induction s as [|c s IH]; [done|]. simpl. by rewrite lower_char_idem, IH.
Qed.

Lemma normalize_ip_again (n0 n1 n2 n3 : Z) :
  let w := Py.str_int n0 +:+ "." +:+ Py.str_int n1 +:+ "."
             +:+ Py.str_int n2 +:+ "." +:+ Py.str_int n3 in
  Py.split "." w
  = [Py.str_int n0; Py.str_int n1; Py.str_int n2; Py.str_int n3].
Proof.
  simpl. rewrite !split_plain_dot by apply str_int_plain.
  by rewrite split_plain by apply str_int_plain.
Qed.

Lemma map_result_Ok {A B} (f : A → result B) l ys :
  map_result f l = Ok ys → Forall2 (λ x y, f x = Ok y) l ys.
Proof.
  revert ys. induction l as [|x l IH]; intros ys; simpl.
  - intros [= <-]. constructor.
  - intros H. apply bind_Ok in H as (y & Hy & H).
    apply bind_Ok in H as (ys' & Hys & [= <-]). constructor; auto.
Qed.

Lemma elem_elem x l : elem x l = true ↔ x ∈ l.
Proof.
  unfold elem. induction l as [|y l IH]; simpl.
  - split; [done|]. by intros ?%elem_of_nil.
  - rewrite orb_true_iff, String.eqb_eq, IH, elem_of_cons. done.
Qed.

(** ** Validation and normalization of object values *)

(** C8.  The claim: for the data type hashlink, [ValidateObject] raises
    exactly when the value is not a string of 40 hexadecimal characters.
    The code: the test [re.match(self.HashlinkPattern, Value) == False]
    is never true, so [ValidateObject] accepts every value, the
    three-letter value xyz included. *)
Theorem ValidateObject_hashlink_never_raises :
  ValidateObject "xyz" "link" "hashlink" = Ok ()
  ∧ ∀ Value ObjectTypeName,
      ValidateObject Value ObjectTypeName "hashlink" = Ok ().
Proof.
  split; [reflexivity|].
  intros Value ObjectTypeName. unfold ValidateObject.
  change (Py.split ":" "hashlink") with ["hashlink"%string]. simpl.
  unfold match_eq_False. by destruct (Re.match_ _ _).
Qed.

(** Were the test of the match repaired, the pattern
    ["^[0-9a-zA-Z]{40}$"] would still accept forty letters z, which are
    not hexadecimal digits. *)
Lemma HashlinkPattern_accepts_non_hex :
  Re.match_ HashlinkPattern (Py.repeat "z" 40) = true.
Proof. reflexivity. Qed.

(** The three normalizations of scenario S1. *)
Lemma NormalizeObject_S1 :
  NormalizeObject "1.5" (Py.split ":" "number:decimal:10:4") = Ok "1.5000"%string
  ∧ NormalizeObject "192.168.001.001" (Py.split ":" "ip")
    = Ok "192.168.1.1"%string
  ∧ NormalizeObject "TRUE" (Py.split ":" "boolean") = Ok "true"%string.
Proof. repeat split; vm_compute; reflexivity. Qed.

(** C5.  The claim: [NormalizeObject] is idempotent on every legal value
    of every data type.  The code: the data type number:hex has no branch
    of its own in [NormalizeObject] and reaches [float(Value)]; the value
    ff, which [ValidateObject] accepts for number:hex:2, has no normal
    form at all: the call raises [ValueError]. *)
Theorem NormalizeObject_hex_raises :
  ValidateObject "ff" "code" "number:hex:2" = Ok ()
  ∧ NormalizeObject "ff" (Py.split ":" "number:hex:2") = Raise ValueError.
Proof. split; reflexivity. Qed.

(** A hex value made of decimal digits is normalized as a float, to a
    string that is no hex value of the declared length any more. *)
Lemma NormalizeObject_hex_as_float :
  NormalizeObject "12" (Py.split ":" "number:hex:2") = Ok "12.000000"%string
  ∧ ValidateObject "12.000000" "code" "number:hex:2" ≠ Ok ().
Proof. split; [vm_compute; reflexivity|]. vm_compute. discriminate. Qed.

(** X6.  On the data types that [NormalizeObject] handles without a floating
    point conversion (all but timestamp, number:decimal, number:float,
    number:double and, by falling through, number:hex), a normal form is
    its own normal form. *)
Lemma NormalizeObject_idempotent_exact Value DataType w :
  exact_descriptor DataType = true →
  NormalizeObject Value DataType = Ok w →
  NormalizeObject w DataType = Ok w.
Proof.
  unfold NormalizeObject, exact_descriptor.
  destruct DataType as [|dt0 rest]; [done|]. simpl.
  destruct (String.eqb dt0 "timestamp"); [done|]. simpl.
  destruct (String.eqb dt0 "number") eqn:Hnum; simpl.
  - destruct rest as [|dt1 rest]; [done|]. simpl. intros Hint.
    destruct (String.eqb_spec dt1 "decimal") as [->|_]; [done|].
    rewrite Hint. intros H. apply bind_Ok in H as (n & Hn & [= <-]).
    by rewrite int_str_int.
  - intros _. destruct (String.eqb dt0 "ip").
    { intros H.
      destruct (index (Py.split "." Value) 0 ≫= _) as [s|e] eqn:Hs;
        [|done].
      injection H as <-.
      apply bind_Ok in Hs as (o0 & _ & Hs). apply bind_Ok in Hs as (n0 & _ & Hs).
      apply bind_Ok in Hs as (o1 & _ & Hs). apply bind_Ok in Hs as (n1 & _ & Hs).
      apply bind_Ok in Hs as (o2 & _ & Hs). apply bind_Ok in Hs as (n2 & _ & Hs).
      apply bind_Ok in Hs as (o3 & _ & Hs). apply bind_Ok in Hs as (n3 & _ & Hs).
      injection Hs as <-. rewrite normalize_ip_again. simpl.
      by rewrite !int_str_int. }
    destruct (String.eqb dt0 "string").
    { intros H. apply bind_Ok in H as (dt2 & Hdt2 & H). rewrite Hdt2. simpl.
      destruct (String.eqb dt2 "ci"); injection H as <-; [|done].
      by rewrite lower_idem. }
    destruct (String.eqb dt0 "boolean").
    { intros [= <-]. by rewrite lower_idem. }
    done.
Qed.

(** With 16 fractional digits and an integer part of 59 digits,
    normalization is not idempotent: above 1e50 the conversion [%f] is
    carried out as [%g], and the double nearest to 1e+58 lies below it. *)
Lemma NormalizeObject_decimal_not_idempotent :
  NormalizeObject "10000000000000001000000000000000000000000000000000000000000"
    (Py.split ":" "number:decimal:80:16") = Ok "1e+58"%string
  ∧ NormalizeObject "1e+58" (Py.split ":" "number:decimal:80:16")
    = Ok "9.999999999999999e+57"%string.
Proof. split; vm_compute; reflexivity. Qed.

(** ** Merging by [min] and [max] *)

Lemma foldl_min (x : Z) (l : list Z) :
  let m := foldl (λ m y, if y <? m then y else m) x l in
  (m = x ∨ m ∈ l) ∧ m ≤ x ∧ ∀ y, y ∈ l → m ≤ y.
Proof.
  revert x. induction l as [|y l IH]; intros x; simpl.
  - split; [by left|]. split; [lia|]. by intros y ?%elem_of_nil.
  - destruct (IH (if y <? x then y else x)) as (Hin & Hle & Hall).
    destruct (Z.ltb_spec y x).
    + split; [right; destruct Hin as [->|?]; [left|by right]|].
      split; [lia|]. intros z [->|?]%elem_of_cons; [lia|by apply Hall].
    + split; [destruct Hin as [->|?]; [by left|right; by right]|].
      split; [lia|]. intros z [->|?]%elem_of_cons; [lia|by apply Hall].
Qed.

Lemma foldl_max (x : Z) (l : list Z) :
  let m := foldl (λ m y, if m <? y then y else m) x l in
  (m = x ∨ m ∈ l) ∧ x ≤ m ∧ ∀ y, y ∈ l → y ≤ m.
Proof.
  revert x. induction l as [|y l IH]; intros x; simpl.
  - split; [by left|]. split; [lia|]. by intros y ?%elem_of_nil.
  - destruct (IH (if x <? y then y else x)) as (Hin & Hle & Hall).
    destruct (Z.ltb_spec x y).
    + split; [right; destruct Hin as [->|?]; [left|by right]|].
      split; [lia|]. intros z [->|?]%elem_of_cons; [lia|by apply Hall].
    + split; [destruct Hin as [->|?]; [by left|right; by right]|].
      split; [lia|]. intros z [->|?]%elem_of_cons; [lia|by apply Hall].
Qed.

Lemma best_min (l : list Z) m :
  best Z.ltb l = Ok m → m ∈ l ∧ ∀ y, y ∈ l → m ≤ y.
Proof.
  destruct l as [|x l]; [done|]. simpl. intros [= <-].
  destruct (foldl_min x l) as (Hin & Hle & Hall). split.
  - destruct Hin as [->|?]; [left|by right].
  - intros y [->|?]%elem_of_cons; [done|by apply Hall].
Qed.

Lemma best_max (l : list Z) m :
  best (flip Z.ltb) l = Ok m → m ∈ l ∧ ∀ y, y ∈ l → y ≤ m.
Proof.
  destruct l as [|x l]; [done|]. simpl. intros [= <-].
  destruct (foldl_max x l) as (Hin & Hle & Hall). split.
  - destruct Hin as [->|?]; [left|by right].
  - intros y [->|?]%elem_of_cons; [done|by apply Hall].
Qed.

(** X17.  For the integer number types a [min] ([max]) property is merged
    to the one object that is the decimal writing of the smallest
    (largest) integer among the objects of both events. *)
Lemma merge_min_max_integer is_min dt1 rest p
    (Source Target : gmap string (gset string)) src tgt r :
  elem dt1 ["float"; "double"] = false → dt1 ≠ "decimal"%string →
  Source !! p = Some src → Target !! p = Some tgt →
  merge_min_max is_min ("number" :: dt1 :: rest) p Source Target = Ok r →
  ∃ values m,
    Forall2 (λ s n, Py.int s = Ok n) (elements src ++ elements tgt) values
    ∧ r = Some (Py.str_int m) ∧ m ∈ values
    ∧ ∀ n, n ∈ values → if is_min then m ≤ n else n ≤ m.
Proof.
  intros Hfl Hdec Hsrc Htgt. unfold merge_min_max. simpl.
  change (elem "number" ["number"; "timestamp"]%string) with true. simpl.
  unfold getitem. rewrite Hsrc. simpl. rewrite Hfl. destruct (String.eqb_spec dt1 "decimal"); [done|].
  intros H. apply bind_Ok in H as (xs & Hxs & H). rewrite Htgt in H.
  simpl in H.
  apply bind_Ok in H as (ys & Hys & H). apply bind_Ok in H as (m & Hm & H).
  injection H as <-. apply map_result_Ok in Hxs, Hys.
  exists (xs ++ ys), m. split; [by apply Forall2_app|]. split; [done|].
  destruct is_min.
  - by apply best_min in Hm as [? ?].
  - by apply best_max in Hm as [? ?].
Qed.

(** C3.  The claim: for a [min] ([max]) property of a timestamp type the
    merge keeps the numerically smallest (largest) value, serialized in
    the normal form of the data type.  The code: the timestamps stay
    strings and are compared by code points, so that merging 9.000000
    with 10.000000 keeps 10.000000 as the minimum and 9.000000 as the
    maximum; and a number:float minimum is written by [str], as 1.5, not
    in the normal form 1.500000 . *)
Theorem MergeEvents_timestamp_min_max_by_code_points :
  (∃ h', MergeEvents (timed_registry "min") "e" 0 1
           (two_events timed_A timed_B) = Ok (true, h')
         ∧ h' 0%nat !! "t" = Some ["10.000000"]
         ∧ h' 0%nat !! "f" = Some ["1.5"])
  ∧ (∃ h', MergeEvents (timed_registry "max") "e" 0 1
             (two_events timed_A timed_B) = Ok (true, h')
           ∧ h' 0%nat !! "t" = Some ["9.000000"])
  ∧ NormalizeObject "1.5" (Py.split ":" "number:float") = Ok "1.500000"%string.
Proof.
  split; [|split].
  - eexists. split; [vm_compute; reflexivity|].
    split; vm_compute; reflexivity.
  - eexists. split; vm_compute; reflexivity.
  - vm_compute; reflexivity.
Qed.

(** ** Derived property sets *)

Lemma property_map_dom items m m' :
  property_map items m = Ok m' → dom m ⊆ dom m'.
Proof.
  revert m. induction items as [|x items IH]; intros m; simpl.
  - by intros [= <-].
  - destruct (Py.split ":" x) as [|c [|q [|]]]; try discriminate.
    intros H%IH. etrans; [|exact H]. rewrite dom_insert. set_solver.
Qed.

Lemma derived_sets_fresh attrs :
  derived_sets (mkEventType attrs ∅ ∅ ∅ ∅ ∅ ∅ ∅ false None).
Proof.
  split; simpl.
  - split; [discriminate|]. by intros [].
  - intros p. split; [by intros ?%elem_of_empty|].
    intros (a & u & Hp & _). by rewrite lookup_empty in Hp.
  - intros p. split; [by intros ?%elem_of_empty|].
    intros (a & Hp & _). by rewrite lookup_empty in Hp.
  - intros p a Hp. by rewrite lookup_empty in Hp.
  - by intros p ?%elem_of_empty.
Qed.

Lemma stored_unique (attrs : gmap string string) u :
  (attrs ∪ {["unique" := "false"; "defines-entity" := "false"]}) !! "unique"
  = Some u →
  Py.lower u = "true"%string ↔ has_value_lower attrs "unique" "true" = true.
Proof.
  unfold has_value_lower. destruct (attrs !! "unique") as [x|] eqn:Hx.
  - rewrite (lookup_union_Some_l _ _ _ _ Hx). intros [= ->].
    by rewrite String.eqb_eq.
  - rewrite lookup_union_r by done. intros H. vm_compute in H.
    injection H as <-. split; discriminate.
Qed.

Lemma stored_merge (attrs : gmap string string) :
  (attrs ∪ {["unique" := "false"; "defines-entity" := "false"]}) !! "merge"
  = attrs !! "merge".
Proof. by apply lookup_union_l. Qed.

Lemma stored_unique_is_Some (attrs : gmap string string) :
  is_Some ((attrs ∪ {["unique" := "false"; "defines-entity" := "false"]})
             !! "unique").
Proof.
  destruct (attrs !! "unique") as [x|] eqn:Hx.
  - rewrite (lookup_union_Some_l _ _ _ _ Hx). by eexists.
  - rewrite lookup_union_r by done. by eexists.
Qed.

Lemma AddNewProperty_derived_sets self name p attrs self' et :
  EventTypes self !! name = Some et → properties et !! p = None →
  derived_sets et →
  AddNewProperty name p attrs self = Ok self' →
  ∃ et', EventTypes self' !! name = Some et' ∧ derived_sets et'
         ∧ ∀ other, other ≠ name →
                    EventTypes self' !! other = EventTypes self !! other.
Proof.
  intros Het Hnew [Hflag Hu Hm Hs1 Hs2] H. unfold AddNewProperty in H.
  apply bind_Ok in H as (names & _ & H). apply bind_Ok in H as ([] & _ & H).
  apply bind_Ok in H as (ot & _ & H). apply bind_Ok in H as (et0 & Het0 & H).
  apply getitem_Ok in Het0. rewrite Het in Het0. injection Het0 as <-.
  apply bind_Ok in H as (ents & _ & H). injection H as <-. simpl.
  eexists. split; [apply lookup_insert_eq|].
  split; [|by intros other Hne; rewrite lookup_insert_ne].
  assert (p ∉ unique_properties et) as Hpu.
  { intros (a & u & Hp & _)%Hu. congruence. }
  assert (p ∉ mandatory_properties et) as Hpm.
  { intros (a & Hp & _)%Hm. congruence. }
  assert (p ∉ singleton_properties et) as Hps.
  { intros (a & Hp & _)%Hs2. congruence. }
  split; simpl.
  - destruct (has_value_lower attrs "unique" "true").
    + rewrite orb_true_r. split; [|done]. intros _ E.
      assert (p ∈ ({[p]} ∪ unique_properties et : gset string)) as Hin
        by set_solver.
      rewrite E in Hin. by apply elem_of_empty in Hin.
    + by rewrite orb_false_r.
  - intros q. destruct (decide (q = p)) as [->|Hne].
    + rewrite lookup_insert_eq.
      destruct (stored_unique_is_Some attrs) as [u Hsu].
      pose proof (stored_unique attrs u Hsu) as Hiff.
      destruct (has_value_lower attrs "unique" "true").
      * split; [|set_solver]. intros _. eexists _, u.
        split; [done|]. split; [done|]. by apply Hiff.
      * split; [done|]. intros (a & u' & [= <-] & Hu' & Hl).
        rewrite Hsu in Hu'. injection Hu' as <-. apply Hiff in Hl. done.
    + rewrite lookup_insert_ne by done. rewrite <-Hu.
      destruct (has_value_lower attrs "unique" "true"); set_solver.
  - intros q. destruct (decide (q = p)) as [->|Hne].
    + rewrite lookup_insert_eq. unfold merge_in.
      destruct (attrs !! "merge") as [m|] eqn:Hmerge.
      * destruct (elem m _) eqn:He.
        -- apply elem_elem in He. split; [|set_solver]. intros _.
           eexists. split; [done|]. exists m. by rewrite stored_merge.
        -- split; [done|]. intros (a & [= <-] & m' & Hm' & Hin).
           rewrite stored_merge, Hmerge in Hm'. injection Hm' as <-.
           apply elem_elem in Hin. congruence.
      * split; [done|]. intros (a & [= <-] & m' & Hm' & Hin).
        rewrite stored_merge, Hmerge in Hm'. done.
    + rewrite lookup_insert_ne by done. rewrite <-Hm.
      destruct (attrs !! "merge") as [m|]; [|done].
      destruct (elem m _); set_solver.
  - intros q a. destruct (decide (q = p)) as [->|Hne].
    + rewrite lookup_insert_eq. intros [= <-] (m & Hm' & Hin).
      rewrite stored_merge in Hm'. rewrite Hm'.
      apply elem_elem in Hin. rewrite Hin.
      destruct (bool_decide _); set_solver.
    + rewrite lookup_insert_ne by done. intros Hq Hin.
      pose proof (Hs1 q a Hq Hin).
      destruct (attrs !! "merge") as [m|]; [|done].
      destruct (elem m _), (bool_decide _); set_solver.
  - intros q Hq. destruct (decide (q = p)) as [->|Hne].
    + rewrite lookup_insert_eq. eexists. split; [done|].
      unfold merge_in. rewrite stored_merge.
      destruct (attrs !! "merge") as [m|] eqn:Hmerge; [|done].
      destruct (elem m _) eqn:He.
      * left. exists m. split; [done|]. by apply elem_elem.
      * right. split; [by eexists|].
        destruct (bool_decide (p ∈ dom (parentmapping et))) eqn:Hd.
        -- by apply bool_decide_eq_true in Hd.
        -- done.
    + rewrite lookup_insert_ne by done. apply Hs2.
      destruct (attrs !! "merge") as [m|]; [|done].
      destruct (elem m _), (bool_decide _); set_solver.
Qed.

Lemma AddNewEventType_lookup name attrs self self' other :
  AddNewEventType name attrs self = Ok self' →
  EventTypes self' !! other
  = if decide (other = name)
    then Some (mkEventType attrs ∅ ∅ ∅ ∅ ∅ ∅ ∅ false None)
    else EventTypes self !! other.
Proof.
  unfold AddNewEventType. intros H.
  apply bind_Ok in H as ([] & _ & H). apply bind_Ok in H as (c & _ & H).
  injection H as <-. simpl. destruct (decide (other = name)) as [->|Hne].
  - apply lookup_insert_eq.
  - by apply lookup_insert_ne.
Qed.

Lemma SetNewEventTypeParent_lookup name attrs self self' other et' :
  SetNewEventTypeParent name attrs self = Ok self' →
  EventTypes self' !! other = Some et' →
  ∃ et, EventTypes self !! other = Some et
        ∧ properties et' = properties et
        ∧ unique_properties et' = unique_properties et
        ∧ mandatory_properties et' = mandatory_properties et
        ∧ singleton_properties et' = singleton_properties et
        ∧ unique et' = unique et
        ∧ dom (parentmapping et) ⊆ dom (parentmapping et').
Proof.
  unfold SetNewEventTypeParent. intros H.
  apply bind_Ok in H as (et & Het & H). apply getitem_Ok in Het.
  destruct (attrs !! "propertymap") as [pm|]; [|discriminate].
  apply bind_Ok in H as (m & Hm & H). injection H as <-. simpl.
  apply property_map_dom in Hm.
  destruct (decide (other = name)) as [->|Hne].
  - rewrite lookup_insert_eq. intros [= <-]. by exists et.
  - rewrite lookup_insert_ne by done. intros Ho. by exists et'.
Qed.

(** X8.  Every event type of a registry built by the registration functions:
    its unique flag says that it has unique properties; its unique
    properties are those registered with unique="true" (in any case); its
    mandatory properties are those registered with merge strategy match,
    min or max; a property registered with merge strategy match, replace,
    min or max is a singleton property; and a singleton property has one of
    these strategies or has a merge attribute and appears in the parent
    map. *)
Lemma registry_derived_sets self name et :
  reachable self → EventTypes self !! name = Some et → derived_sets et.
Proof.
  intros Hreach. revert name et.
  induction Hreach as
    [|self n attrs self' _ IH H|self n attrs self' _ IH H
     |self n p attrs self' _ IH H]; intros name et Het.
  - unfold init in Het. simpl in Het. by rewrite lookup_empty in Het.
  - unfold AddEventType in H.
    destruct (EventTypes self !! n) as [et0|] eqn:Hn.
    + apply bind_Ok in H as ([] & _ & [= <-]). by eapply IH.
    + rewrite (AddNewEventType_lookup _ _ _ _ _ H) in Het.
      destruct (decide (name = n)).
      * injection Het as <-. apply derived_sets_fresh.
      * by eapply IH.
  - unfold SetEventTypeParent in H.
    apply bind_Ok in H as (et0 & Het0 & H).
    destruct (parent et0).
    + apply bind_Ok in H as (d & _ & H).
      apply bind_Ok in H as ([] & _ & [= <-]). by eapply IH.
    + destruct (SetNewEventTypeParent_lookup _ _ _ _ _ _ H Het)
        as (et1 & Het1 & Hp & Hu & Hm & Hs & Hf & Hd).
      destruct (IH _ _ Het1) as [I1 I2 I3 I4 I5].
      split; rewrite ?Hp, ?Hu, ?Hm, ?Hs, ?Hf; try done.
      intros q Hq. destruct (I5 q Hq) as (a & Ha & [?|[? ?]]).
      * exists a. split; [done|by left].
      * exists a. split; [done|]. right. split; [done|]. by apply Hd.
  - unfold AddProperty in H. apply bind_Ok in H as (et0 & Het0 & H).
    apply getitem_Ok in Het0.
    destruct (properties et0 !! p) as [cur|] eqn:Hp.
    + apply bind_Ok in H as ([] & _ & [= <-]). by eapply IH.
    + destruct (AddNewProperty_derived_sets _ _ _ _ _ _ Het0 Hp
                  (IH _ _ Het0) H) as (et' & Het' & Hinv & Hother).
      destruct (decide (name = n)) as [->|Hne].
      * rewrite Het' in Het. by injection Het as <-.
      * rewrite Hother in Het by done. by eapply IH.
Qed.

(** C7.  The claim: a property is a singleton property iff its merge
    strategy is match, replace, min or max, or it appears in the parent
    map.  The code: the test of the parent map sits under
    [if 'merge' in Attributes], so a property of the parent map that is
    registered without a merge attribute (the default, drop) is left out,
    while the same property registered with merge="drop" is put in. *)
Theorem AddNewProperty_parent_map_needs_merge_attribute :
  (∃ self et,
     child_registry [] = Ok self ∧ EventTypes self !! "e" = Some et
     ∧ is_Some (properties et !! "p")
     ∧ parentmapping et !! "p" = Some "q"
     ∧ "p" ∉ singleton_properties et)
  ∧ (∃ self et,
       child_registry [("merge", "drop")] = Ok self
       ∧ EventTypes self !! "e" = Some et
       ∧ is_Some (properties et !! "p")
       ∧ parentmapping et !! "p" = Some "q"
       ∧ "p" ∈ singleton_properties et).
Proof.
  split.
  - exists (registered (child_registry [])),
      (eventtype_e (registered (child_registry []))).
    split; [vm_compute; reflexivity|]. split; [vm_compute; reflexivity|].
    split; [vm_compute; eexists; reflexivity|].
    split; [vm_compute; reflexivity|].
    apply (bool_decide_eq_false_1 _). vm_compute. reflexivity.
  - exists (registered (child_registry [("merge", "drop")])),
      (eventtype_e (registered (child_registry [("merge", "drop")]))).
    split; [vm_compute; reflexivity|]. split; [vm_compute; reflexivity|].
    split; [vm_compute; eexists; reflexivity|].
    split; [vm_compute; reflexivity|].
    apply (bool_decide_eq_true_1 _). vm_compute. reflexivity.
Qed.

(** ** Consistency of a definition with an earlier one *)

Lemma check_retained_Ok Entity Descr (cur upd : gmap string string) k v1 v2 :
  cur !! k = Some v1 → upd !! k = Some v2 →
  check_retained Entity Descr cur upd k = Ok () ↔ v1 = v2.
Proof.
  intros H1 H2. unfold check_retained, getitem. rewrite H1, H2. simpl.
  destruct (String.eqb_spec v1 v2); simpl; split; try done.
Qed.

Lemma check_added_Ok Entity Descr (upd : gmap string string) k v :
  upd !! k = Some v →
  check_added Entity Descr upd k = Ok () ↔ optional_default Entity k v.
Proof.
  intros Hk. unfold check_added, optional_default, getitem.
  destruct (attribute_spec Entity k) as [spec|e]; simpl.
  - destruct (mandatory spec) eqn:Hm.
    { split; [done|]. intros (s & [= <-] & ? & _). congruence. }
    destruct (default_ spec) as [dflt|] eqn:Hd.
    + rewrite Hk. simpl. destruct (String.eqb_spec v dflt); simpl.
      * subst. split; [|done]. intros _. by exists spec.
      * split; [done|]. intros (s & [= <-] & _ & ?). congruence.
    + split; [done|]. intros (s & [= <-] & _ & ?). congruence.
  - split; [done|]. by intros (s & [=] & _).
Qed.

Lemma check_removed_Ok Entity Descr (cur : gmap string string) k v :
  cur !! k = Some v →
  check_removed Entity Descr cur k = Ok () ↔ optional_default Entity k v.
Proof.
  intros Hk. unfold check_removed, optional_default, getitem.
  destruct (attribute_spec Entity k) as [spec|e]; simpl.
  - destruct (mandatory spec) eqn:Hm.
    { split; [done|]. intros (s & [= <-] & ? & _). congruence. }
    destruct (default_ spec) as [dflt|] eqn:Hd.
    + rewrite Hk. simpl. destruct (String.eqb_spec v dflt); simpl.
      * subst. split; [|done]. intros _. by exists spec.
      * split; [done|]. intros (s & [= <-] & _ & ?). congruence.
    + split; [done|]. intros (s & [= <-] & _ & ?). congruence.
  - split; [done|]. by intros (s & [=] & _).
Qed.

(** C6.  On re-registration the consistency check succeeds exactly when
    every attribute present in both definitions has the same value in both,
    every attribute present only in the new definition is optional and has
    its documented default as value, and every attribute present only in
    the old definition is optional and had its documented default as value;
    in every other case it raises.  The entity kind parent has no
    attribute table, so no attribute of a parent may appear or
    disappear. *)
Theorem CheckEdxmlEntityConsistency_accepts_iff
    (Entity EntityDescription : string) (cur upd : gmap string string) :
  CheckEdxmlEntityConsistency Entity EntityDescription cur upd = Ok ()
  ↔ (∀ k v1 v2, cur !! k = Some v1 → upd !! k = Some v2 → v1 = v2)
    ∧ (∀ k v, upd !! k = Some v → cur !! k = None →
              optional_default Entity k v)
    ∧ (∀ k v, cur !! k = Some v → upd !! k = None →
              optional_default Entity k v).
Proof.
  unfold CheckEdxmlEntityConsistency.
  rewrite bind_Ok. setoid_rewrite bind_Ok.
  split.
  - intros ([] & Hret & [] & Hadd & Hrem).
    rewrite for_each_Ok in Hret, Hadd, Hrem.
    split; [|split].
    + intros k v1 v2 H1 H2.
      eapply check_retained_Ok; [done..|]. apply Hret.
      apply elem_of_elements, elem_of_intersection.
      split; apply elem_of_dom; eauto.
    + intros k v H1 H2. eapply check_added_Ok; [done|]. apply Hadd.
      apply elem_of_elements, elem_of_difference.
      split; [apply elem_of_dom; eauto|]. by apply not_elem_of_dom.
    + intros k v H1 H2. eapply check_removed_Ok; [done|]. apply Hrem.
      apply elem_of_elements, elem_of_difference.
      split; [apply elem_of_dom; eauto|]. by apply not_elem_of_dom.
  - intros (Hret & Hadd & Hrem).
    exists (). split; [|exists (); split]; apply for_each_Ok; intros k Hk.
    + apply elem_of_elements, elem_of_intersection in Hk as [Hu Hc].
      apply elem_of_dom in Hu as [v2 Hu]. apply elem_of_dom in Hc as [v1 Hc].
      eapply check_retained_Ok; eauto.
    + apply elem_of_elements, elem_of_difference in Hk as [Hu Hc].
      apply elem_of_dom in Hu as [v Hu]. apply not_elem_of_dom in Hc.
      eapply check_added_Ok; eauto.
    + apply elem_of_elements, elem_of_difference in Hk as [Hc Hu].
      apply elem_of_dom in Hc as [v Hc]. apply not_elem_of_dom in Hu.
      eapply check_removed_Ok; eauto.
Qed.

(** Scenario S6: an event type registered again with another description
    is refused, and the message names the attribute. *)
Lemma AddEventType_S6 :
  ∃ self,
    AddEventType "e" (eventtype_attrs "e") init = Ok self
    ∧ AddEventType "e" (<["description" := "changed"]> (eventtype_attrs "e"))
        self
      = Error ("Attribute description of eventtype 'e' does not match previous definition:"
                 +:+ nl +:+ "New:      changed" +:+ nl
                 +:+ "Existing: an event" +:+ nl)
    ∧ AddEventType "e" (eventtype_attrs "e") self = Ok self
    ∧ AddEventType "e" (<["display-name" := "/"]> (eventtype_attrs "e")) self
      = Ok self.
Proof.
  eexists. split; [vm_compute; reflexivity|].
  repeat split; vm_compute; reflexivity.
Qed.

(** ** Merging events *)

Lemma clean_Ok {A} (a : A) : clean (Ok a).
Proof. intros e [=]. Qed.

Lemma clean_bind {A B} (f : A → result B) (r : result A) :
  clean r → (∀ a, clean (f a)) → clean (r ≫= f).
Proof.
  intros Hr Hf e. destruct r as [a|e']; [exact (Hf a e)|].
  intros [= <-]. by apply Hr.
Qed.

Lemma clean_builtin {A} (e : exn) :
  (∀ m, e ≠ EDXMLError m) → clean (@Raise A e).
Proof. intros He e' [= <-] [et Het]. by eapply He. Qed.

Lemma clean_Error_E {A} (m : string) (c : ascii) :
  c ≠ "M"%char → clean (@Error A (String c m)).
Proof.
  intros Hc e [= <-] [et [= Het]]. done.
Qed.

Ltac clean_step :=
  lazymatch goal with
  | |- clean (mbind _ _) => apply clean_bind; [|intros ?]
  | |- clean (Ok _) => apply clean_Ok
  | |- clean (Raise _) => apply clean_builtin; discriminate
  | |- clean (Error _) => apply clean_Error_E; discriminate
  | |- clean (if ?b then _ else _) => destruct b
  | |- clean (match ?x with _ => _ end) => destruct x
  | |- clean (let '(_, _) := ?x in _) => destruct x
  end.
Ltac clean_tac := repeat clean_step; eauto.

Lemma clean_getitem {K A} `{Countable K} (d : gmap K A) k : clean (getitem d k).
Proof. unfold getitem. clean_tac. Qed.
Lemma clean_index {A} (l : list A) i : clean (index l i).
Proof. unfold index. clean_tac. Qed.
Lemma clean_str_ s : clean (str_ s).
Proof. unfold str_. clean_tac. Qed.
Lemma clean_int s : clean (Py.int s).
Proof. unfold Py.int. clean_tac. Qed.
Lemma clean_float s : clean (PyFloat.of_string s).
Proof. unfold PyFloat.of_string. clean_tac. Qed.
Lemma clean_decimal s : clean (PyDecimal.of_string s).
Proof. unfold PyDecimal.of_string. clean_tac. Qed.
#[local] Hint Resolve clean_getitem clean_index clean_str_ clean_int
  clean_float clean_decimal : core.

Lemma clean_decimal_item s : clean (decimal_item s).
Proof. unfold decimal_item. clean_tac. Qed.
Lemma clean_map_result {A B} (f : A → result B) l :
  (∀ x, clean (f x)) → clean (map_result f l).
Proof. intros Hf. induction l; simpl; clean_tac. Qed.
Lemma clean_best {A} (below : A → A → bool) l : clean (best below l).
Proof. unfold best. clean_tac. Qed.
Lemma clean_lt x y : clean (PyDecimal.lt x y).
Proof. unfold PyDecimal.lt. clean_tac. Qed.
Lemma clean_best_decimal is_min l : clean (best_decimal is_min l).
Proof.
  unfold best_decimal. destruct l as [|x l]; [clean_tac|].
  generalize (Ok x : result PyDecimal.decimal) (clean_Ok x).
  induction l as [|y l IH]; simpl; [done|].
  intros acc Hacc. apply IH. pose proof clean_lt. clean_tac.
Qed.
#[local] Hint Resolve clean_decimal_item clean_map_result clean_best
  clean_best_decimal : core.

Lemma clean_GetPropertyObjectType self et p :
  clean (GetPropertyObjectType self et p).
Proof. unfold GetPropertyObjectType. clean_tac. Qed.
Lemma clean_GetObjectTypeDataType self ot :
  clean (GetObjectTypeDataType self ot).
Proof. unfold GetObjectTypeDataType. clean_tac. Qed.
#[local] Hint Resolve clean_GetPropertyObjectType
  clean_GetObjectTypeDataType : core.

Lemma clean_merge_min_max is_min dt p Source Target :
  clean (merge_min_max is_min dt p Source Target).
Proof. unfold merge_min_max. clean_tac. Qed.
#[local] Hint Resolve clean_merge_min_max : core.

Lemma clean_merge_property self et Source Target p :
  clean (merge_property self et Source Target p).
Proof. unfold merge_property. clean_tac. Qed.
#[local] Hint Resolve clean_merge_property : core.

Lemma clean_merge_loop self et Source keys Target :
  clean (merge_loop self et Source keys Target).
Proof. revert Target. induction keys; intros; simpl; clean_tac. Qed.

Lemma clean_remove_loop self et names Target :
  clean (remove_loop self et names Target).
Proof. revert Target. induction names; intros; simpl; clean_tac. Qed.

Lemma clean_event_updated names Original Target :
  clean (event_updated names Original Target).
Proof. induction names; simpl; clean_tac. Qed.
#[local] Hint Resolve clean_merge_loop clean_remove_loop
  clean_event_updated : core.

(** C9.  [MergeEvents] raises the unsupported-operation error whenever
    the event type is not unique, and does not raise it when the event
    type is unique. *)
Theorem MergeEvents_unsupported_operation
    (self : Definitions) (EventTypeName : string) (et : EventType)
    (a b : nat) (h : store) :
  EventTypes self !! EventTypeName = Some et →
  (unique et = false →
     MergeEvents self EventTypeName a b h
     = Raise (unsupported_operation EventTypeName))
  ∧ (unique et = true →
     ∀ name, MergeEvents self EventTypeName a b h
             ≠ Raise (unsupported_operation name)).
Proof.
  intros Het. unfold MergeEvents, merge_objects, getitem. rewrite Het. simpl.
  split; intros Hu; rewrite Hu; simpl; [done|].
  intros name Hraise.
  eapply (_ : clean _); [exact Hraise|by exists name].
  Unshelve. unfold GetEventTypeProperties. clean_tac.
Qed.

Lemma value_sets_go_lookup (names : list string)
    (E : gmap string (list string)) (acc : gmap string (gset string))
    (p : string) :
  foldl (λ (d : gmap string (gset string)) q,
           <[q := list_to_set (default [] (E !! q))]> d) acc names !! p
  = if decide (p ∈ names) then Some (value_set E p) else acc !! p.
Proof.
  revert acc. induction names as [|q names IH]; intros acc; cbn [foldl].
  - destruct (decide (p ∈ [])) as [H|]; [by apply elem_of_nil in H|done].
  - rewrite IH. destruct (decide (p ∈ names)) as [Hin|Hnin].
    + destruct (decide (p ∈ q :: names)) as [|Hn]; [done|].
      destruct Hn. by right.
    + destruct (decide (p ∈ q :: names)) as [[->|?]%elem_of_cons|Hn].
      * by rewrite lookup_insert_eq.
      * done.
      * rewrite lookup_insert_ne; [done|]. intros ->. apply Hn. left.
Qed.

Lemma value_sets_lookup names E p :
  value_sets names E !! p
  = if decide (p ∈ names) then Some (value_set E p) else None.
Proof. unfold value_sets. by rewrite value_sets_go_lookup, lookup_empty. Qed.

Lemma event_updated_true names Original Target :
  event_updated names Original Target = Ok true →
  ∃ p t, p ∈ names ∧ Target !! p = Some t
         ∧ (Original !! p = None ∨ ∃ o, Original !! p = Some o ∧ t ≠ o).
Proof.
  induction names as [|p names IH]; simpl; [discriminate|].
  intros H. apply bind_Ok in H as (fresh & Hfresh & H).
  destruct (bool_decide (p ∈ dom Original)) eqn:Hdom.
  - injection Hfresh as <-.
    apply bind_Ok in H as (t & Ht & H). apply bind_Ok in H as (o & Ho & H).
    unfold getitem in Ht, Ho.
    destruct (Target !! p) as [t'|] eqn:Ht'; [|discriminate].
    destruct (Original !! p) as [o'|] eqn:Ho'; [|discriminate].
    simplify_eq. destruct (bool_decide (t ≠ o)) eqn:Hne.
    + apply bool_decide_eq_true in Hne. exists p, t.
      split; [left|]. split; [done|]. right. by exists o.
    + destruct (IH H) as (q & t' & Hq & Hrest). exists q, t'.
      split; [by right|done].
  - apply bool_decide_eq_false in Hdom. apply not_elem_of_dom in Hdom.
    apply bind_Ok in Hfresh as (t & Ht & Hfresh).
    unfold getitem in Ht.
    destruct (Target !! p) as [t'|] eqn:Ht'; [|discriminate].
    simplify_eq. exists p, t. split; [left|]. split; [done|]. by left.
Qed.

Lemma merge_objects_Some self et A B A' :
  merge_objects self et A B = Ok (Some A') →
  ∃ p, value_set A' p ≠ value_set A p.
Proof.
  unfold merge_objects. intros H.
  apply bind_Ok in H as (e & _ & H).
  destruct (negb (unique e)); [discriminate|].
  apply bind_Ok in H as (names & _ & H).
  apply bind_Ok in H as (T1 & _ & H).
  apply bind_Ok in H as (Target & _ & H).
  apply bind_Ok in H as (upd & Hupd & H).
  destruct upd; [|discriminate]. injection H as <-.
  apply event_updated_true in Hupd as (p & t & Hp & Ht & Ho).
  exists p. rewrite value_sets_lookup, decide_True in Ho by done.
  destruct Ho as [?|(o & [= <-] & Hne)]; [done|].
  unfold value_set at 1. rewrite lookup_fmap, Ht. simpl.
  by rewrite list_to_set_elements_L.
Qed.

Lemma store_set_eq h a o : store_set h a o a = o.
Proof. unfold store_set. by rewrite Nat.eqb_refl. Qed.

Lemma store_set_ne h a o l : l ≠ a → store_set h a o l = h l.
Proof.
  intros Hne. unfold store_set.
  by destruct (Nat.eqb_spec l a).
Qed.

(** C4.  Whenever [MergeEvents] returns, it returns true iff the set of
    objects of some property in [EventObjectsA] after the call differs
    from the set before the call; and in scenario S4 it returns true and
    leaves a: x, y; m: 3; r: new; u: k in [EventObjectsA]. *)
Theorem MergeEvents_changed_iff :
  (∀ (self : Definitions) (EventTypeName : string) (a b : nat)
     (h h' : store) (changed : bool),
     MergeEvents self EventTypeName a b h = Ok (changed, h') →
     changed = true ↔ ∃ p, value_set (h' a) p ≠ value_set (h a) p)
  ∧ ∃ h', MergeEvents S4_registry "e" 0 1 (two_events S4_A S4_B)
          = Ok (true, h')
          ∧ h' 0%nat = S4_A' ∧ h' 1%nat = S4_B.
Proof.
  split.
  - intros self et a b h h' changed H. unfold MergeEvents in H.
    apply bind_Ok in H as ([A'|] & Hm & H); simplify_eq.
    + split; [intros _|done]. rewrite store_set_eq.
      by eapply merge_objects_Some.
    + split; [done|]. by intros [p Hp].
  - eexists. split; [vm_compute; reflexivity|]. split; vm_compute; reflexivity.
Qed.



Lemma value_sets_is_Some names E p :
  p ∈ names → is_Some (value_sets names E !! p).
Proof. intros Hp. rewrite value_sets_lookup, decide_True by done. eauto. Qed.

Lemma value_sets_dom names E p : p ∈ dom (value_sets names E) ↔ p ∈ names.
Proof.
  rewrite elem_of_dom, value_sets_lookup. destruct (decide (p ∈ names)).
  - split; eauto.
  - split; [by intros [? ?]|done].
Qed.

Lemma merge_property_total self etn et names Source Target p :
  EventTypes self !! etn = Some et → simple_strategies et names →
  p ∈ names →
  (∀ q, q ∈ names → is_Some (Source !! q)) →
  (∀ q, q ∈ names → is_Some (Target !! q)) →
  ∃ T', merge_property self etn Source Target p = Ok T'
        ∧ ∀ q, q ∈ names → is_Some (T' !! q).
Proof.
  intros Het Hsimple Hp HS HT. unfold merge_property, getitem.
  rewrite Het. simpl. destruct (bool_decide (p ∈ unique_properties et)) eqn:Hu.
  { by exists Target. }
  apply bool_decide_eq_false in Hu.
  destruct (Hsimple p Hp) as [?|(attrs & m & Ha & Hm & Hmm)]; [done|].
  rewrite Ha. simpl. rewrite Hm. simpl. rewrite Hmm.
  destruct (HS p Hp) as [src Hsrc]. destruct (HT p Hp) as [tgt Htgt].
  rewrite Hsrc. simpl.
  destruct (String.eqb m "add").
  { rewrite Htgt. simpl. eexists. split; [done|]. intros q Hq.
    rewrite lookup_insert. case_decide; eauto. }
  destruct (String.eqb m "replace").
  { eexists. split; [done|]. intros q Hq.
    rewrite lookup_insert. case_decide; eauto. }
  by exists Target.
Qed.

Lemma merge_loop_total self etn et names Source keys Target :
  EventTypes self !! etn = Some et → simple_strategies et names →
  (∀ k, k ∈ keys → k ∈ names) →
  (∀ q, q ∈ names → is_Some (Source !! q)) →
  (∀ q, q ∈ names → is_Some (Target !! q)) →
  ∃ T', merge_loop self etn Source keys Target = Ok T'
        ∧ ∀ q, q ∈ names → is_Some (T' !! q).
Proof.
  intros Het Hsimple Hkeys HS. revert Target Hkeys.
  induction keys as [|k keys IH]; intros Target Hkeys HT; simpl.
  - by exists Target.
  - destruct (merge_property_total self etn et names Source Target k)
      as (T1 & -> & HT1); auto.
    { apply Hkeys. left. }
    simpl. apply IH; [|done]. intros k' Hk'. apply Hkeys. by right.
Qed.

Lemma event_updated_total names Original Target :
  (∀ q, q ∈ names → is_Some (Original !! q)) →
  (∀ q, q ∈ names → is_Some (Target !! q)) →
  ∃ b, event_updated names Original Target = Ok b.
Proof.
  induction names as [|p names IH]; intros HO HT; simpl; [by eexists|].
  destruct (HO p) as [o Ho]; [left|]. destruct (HT p) as [t Ht]; [left|].
  rewrite bool_decide_eq_true_2 by (apply elem_of_dom; eauto). simpl.
  unfold getitem. rewrite Ht, Ho. simpl.
  destruct (bool_decide (t ≠ o)); [by eexists|].
  apply IH; intros q Hq; [apply HO|apply HT]; by right.
Qed.

Lemma filter_none {A} (f : A → bool) (l : list A) :
  (∀ x, x ∈ l → f x = false) → List.filter f l = [].
Proof.
  induction l as [|x l IH]; intros Hf; simpl; [done|].
  rewrite Hf by left. apply IH. intros y Hy. apply Hf. by right.
Qed.

(** [MergeEvents] returns, for every pair of events, when the event type
    is unique and each of its properties is unique or merges by drop, add,
    replace or match. *)
Lemma MergeEvents_returns self etn et names a b h :
  EventTypes self !! etn = Some et → unique et = true →
  PropertyNames self !! etn = Some names → simple_strategies et names →
  ∃ changed h', MergeEvents self etn a b h = Ok (changed, h').
Proof.
  intros Het Hu Hnames Hsimple.
  unfold MergeEvents, merge_objects, GetEventTypeProperties, getitem.
  rewrite Het. simpl. rewrite Hu, Hnames. simpl.
  destruct (merge_loop_total self etn et names (value_sets names (h b))
              (elements (dom (value_sets names (h b))))
              (value_sets names (h a)))
    as (T & -> & HT); auto using value_sets_is_Some.
  { intros k Hk. by apply elem_of_elements, value_sets_dom in Hk. }
  simpl. rewrite filter_none.
  2: { intros p Hp. apply andb_false_iff. left. apply negb_false_iff.
       apply bool_decide_eq_true. by apply value_sets_dom. }
  simpl.
  destruct (event_updated_total names (value_sets names (h a)) T)
    as [upd ->]; auto using value_sets_is_Some.
  simpl. destruct upd; by eexists _, _.
Qed.

(** ** Sticky hashes *)

Lemma elem_float dt1 :
  elem dt1 ["float"; "double"]%string = true
  ↔ dt1 = "float"%string ∨ dt1 = "double"%string.
Proof.
  unfold elem. cbn [existsb]. rewrite orb_false_r, orb_true_iff, !String.eqb_eq.
  done.
Qed.

Lemma data_type_of_lookups self etn et p dt :
  EventTypes self !! etn = Some et →
  data_type_of self et p dt ↔
  ∃ ot, GetPropertyObjectType self etn p = Ok ot
        ∧ GetObjectTypeDataType self ot = Ok dt.
Proof.
  intros Het. unfold data_type_of, GetPropertyObjectType,
    GetObjectTypeDataType. rewrite Het. split.
  - intros (attrs & ot & ota & Hp & Hot & Hota & Hdt). exists ot.
    rewrite Hp. split; [by apply getitem_Ok|].
    apply bind_Ok. exists ota. by rewrite !getitem_Ok.
  - intros (ot & Hot & Hdt).
    destruct (properties et !! p) as [attrs|] eqn:Hp.
    + apply getitem_Ok in Hot. apply bind_Ok in Hdt as (ota & Hota & Hdt).
      apply getitem_Ok in Hota, Hdt. by exists attrs, ot, ota.
    + unfold Error in Hot. by repeat (destruct (str_ _); simplify_eq/=).
Qed.

Lemma hash_object_outcome self etn et acc o acc' :
  EventTypes self !! etn = Some et →
  hash_object self etn acc o = Ok acc'
  ↔ ∃ r, outcome self et o r ∧ acc' = add_outcome r acc.
Proof.
  intros Het. destruct o as [p v]. unfold hash_object.
  assert (getitem (EventTypes self) etn = Ok et) as -> by by apply getitem_Ok.
  simpl. split.
  - destruct (unique et && negb (bool_decide (p ∈ unique_properties et)))
      eqn:Hskip.
    { apply andb_true_iff in Hskip as [Hu Hp].
      apply negb_true_iff, bool_decide_eq_false_1 in Hp.
      intros [= <-]. exists None. split; [|done]. by apply skip_non_unique. }
    assert (unique et = false ∨ p ∈ unique_properties et) as Hkeep.
    { apply andb_false_iff in Hskip as [Hu|Hp]; [by left|right].
      by apply negb_false_iff, bool_decide_eq_true_1 in Hp. }
    intros H. apply bind_Ok in H as (ot & Hot & H).
    apply bind_Ok in H as (dt & Hdt & H).
    assert (data_type_of self et p dt) as Hdto
      by (eapply data_type_of_lookups; eauto).
    apply bind_Ok in H as (dt0 & Hdt0 & H). apply index_Ok in Hdt0.
    destruct (Py.split ":" dt) as [|dt0' rest] eqn:Hsplit; [done|].
    cbn in Hdt0. injection Hdt0 as ->.
    apply bind_Ok in H as (fl & Hfl & H).
    assert (fl = true ∧ float_type dt ∨ fl = false ∧ exact_type dt)
      as [[-> Hty]|[-> Hty]].
    { unfold float_type, exact_type. rewrite Hsplit.
      destruct (String.eqb_spec dt0 "number") as [->|Hnum].
      - apply bind_Ok in Hfl as (dt1 & Hdt1 & Hfl). apply index_Ok in Hdt1.
        destruct rest as [|dt1' rest']; [done|].
        cbn in Hdt1. injection Hdt1 as ->. injection Hfl as <-.
        destruct (elem dt1 _) eqn:Helem.
        + left. split; [done|]. apply elem_float in Helem.
          by exists dt1, rest'.
        + right. split; [done|]. exists "number"%string, (dt1 :: rest').
          split; [done|]. right. exists dt1, rest'. split; [done|].
          split; intros ->; by rewrite (proj2 (elem_float _)) in Helem by eauto.
      - injection Hfl as <-. right. split; [done|]. exists dt0, rest.
        split; [done|]. by left. }
    { injection H as <-. exists None. split; [|done].
      by eapply skip_float. }
    apply bind_Ok in H as (nv & Hnv & H). injection H as <-.
    exists (Some (p +:+ ":" +:+ nv)). split; [|done].
    eapply keep; eauto. rewrite Hsplit.
    destruct (NormalizeObject v _) as [nv'|[]]; try done.
    by destruct (is_ascii _).
  - intros (r & Hout & ->). inversion Hout as
      [p' v' Hu Hp|p' v' dt Hk Hdto (dt1 & rest & Hsplit & Hfl)
      |p' v' dt nv Hk Hdto (dt0 & rest & Hsplit & Hex) Hnorm]; subst; simpl.
    + rewrite Hu. simpl. by rewrite bool_decide_eq_false_2.
    + assert (unique et && negb (bool_decide (p ∈ unique_properties et))
              = false) as ->.
      { destruct Hk as [->|Hk]; [done|].
        rewrite (bool_decide_eq_true_2 _ Hk). by rewrite andb_false_r. }
      eapply data_type_of_lookups in Hdto as (ot & Hot & Hdt); [|done].
      rewrite Hot. simpl. rewrite Hdt. simpl. rewrite Hsplit. simpl.
      by rewrite (proj2 (elem_float dt1)).
    + assert (unique et && negb (bool_decide (p ∈ unique_properties et))
              = false) as ->.
      { destruct Hk as [->|Hk]; [done|].
        rewrite (bool_decide_eq_true_2 _ Hk). by rewrite andb_false_r. }
      eapply data_type_of_lookups in Hdto as (ot & Hot & Hdt); [|done].
      rewrite Hot. simpl. rewrite Hdt. simpl. rewrite Hsplit in *. simpl.
      destruct Hex as [Hne|(dt1 & rest' & -> & Hf & Hd)].
      * destruct (String.eqb_spec dt0 "number"); [done|]. simpl.
        by rewrite Hnorm.
      * destruct (String.eqb_spec dt0 "number"); simpl.
        -- destruct (elem dt1 _) eqn:Helem.
           { apply elem_float in Helem as [?|?]; done. }
           by rewrite Hnorm.
        -- by rewrite Hnorm.
Qed.

Lemma elem_of_add_outcome r (S : gset string) s :
  s ∈ add_outcome r S ↔ r = Some s ∨ s ∈ S.
Proof.
  destruct r as [s'|]; simpl.
  - rewrite elem_of_union, elem_of_singleton. split.
    + intros [->|?]; auto.
    + intros [[= ->]|?]; auto.
  - split; [auto|]. by intros [?|?].
Qed.

Lemma outcome_functional self et o r1 r2 etn :
  EventTypes self !! etn = Some et →
  outcome self et o r1 → outcome self et o r2 → r1 = r2.
Proof.
  intros Het H1 H2.
  assert (hash_object self etn ∅ o = Ok (add_outcome r1 ∅)) as E1
    by (eapply hash_object_outcome; eauto).
  assert (hash_object self etn ∅ o = Ok (add_outcome r2 ∅)) as E2
    by (eapply hash_object_outcome; eauto).
  rewrite E1 in E2. injection E2 as E.
  destruct r1 as [s1|], r2 as [s2|]; simpl in E; try done.
  - f_equal. assert (s1 ∈ ({[s2]} ∪ ∅ : gset string)) as Hin.
    { rewrite <-E. apply elem_of_union_l. by apply elem_of_singleton. }
    apply elem_of_union in Hin as [Hin|Hin]; [|by apply elem_of_empty in Hin].
    by apply elem_of_singleton in Hin.
  - assert (s1 ∈ (∅ : gset string)) as Hin.
    { rewrite <-E. apply elem_of_union_l. by apply elem_of_singleton. }
    by apply elem_of_empty in Hin.
  - assert (s2 ∈ (∅ : gset string)) as Hin.
    { rewrite E. apply elem_of_union_l. by apply elem_of_singleton. }
    by apply elem_of_empty in Hin.
Qed.

Lemma object_strings_Ok self etn et l acc S :
  EventTypes self !! etn = Some et →
  object_strings self etn l acc = Ok S →
  (∀ o, o ∈ l → ∃ r, outcome self et o r)
  ∧ (∀ s, s ∈ S ↔ s ∈ acc ∨ ∃ o, o ∈ l ∧ outcome self et o (Some s)).
Proof.
  intros Het. revert acc. induction l as [|o l IH]; intros acc; simpl.
  - intros [= <-]. split; [by intros o ?%elem_of_nil|].
    intros s. split; [by left|]. intros [?|(o & ?%elem_of_nil & _)]; done.
  - intros H. apply bind_Ok in H as (acc1 & Hstep & H).
    apply (hash_object_outcome _ _ et) in Hstep as (r & Hr & ->); [|done].
    apply IH in H as [Hall Hmem]. split.
    + intros o' [->|?]%elem_of_cons; eauto.
    + intros s. rewrite Hmem, elem_of_add_outcome. split.
      * intros [[->|?]|(o' & ? & ?)]; eauto.
        -- right. exists o. split; [left|done].
        -- right. exists o'. split; [by right|done].
      * intros [?|(o' & [->|?]%elem_of_cons & Ho')]; eauto.
        left. left. by eapply outcome_functional.
Qed.

Lemma object_strings_total self etn et l acc :
  EventTypes self !! etn = Some et →
  (∀ o, o ∈ l → ∃ r, outcome self et o r) →
  ∃ S, object_strings self etn l acc = Ok S.
Proof.
  intros Het. revert acc. induction l as [|o l IH]; intros acc Hall; simpl.
  - by eexists.
  - destruct (Hall o) as [r Hr]; [left|].
    assert (hash_object self etn acc o = Ok (add_outcome r acc)) as ->
      by (eapply hash_object_outcome; eauto).
    simpl. apply IH. intros o' Ho'. apply Hall. by right.
Qed.

Lemma sorted_unique (S : gset string) (l : list string) :
  Sorted String.le l → NoDup l → (∀ s, s ∈ l ↔ s ∈ S) → sorted S = l.
Proof.
  intros Hsorted Hnodup Hmem. unfold sorted.
  apply (Sorted_unique String.le); [apply Sorted_merge_sort, _|done|].
  rewrite merge_sort_Permutation. apply NoDup_Permutation.
  - apply NoDup_elements.
  - done.
  - intros s. by rewrite elem_of_elements, Hmem.
Qed.

(** C1.  For an event each of whose pairs has an outcome in step 1 of
    the hash procedure, let S be the sorted list without repetitions of
    the strings property:normalized_value that the pairs contribute.
    Then [ComputeStickyHash] returns the SHA-1 hex digest of the UTF-8
    encoding of event_type, newline, the strings of S joined by newlines
    (of the same followed by a newline and the content when the event type
    is not unique), and [ComputeStickyHashV3] the digest of the same
    preimage behind source_url and a newline. *)
Theorem ComputeStickyHash_preimage
    (self : Definitions) (EventTypeName SourceUrl : string) (et : EventType)
    (EventObjects : list (string * string)) (EventContent : string)
    (S : list string) :
  EventTypes self !! EventTypeName = Some et →
  (∀ o, o ∈ EventObjects → ∃ r, outcome self et o r) →
  Sorted String.le S → NoDup S →
  (∀ s, s ∈ S ↔ ∃ o, o ∈ EventObjects ∧ outcome self et o (Some s)) →
  ComputeStickyHash self EventTypeName EventObjects EventContent
  = Ok (sha1_utf8 (preimage et EventTypeName S EventContent))
  ∧ ComputeStickyHashV3 self EventTypeName SourceUrl EventObjects EventContent
    = Ok (sha1_utf8
            (preimage_v3 et SourceUrl EventTypeName S EventContent)).
Proof.
  intros Het Hall Hsorted Hnodup Hmem.
  destruct (object_strings_total self EventTypeName et EventObjects ∅ Het Hall)
    as [S0 HS0].
  pose proof (object_strings_Ok _ _ _ _ _ _ Het HS0) as [_ Hmem0].
  assert (sorted S0 = S) as Hsort.
  { apply sorted_unique; [done..|]. intros s. rewrite Hmem, Hmem0.
    split; [by right|]. intros [?|?]; [set_solver|done]. }
  unfold ComputeStickyHash, ComputeStickyHashV3, preimage_v3, preimage.
  rewrite HS0. simpl. rewrite (proj2 (getitem_Ok _ _ _) Het). simpl.
  rewrite Hsort. by destruct (unique et).
Qed.

Lemma float_property_skipped self et p v :
  float_property self et p → outcome self et (p, v) None.
Proof.
  intros (dt & Hdt & Hfl).
  destruct (unique et) eqn:Hu; [|by eapply skip_float; eauto].
  destruct (decide (p ∈ unique_properties et)).
  - by eapply skip_float; eauto.
  - by apply skip_non_unique.
Qed.

Lemma object_strings_same self etn et l1 l2 S :
  EventTypes self !! etn = Some et →
  same_up_to_floats self et l1 l2 →
  object_strings self etn l1 ∅ = Ok S →
  object_strings self etn l2 ∅ = Ok S.
Proof.
  intros Het [H12 H21] H1.
  pose proof (object_strings_Ok _ _ _ _ _ _ Het H1) as [Hall1 Hmem1].
  destruct (object_strings_total self etn et l2 ∅ Het) as [S2 H2].
  { intros [p v] Ho. destruct (H21 _ Ho) as [?|Hf]; [by apply Hall1|].
    exists None. by apply float_property_skipped. }
  pose proof (object_strings_Ok _ _ _ _ _ _ Het H2) as [_ Hmem2].
  rewrite H2. f_equal. apply set_eq. intros s. rewrite Hmem1, Hmem2.
  split; (intros [?|([p v] & Ho & Hout)]; [by left|right]).
  - destruct (H21 _ Ho) as [?|Hf]; [by exists (p, v)|].
    by pose proof (outcome_functional _ _ _ _ _ _ Het Hout
                     (float_property_skipped _ _ _ v Hf)).
  - destruct (H12 _ Ho) as [?|Hf]; [by exists (p, v)|].
    by pose proof (outcome_functional _ _ _ _ _ _ Het Hout
                     (float_property_skipped _ _ _ v Hf)).
Qed.

(** C2.  Two events of the same type, source and content that differ
    only in the order of their pairs, in repeated pairs or in the objects
    of properties of type number:float or number:double have the same
    digests: when either hash function returns a digest for the first
    event it returns that digest for the second. *)
Theorem sticky_hash_deterministic
    (self : Definitions) (EventTypeName SourceUrl : string) (et : EventType)
    (EventObjects1 EventObjects2 : list (string * string))
    (EventContent digest : string) :
  EventTypes self !! EventTypeName = Some et →
  same_up_to_floats self et EventObjects1 EventObjects2 →
  (ComputeStickyHash self EventTypeName EventObjects1 EventContent
   = Ok digest →
   ComputeStickyHash self EventTypeName EventObjects2 EventContent
   = Ok digest)
  ∧ (ComputeStickyHashV3 self EventTypeName SourceUrl EventObjects1
       EventContent = Ok digest →
     ComputeStickyHashV3 self EventTypeName SourceUrl EventObjects2
       EventContent = Ok digest).
Proof.
  intros Het Hsame. unfold ComputeStickyHash, ComputeStickyHashV3.
  split; intros H; apply bind_Ok in H as (S & HS & H);
    by rewrite (object_strings_same _ _ _ _ _ _ Het Hsame HS).
Qed.

Lemma hex_digit_lower x : 0 ≤ x < 16 → lower_hex (SHA1.hex_digit x) = true.
Proof.
  intros Hx.
  assert (x = 0 ∨ x = 1 ∨ x = 2 ∨ x = 3 ∨ x = 4 ∨ x = 5 ∨ x = 6 ∨ x = 7
          ∨ x = 8 ∨ x = 9 ∨ x = 10 ∨ x = 11 ∨ x = 12 ∨ x = 13 ∨ x = 14
          ∨ x = 15) as Hcases by lia.
  repeat (destruct Hcases as [->|Hcases]; [reflexivity|]).
  by subst.
Qed.

Lemma hex_word_format x :
  String.length (SHA1.hex_word x) = 8%nat
  ∧ all_chars lower_hex (SHA1.hex_word x) = true.
Proof.
  split; [reflexivity|]. unfold SHA1.hex_word.
  cbn [rev seq app fold_right all_chars].
  rewrite !hex_digit_lower; [done|apply Z.mod_pos_bound; lia..].
Qed.

(** A digest is a string of 40 lower-case hexadecimal digits. *)
Lemma sha1_utf8_format s :
  String.length (sha1_utf8 s) = 40%nat
  ∧ all_chars lower_hex (sha1_utf8 s) = true.
Proof.
  unfold sha1_utf8, SHA1.hexdigest.
  destruct (SHA1.blocks _ _ _) as [[[[h0 h1] h2] h3] h4].
  rewrite !length_append, !all_chars_append.
  pose proof (hex_word_format h0) as [-> ->].
  pose proof (hex_word_format h1) as [-> ->].
  pose proof (hex_word_format h2) as [-> ->].
  pose proof (hex_word_format h3) as [-> ->].
  pose proof (hex_word_format h4) as [-> ->].
  done.
Qed.

(** ** Instances on concrete registries *)

Lemma add_outcome_inj (r1 r2 : option string) :
  add_outcome r1 ∅ = add_outcome r2 ∅ → r1 = r2.
Proof.
  intros E. destruct r1 as [s1|], r2 as [s2|]; simpl in E; try done.
  - f_equal. assert (s1 ∈ ({[s2]} ∪ ∅ : gset string)) as Hin.
    { rewrite <-E. apply elem_of_union_l. by apply elem_of_singleton. }
    apply elem_of_union in Hin as [Hin|Hin]; [|by apply elem_of_empty in Hin].
    by apply elem_of_singleton in Hin.
  - assert (s1 ∈ (∅ : gset string)) as Hin.
    { rewrite <-E. apply elem_of_union_l. by apply elem_of_singleton. }
    by apply elem_of_empty in Hin.
  - assert (s2 ∈ (∅ : gset string)) as Hin.
    { rewrite E. apply elem_of_union_l. by apply elem_of_singleton. }
    by apply elem_of_empty in Hin.
Qed.

(** The outcome of a pair can be computed by running the loop body on the
    empty set. *)
Lemma outcome_computed self etn et o r :
  EventTypes self !! etn = Some et →
  hash_object self etn ∅ o = Ok (add_outcome r ∅) ↔ outcome self et o r.
Proof.
  intros Het. rewrite (hash_object_outcome _ _ et) by done. split.
  - intros (r' & Hr' & E). by apply add_outcome_inj in E as ->.
  - intros Hr. by exists r.
Qed.

Lemma ComputeStickyHash_preimage_witness :
  EventTypes S4_registry !! "e" = Some (eventtype_e S4_registry)
  ∧ ComputeStickyHash S4_registry "e" [("u", "k"); ("a", "x"); ("u", "k")]
      "ignored"
    = Ok (sha1_utf8 ("e" +:+ nl +:+ "u:k"))
  ∧ ComputeStickyHashV3 S4_registry "e" "/s"
      [("u", "k"); ("a", "x"); ("u", "k")] "ignored"
    = Ok (sha1_utf8 ("/s" +:+ nl +:+ "e" +:+ nl +:+ "u:k")).
Proof.
  assert (EventTypes S4_registry !! "e" = Some (eventtype_e S4_registry))
    as Het by (vm_compute; reflexivity).
  assert (outcome S4_registry (eventtype_e S4_registry) ("u", "k")
            (Some "u:k")) as Hu
    by (apply (outcome_computed _ "e"); [exact Het|vm_compute; reflexivity]).
  assert (outcome S4_registry (eventtype_e S4_registry) ("a", "x") None)
    as Ha
    by (apply (outcome_computed _ "e"); [exact Het|vm_compute; reflexivity]).
  split; [exact Het|].
  destruct (ComputeStickyHash_preimage S4_registry "e" "/s"
              (eventtype_e S4_registry)
              [("u", "k"); ("a", "x"); ("u", "k")] "ignored" ["u:k"] Het)
    as [H2 H3].
  - (intros o Ho; repeat (apply elem_of_cons in Ho as [->|Ho])).
    + (exists (Some "u:k"%string); exact Hu).
    + (exists None). (exact Ha).
    + (exists (Some "u:k"%string); exact Hu).
    + (apply elem_of_nil in Ho). (destruct Ho).
  - (apply Sorted_cons; [apply Sorted_nil|apply HdRel_nil]).
  - (apply NoDup_singleton).
  - intros s. split.
    + (intros ->%list_elem_of_singleton). exists ("u", "k"). (split; [left|exact Hu]).
    + intros (o & Ho & Hout). apply list_elem_of_singleton.
      (repeat (apply elem_of_cons in Ho as [->|Ho])).
      * (pose proof (outcome_functional _ _ _ _ _ _ Het Hout Hu) as E).
        (by injection E).
      * pose proof (outcome_functional _ _ _ _ _ _ Het Hout Ha) as E.
        discriminate E.
      * pose proof (outcome_functional _ _ _ _ _ _ Het Hout Hu) as E.
        by injection E.
      * apply elem_of_nil in Ho. destruct Ho.
  - (split; [rewrite H2|rewrite H3]; vm_compute; reflexivity).
Defined.

Lemma sticky_hash_deterministic_witness :
  EventTypes measure_registry !! "e" = Some (eventtype_e measure_registry)
  ∧ ComputeStickyHash measure_registry "e"
      [("p", "1"); ("f", "1.5"); ("p", "1")] "c"
    = Ok (sha1_utf8 ("e" +:+ nl +:+ "p:1" +:+ nl +:+ "c"))
  ∧ ComputeStickyHash measure_registry "e" [("f", "2.5"); ("p", "1")] "c"
    = Ok (sha1_utf8 ("e" +:+ nl +:+ "p:1" +:+ nl +:+ "c"))
  ∧ ComputeStickyHashV3 measure_registry "e" "/s"
      [("f", "2.5"); ("p", "1")] "c"
    = Ok (sha1_utf8 ("/s" +:+ nl +:+ "e" +:+ nl +:+ "p:1" +:+ nl +:+ "c")).
Proof.
  assert (EventTypes measure_registry !! "e"
          = Some (eventtype_e measure_registry))
    as Het by (vm_compute; reflexivity).
  assert (float_property measure_registry (eventtype_e measure_registry) "f")
    as Hf.
  { exists "number:float"%string. split.
    - exists (default ∅ (properties (eventtype_e measure_registry) !! "f")),
        "ratio"%string, (default ∅ (ObjectTypes measure_registry !! "ratio")).
      (repeat split; vm_compute; reflexivity).
    - (exists "float"%string, []). (split; [vm_compute; reflexivity|left; reflexivity]). }
  assert (same_up_to_floats measure_registry (eventtype_e measure_registry)
            [("p", "1"); ("f", "1.5"); ("p", "1")]
            [("f", "2.5"); ("p", "1")]) as Hsame.
  { split; intros o Ho; repeat (apply elem_of_cons in Ho as [->|Ho]).
    - left. right. left.
    - right. exact Hf.
    - left. right. left.
    - apply elem_of_nil in Ho. destruct Ho.
    - right. exact Hf.
    - left. left.
    - apply elem_of_nil in Ho. destruct Ho. }
  (split; [exact Het|]). (split; [vm_compute; reflexivity|]).
  split.
  - refine (proj1 (sticky_hash_deterministic measure_registry "e" "/s" _
                     _ _ "c" _ Het Hsame) _).
    vm_compute; reflexivity.
  - refine (proj2 (sticky_hash_deterministic measure_registry "e" "/s" _
                     _ _ "c" _ Het Hsame) _).
    vm_compute; reflexivity.
Defined.

Lemma MergeEvents_unsupported_operation_witness :
  EventTypes plain_registry !! "e" = Some (eventtype_e plain_registry)
  ∧ unique (eventtype_e plain_registry) = false
  ∧ MergeEvents plain_registry "e" 0 1 (two_events timed_A timed_B)
    = Raise (unsupported_operation "e").
Proof.
  assert (EventTypes plain_registry !! "e"
          = Some (eventtype_e plain_registry))
    as Het by (vm_compute; reflexivity).
  split; [exact Het|]. split; [vm_compute; reflexivity|].
  refine (proj1 (MergeEvents_unsupported_operation plain_registry "e" _ 0 1
                   (two_events timed_A timed_B) Het) _).
  vm_compute; reflexivity.
Defined.

Lemma MergeEvents_changed_iff_witness :
  MergeEvents S4_registry "e" 0 1 (two_events S4_A S4_B)
  = Ok (true, store_set (two_events S4_A S4_B) 0 S4_A')
  ∧ (true = true
     ↔ ∃ p, value_set (store_set (two_events S4_A S4_B) 0 S4_A' 0%nat) p
            ≠ value_set (two_events S4_A S4_B 0%nat) p).
Proof.
  assert (MergeEvents S4_registry "e" 0 1 (two_events S4_A S4_B)
          = Ok (true, store_set (two_events S4_A S4_B) 0 S4_A')) as Hrun
    by (vm_compute; reflexivity).
  split; [exact Hrun|].
  exact (proj1 MergeEvents_changed_iff _ _ _ _ _ _ _ Hrun).
Defined.


(** * Further properties of the code *)

Import DataTypes Registry Merger Laws Samples.

(** ** Splitting and joining *)

Lemma split_not_nil sep s : Py.split sep s ≠ [].
Proof.
  destruct s as [|c s]; simpl; [done|].
  destruct (Ascii.eqb c sep); [done|]. by destruct (Py.split sep s).
Qed.

Lemma split_without sep s : without sep s = true → Py.split sep s = [s].
Proof.
  unfold without. induction s as [|c s IH]; simpl; [done|].
  intros [Hc Hs]%andb_true_iff. apply negb_true_iff in Hc. rewrite Hc.
  by rewrite (IH Hs).
Qed.

Lemma split_field sep s t :
  without sep s = true →
  Py.split sep (s +:+ String sep t) = s :: Py.split sep t.
Proof.
  unfold without. induction s as [|c s IH]; simpl.
  - intros _. by rewrite Ascii.eqb_refl.
  - intros [Hc Hs]%andb_true_iff. apply negb_true_iff in Hc.
    rewrite Hc. rewrite IH by exact Hs. reflexivity.
Qed.

Lemma join_cons sep x y l :
  Py.join sep (x :: y :: l) = x +:+ sep +:+ Py.join sep (y :: l).
Proof. reflexivity. Qed.

Lemma split_join sep x l :
  forallb (without sep) (x :: l) = true →
  Py.split sep (Py.join (String sep "") (x :: l)) = x :: l.
Proof.
  revert x. induction l as [|y l IH]; intros x H.
  - simpl in *. apply split_without. by destruct (without sep x).
  - rewrite join_cons.
    change (x +:+ String sep "" +:+ Py.join (String sep "") (y :: l))
      with (x +:+ String sep (Py.join (String sep "") (y :: l))).
    cbn [forallb] in H. apply andb_true_iff in H as [Hx H].
    rewrite split_field by done. f_equal. by apply IH.
Qed.


(** ** Data type descriptors *)

(** X1.  For the number types tinyint, smallint, mediumint, int, bigint,
    float and double, [ValidateDataType] accepts a descriptor with any
    number of further fields except one: a descriptor of exactly three
    fields, such as number:int:signed, raises the unsupported data type
    error, because the test of the third field compares the second one
    with unsigned. *)
Theorem ValidateDataType_number_field_count ObjectType T rest :
  elem T number_types = true → forallb (without ":") rest = true →
  let DataType := Py.join ":" ("number" :: T :: rest) in
  ValidateDataType ObjectType DataType
  = if (length rest =? 1)%nat then unsupported ObjectType DataType
    else Return ().
Proof.
  intros HT Hrest DataType.
  apply elem_elem in HT. unfold number_types in HT.
  assert (Hsplit : ∀ T, without ":" T = true →
            Py.split ":" (Py.join ":" ("number" :: T :: rest))
            = "number" :: T :: rest).
  { intros T' HT'. apply split_join. cbn [forallb].
    by rewrite HT', Hrest. }
  subst DataType. unfold ValidateDataType.
  repeat (apply elem_of_cons in HT as [->|HT];
          [rewrite Hsplit by reflexivity;
           destruct rest as [|? [|? ?]]; reflexivity|]).
  by apply elem_of_nil in HT.
Qed.

Lemma length_zero_iff (s : string) : (String.length s =? 0)%nat = true ↔ s = ""%string.
Proof. destruct s; simpl; split; congruence. Qed.

(** X2.  A number:hex descriptor that gives a digit group length G after
    the length N is accepted exactly when it has six fields, the fifth
    empty (the form number:hex:N:G:: of a colon separator), N and G are
    integers, G is not zero and N is a multiple of G.  A group length of
    zero raises [ZeroDivisionError], and the four field form
    number:hex:N:G raises [IndexError]. *)
Theorem ValidateDataType_hex_groups ObjectType N G rest :
  forallb (without ":") (N :: G :: rest) = true →
  let DataType := Py.join ":" ("number" :: "hex" :: N :: G :: rest) in
  (ValidateDataType ObjectType DataType = Return ()
   ↔ (∃ last, rest = [""%string; last])
     ∧ ∃ n g, Py.int N = Ok n ∧ Py.int G = Ok g ∧ g ≠ 0 ∧ n mod g = 0)
  ∧ (∀ n, Py.int N = Ok n → Py.int G = Ok 0 →
          ValidateDataType ObjectType DataType = Throw ZeroDivisionError)
  ∧ (∀ n g, Py.int N = Ok n → Py.int G = Ok g → g ≠ 0 → n mod g = 0 →
            rest = [] →
            ValidateDataType ObjectType DataType = Throw (Builtin IndexError)).
Proof.
  intros Hfields DataType.
  assert (Hsplit : Py.split ":" DataType = "number" :: "hex" :: N :: G :: rest).
  { apply split_join. cbn [forallb]. cbn [forallb] in Hfields.
    by rewrite Hfields. }
  assert (Hrun : ValidateDataType ObjectType DataType
    = match Py.int N, Py.int G with
      | Ok n, Ok g =>
          if g =? 0 then Throw ZeroDivisionError
          else if negb (n mod g =? 0) then
            lift (Error ("Length of hex datatype is not a multiple of separator distance: "
                           +:+ DataType))
          else match rest with
               | [] => Throw (Builtin IndexError)
               | dt4 :: rest' =>
                   if (String.length dt4 =? 0)%nat && (length rest' =? 1)%nat
                   then Return () else unsupported ObjectType DataType
               end
      | _, _ => unsupported ObjectType DataType
      end).
  { unfold ValidateDataType. rewrite Hsplit.
    cbn [index lookup list_lookup lift mbind answer_mbind answer_bind
         length Nat.ltb Nat.leb Nat.eqb String.eqb Ascii.eqb Bool.eqb].
    change (elem "hex" number_types) with false. cbv iota.
    destruct (Py.int N) as [n|]; [|reflexivity].
    destruct (Py.int G) as [g|]; [|reflexivity].
    destruct (g =? 0); [reflexivity|].
    destruct (negb (n mod g =? 0)); [reflexivity|].
    destruct rest as [|dt4 rest']; reflexivity. }
  rewrite Hrun. clear Hrun Hsplit. split; [|split].
  - split.
    + destruct (Py.int N) as [n|]; [|discriminate].
      destruct (Py.int G) as [g|]; [|discriminate].
      destruct (g =? 0) eqn:Hg; [discriminate|].
      destruct (n mod g =? 0) eqn:Hm; [|discriminate]. cbn [negb].
      destruct rest as [|dt4 rest']; [discriminate|].
      destruct (String.length dt4 =? 0)%nat eqn:H4; [|discriminate].
      destruct (length rest' =? 1)%nat eqn:Hl; [|discriminate].
      intros _. apply length_zero_iff in H4 as ->.
      apply Nat.eqb_eq in Hl.
      destruct rest' as [|dt5 [|? ?]]; try discriminate.
      split; [by exists dt5|].
      exists n, g. repeat split; [|by apply Z.eqb_eq]. by apply Z.eqb_neq.
    + intros [[last ->] (n & g & -> & -> & Hg & Hm)].
      apply Z.eqb_neq in Hg. apply Z.eqb_eq in Hm. by rewrite Hg, Hm.
  - intros n -> ->. reflexivity.
  - intros n g -> -> Hg Hm ->.
    apply Z.eqb_neq in Hg. apply Z.eqb_eq in Hm. by rewrite Hg, Hm.
Qed.

(** X3.  A number:decimal descriptor with the fields P and S, and maybe
    more, is accepted exactly when nothing or the single field signed
    follows, P and S are integers and S is at most P; when S exceeds P the
    error is the invalid decimal one. *)
Theorem ValidateDataType_decimal_scale ObjectType P S rest :
  forallb (without ":") (P :: S :: rest) = true →
  let DataType := Py.join ":" ("number" :: "decimal" :: P :: S :: rest) in
  (ValidateDataType ObjectType DataType = Return ()
   ↔ (rest = [] ∨ rest = ["signed"%string])
     ∧ ∃ digits scale,
         Py.int P = Ok digits ∧ Py.int S = Ok scale ∧ scale ≤ digits)
  ∧ (∀ digits scale,
       Py.int P = Ok digits → Py.int S = Ok scale → digits < scale →
       ValidateDataType ObjectType DataType
       = lift (Error ("Invalid Decimal: " +:+ DataType))).
Proof.
  intros Hfields DataType.
  assert (Hsplit : Py.split ":" DataType
                   = "number" :: "decimal" :: P :: S :: rest).
  { apply split_join. cbn [forallb]. cbn [forallb] in Hfields.
    by rewrite Hfields. }
  assert (Hrun : ValidateDataType ObjectType DataType
    = match Py.int P, Py.int S with
      | Ok digits, Ok scale =>
          if digits <? scale then
            lift (Error ("Invalid Decimal: " +:+ DataType))
          else match rest with
               | [] => Return ()
               | [dt4] => if String.eqb dt4 "signed" then Return ()
                          else unsupported ObjectType DataType
               | _ => unsupported ObjectType DataType
               end
      | _, _ => unsupported ObjectType DataType
      end).
  { unfold ValidateDataType. rewrite Hsplit.
    cbn [index lookup list_lookup lift mbind answer_mbind answer_bind
         length Nat.ltb Nat.leb Nat.eqb String.eqb Ascii.eqb Bool.eqb].
    change (elem "decimal" number_types) with false. cbv iota.
    destruct (Py.int P) as [n|]; [|reflexivity].
    destruct (Py.int S) as [g|]; [|reflexivity].
    destruct (n <? g); [reflexivity|].
    destruct rest as [|dt4 [|dt5 rest']]; reflexivity. }
  rewrite Hrun. clear Hrun Hsplit. split.
  - split.
    + destruct (Py.int P) as [n|]; [|discriminate].
      destruct (Py.int S) as [g|]; [|discriminate].
      destruct (n <? g) eqn:Hg; [discriminate|]. apply Z.ltb_ge in Hg.
      destruct rest as [|dt4 [|dt5 rest']]; try discriminate.
      * intros _. split; [by left|]. by exists n, g.
      * destruct (String.eqb dt4 "signed") eqn:H4; [|discriminate].
        apply String.eqb_eq in H4 as ->.
        intros _. split; [by right|]. by exists n, g.
    + intros [Hrest (n & g & -> & -> & Hg)].
      apply Z.ltb_ge in Hg. rewrite Hg. by destruct Hrest as [-> | ->].
  - intros n g -> -> Hg. apply Z.ltb_lt in Hg. by rewrite Hg.
Qed.

(** ** Validated values and their normal forms *)

(** X4.  [ValidateObject] accepts every value for a number data type
    other than hex, float and double (the integer types and decimal): it
    makes no numeric check, and its sign test compares a string with 0,
    which is never true. *)
Theorem ValidateObject_number_unchecked Value ObjectTypeName T rest :
  forallb (without ":") (T :: rest) = true →
  elem T ["hex"; "float"; "double"] = false →
  ValidateObject Value ObjectTypeName (Py.join ":" ("number" :: T :: rest))
  = Ok ().
Proof.
  intros Hfields HT.
  unfold ValidateObject. rewrite split_join by (cbn [forallb] in *; by rewrite Hfields).
  cbn [index lookup list_lookup mbind result_mbind result_bind String.eqb Ascii.eqb Bool.eqb].
  unfold elem in HT. cbn [existsb] in HT.
  apply orb_false_iff in HT as [H1 HT]. apply orb_false_iff in HT as [H2 HT].
  apply orb_false_iff in HT as [H3 _].
  rewrite H1, H2, H3. cbn [orb].
  unfold unicode_lt_int. rewrite !andb_false_r.
  by destruct (String.eqb T "decimal").
Qed.


Lemma validate_octet Value (r : result ()) part :
  (_ ← r;
   match Py.int part with
   | Ok n => if (0 <=? n) && (n <=? 255) then Ok () else invalid_ip Value
   | Raise _ => invalid_ip Value
   end) = Ok () ↔ r = Ok () ∧ ∃ n, Py.int part = Ok n ∧ octet n.
Proof.
  unfold octet. destruct r as [[]|e]; simpl.
  - destruct (Py.int part) as [n|e]; simpl.
    + destruct ((0 <=? n) && (n <=? 255)) eqn:Hn.
      * apply andb_true_iff in Hn as [H1 H2].
        apply Z.leb_le in H1, H2. split; [|done]. intros _. split; [done|]. eauto.
      * split.
        { unfold invalid_ip, Error. destruct (str_ Value); discriminate. }
        intros [_ (n' & [= <-] & Hr)]. apply andb_false_iff in Hn as [H|H];
          [apply Z.leb_gt in H|apply Z.leb_gt in H]; lia.
    + split.
      { unfold invalid_ip, Error. destruct (str_ Value); discriminate. }
      intros [_ (n' & [=] & _)].
  - split; [discriminate|]. intros [[=] _].
Qed.

Lemma ValidateObject_ip Value ObjectTypeName :
  ValidateObject Value ObjectTypeName "ip" = Ok ()
  ↔ ∃ o0 o1 o2 o3 n0 n1 n2 n3,
      Py.split "." Value = [o0; o1; o2; o3]
      ∧ Py.int o0 = Ok n0 ∧ Py.int o1 = Ok n1
      ∧ Py.int o2 = Ok n2 ∧ Py.int o3 = Ok n3
      ∧ octet n0 ∧ octet n1 ∧ octet n2 ∧ octet n3.
Proof.
  unfold ValidateObject.
  change (Py.split ":" "ip") with ["ip"%string].
  cbn [index lookup list_lookup mbind result_mbind result_bind String.eqb Ascii.eqb Bool.eqb].
  destruct (Py.split "." Value) as [|o0 [|o1 [|o2 [|o3 [|o4 l]]]]] eqn:Hs;
    cbn [length Nat.eqb negb];
    try (split; [unfold invalid_ip, Error; destruct (str_ Value); discriminate
                |intros (?&?&?&?&?&?&?&?&[=]&_)]).
  cbn [foldl].
  rewrite !validate_octet. split.
  - intros ((((_ & n0 & H0 & R0) & n1 & H1 & R1) & n2 & H2 & R2) & n3 & H3 & R3).
    exists o0, o1, o2, o3, n0, n1, n2, n3. done.
  - intros (?&?&?&?&n0&n1&n2&n3&[= <- <- <- <-]&H0&H1&H2&H3&R0&R1&R2&R3).
    repeat split; eauto.
Qed.

Lemma NormalizeObject_dotted Value o0 o1 o2 o3 n0 n1 n2 n3 :
  Py.split "." Value = [o0; o1; o2; o3] →
  Py.int o0 = Ok n0 → Py.int o1 = Ok n1 →
  Py.int o2 = Ok n2 → Py.int o3 = Ok n3 →
  NormalizeObject Value ["ip"] = Ok (dotted n0 n1 n2 n3).
Proof.
  intros Hs H0 H1 H2 H3. unfold NormalizeObject.
  cbn [index lookup list_lookup mbind result_mbind result_bind String.eqb Ascii.eqb Bool.eqb].
  rewrite Hs.
  cbn [index lookup list_lookup mbind result_mbind result_bind].
  rewrite H0. cbn [mbind result_mbind result_bind].
  rewrite H1. cbn [mbind result_mbind result_bind].
  rewrite H2. cbn [mbind result_mbind result_bind].
  rewrite H3. reflexivity.
Qed.

(** X5.  A value that [ValidateObject] accepts for the data type ip has
    a normal form: the dotted quad of its four octets, each between 0 and
    255, written without leading zeros; [ValidateObject] accepts the
    normal form, and the normal form is its own normal form. *)
Theorem ValidateObject_ip_normal_form Value ObjectTypeName :
  ValidateObject Value ObjectTypeName "ip" = Ok () →
  ∃ n0 n1 n2 n3,
    octet n0 ∧ octet n1 ∧ octet n2 ∧ octet n3
    ∧ NormalizeObject Value (Py.split ":" "ip") = Ok (dotted n0 n1 n2 n3)
    ∧ ValidateObject (dotted n0 n1 n2 n3) ObjectTypeName "ip" = Ok ()
    ∧ NormalizeObject (dotted n0 n1 n2 n3) (Py.split ":" "ip")
      = Ok (dotted n0 n1 n2 n3).
Proof.
  intros (o0&o1&o2&o3&n0&n1&n2&n3&Hs&H0&H1&H2&H3&R0&R1&R2&R3)%ValidateObject_ip.
  exists n0, n1, n2, n3. repeat (split; [assumption|]).
  change (Py.split ":" "ip") with ["ip"%string].
  assert (Hd : Py.split "." (dotted n0 n1 n2 n3)
               = [Py.str_int n0; Py.str_int n1; Py.str_int n2; Py.str_int n3])
    by apply normalize_ip_again.
  split; [by eapply NormalizeObject_dotted|]. split.
  - apply ValidateObject_ip.
    exists (Py.str_int n0), (Py.str_int n1), (Py.str_int n2), (Py.str_int n3),
      n0, n1, n2, n3.
    rewrite !int_str_int. done.
  - eapply NormalizeObject_dotted; [exact Hd|apply int_str_int..].
Qed.

(** ** Registering a definition again *)

Lemma consistent_if Entity Descr (cur upd : gmap string string) :
  (∀ k v1 v2, cur !! k = Some v1 → upd !! k = Some v2 → v1 = v2) →
  (∀ k v, upd !! k = Some v → cur !! k = None → optional_default Entity k v) →
  (∀ k v, cur !! k = Some v → upd !! k = None → optional_default Entity k v) →
  CheckEdxmlEntityConsistency Entity Descr cur upd = Ok ().
Proof.
  intros Hret Hadd Hrem. unfold CheckEdxmlEntityConsistency.
  rewrite bind_Ok. setoid_rewrite bind_Ok.
  exists (). split; [|exists (); split]; apply for_each_Ok; intros k Hk.
  - apply elem_of_elements, elem_of_intersection in Hk as [Hu Hc].
    apply elem_of_dom in Hu as [v2 Hu]. apply elem_of_dom in Hc as [v1 Hc].
    eapply check_retained_Ok; eauto.
  - apply elem_of_elements, elem_of_difference in Hk as [Hu Hc].
    apply elem_of_dom in Hu as [v Hu]. apply not_elem_of_dom in Hc.
    eapply check_added_Ok; eauto.
  - apply elem_of_elements, elem_of_difference in Hk as [Hc Hu].
    apply elem_of_dom in Hc as [v Hc]. apply not_elem_of_dom in Hu.
    eapply check_removed_Ok; eauto.
Qed.

Lemma consistent_refl Entity Descr (attrs : gmap string string) :
  CheckEdxmlEntityConsistency Entity Descr attrs attrs = Ok ().
Proof. apply consistent_if; intros; congruence. Qed.

Lemma consistent_stored_property Descr (attrs : gmap string string) :
  CheckEdxmlEntityConsistency "property" Descr
    (attrs ∪ {["unique" := "false"; "defines-entity" := "false"]}) attrs
  = Ok ().
Proof.
  apply consistent_if.
  - intros k v1 v2 H1 H2. rewrite (lookup_union_Some_l _ _ _ _ H2) in H1.
    congruence.
  - intros k v H1 H2. apply lookup_union_None in H2 as [H2 _]. congruence.
  - intros k v H1 H2. apply lookup_union_Some_raw in H1 as [H1|[_ H1]];
      [congruence|].
    apply lookup_insert_Some in H1 as [[<- <-]|[_ H1]].
    { eexists. split; [reflexivity|]. split; reflexivity. }
    apply lookup_singleton_Some in H1 as [<- <-].
    eexists. split; [reflexivity|]. split; reflexivity.
Qed.

(** X7.  A definition that was registered can be registered again with
    the same attributes: [AddEventType] and [AddProperty] then return and
    leave the registry as it is.  [SetEventTypeParent] does so when the
    attributes have the key eventtype; without it the second call raises
    [KeyError], although the first one returned. *)
Theorem registering_again :
  (∀ name attrs self self',
     AddEventType name attrs self = Ok self' →
     AddEventType name attrs self' = Ok self')
  ∧ (∀ name p attrs self self',
       AddProperty name p attrs self = Ok self' →
       AddProperty name p attrs self' = Ok self')
  ∧ (∀ name attrs self self',
       SetEventTypeParent name attrs self = Ok self' →
       SetEventTypeParent name attrs self'
       = if bool_decide ("eventtype" ∈ dom attrs) then Ok self'
         else Raise KeyError).
Proof.
  split; [|split].
  - intros name attrs self self'. unfold AddEventType.
    destruct (EventTypes self !! name) as [et|] eqn:Het.
    + intros ([] & Hc & [= <-])%bind_Ok. rewrite Het.
      cbn [mbind result_mbind result_bind]. by rewrite Hc.
    + intros H. rewrite (AddNewEventType_lookup _ _ _ _ name H).
      rewrite decide_True by done. cbn [attributes].
      by rewrite consistent_refl.
  - intros name p attrs self self'. unfold AddProperty.
    intros (et & Het%getitem_Ok & H)%bind_Ok.
    destruct (properties et !! p) as [cur|] eqn:Hp.
    + apply bind_Ok in H as ([] & Hc & [= <-]).
      unfold getitem. rewrite Het. cbn [mbind result_mbind result_bind].
      rewrite Hp. cbn [mbind result_mbind result_bind]. by rewrite Hc.
    + unfold AddNewProperty in H.
      apply bind_Ok in H as (names & _ & H).
      apply bind_Ok in H as (_ & _ & H).
      apply bind_Ok in H as (ot & _ & H).
      apply bind_Ok in H as (et' & Het'%getitem_Ok & H).
      apply bind_Ok in H as (entities & _ & [= <-]).
      cbn [EventTypes]. unfold getitem. rewrite lookup_insert_eq.
      cbn [mbind result_mbind result_bind properties].
      rewrite lookup_insert_eq.
      by rewrite consistent_stored_property.
  - intros name attrs self self'. unfold SetEventTypeParent.
    intros (et & Het%getitem_Ok & H)%bind_Ok.
    destruct (parent et) as [cur|] eqn:Hp.
    + apply bind_Ok in H as (d & Hd%getitem_Ok & H).
      apply bind_Ok in H as ([] & Hc & [= <-]).
      unfold getitem. rewrite Het. cbn [mbind result_mbind result_bind].
      rewrite Hp, Hd. cbn [mbind result_mbind result_bind]. rewrite Hc.
      cbn [mbind result_mbind result_bind].
      rewrite bool_decide_eq_true_2; [done|]. apply elem_of_dom. eauto.
    + unfold SetNewEventTypeParent in H.
      apply bind_Ok in H as (et' & Het'%getitem_Ok & H).
      destruct (attrs !! "propertymap") as [pm|]; [|discriminate].
      apply bind_Ok in H as (m & _ & [= <-]).
      unfold set_EventTypes. cbn [EventTypes]. unfold getitem.
      rewrite lookup_insert_eq. cbn [mbind result_mbind result_bind parent].
      destruct (attrs !! "eventtype") as [d|] eqn:Hd.
      * cbn [mbind result_mbind result_bind]. rewrite consistent_refl.
        rewrite bool_decide_eq_true_2; [done|]. apply elem_of_dom. eauto.
      * rewrite bool_decide_eq_false_2; [done|]. by apply not_elem_of_dom.
Qed.

(** ** What a registration call changes *)

Lemma bind_Return {A B} (f : A → answer B) (r : answer A) (b : B) :
  r ≫= f = Return b ↔ ∃ a, r = Return a ∧ f a = Return b.
Proof.
  destruct r as [a|e]; simpl; split.
  - intros H. by exists a.
  - by intros (a' & [= <-] & H).
  - discriminate.
  - by intros (a' & [=] & _).
Qed.

Lemma lift_Return {A} (r : result A) (a : A) : lift r = Return a ↔ r = Ok a.
Proof. destruct r; simpl; split; congruence. Qed.

Lemma AddEventType_effect name attrs d d' :
  AddEventType name attrs d = Ok d' →
  d' = d
  ∨ EventTypes d !! name = None
    ∧ ∃ classlist,
        attrs !! "classlist" = Some classlist
        ∧ d' = mkDefinitions
                 (<[name := mkEventType attrs ∅ ∅ ∅ ∅ ∅ ∅ ∅ false None]>
                    (EventTypes d))
                 (ObjectTypes d) (ObjectTypeEventTypes d)
                 (foldl (λ c Class, add_to Class name c)
                    (EventTypeClasses d) (Py.split "," classlist))
                 (RequiredObjectTypes d)
                 (<[name := ∅]> (EntityProperties d))
                 (EventTypeNames d ++ [name])
                 (<[name := []]> (PropertyNames d))
                 (<[name := []]> (PropertyRelations d)).
Proof.
  unfold AddEventType. destruct (EventTypes d !! name) as [et|] eqn:Het.
  - intros ([] & _ & [= <-])%bind_Ok. by left.
  - unfold AddNewEventType. intros ([] & _ & H)%bind_Ok.
    apply bind_Ok in H as (cl & Hcl%getitem_Ok & [= <-]).
    right. split; [done|]. by exists cl.
Qed.

Lemma SetEventTypeParent_effect name attrs d d' :
  SetEventTypeParent name attrs d = Ok d' →
  d' = d
  ∨ ∃ et m,
      EventTypes d !! name = Some et ∧ parent et = None
      ∧ dom (parentmapping et) ⊆ dom m
      ∧ d' = set_EventTypes
               (<[name :=
                    mkEventType (attributes et) (properties et)
                      (unique_properties et) (mandatory_properties et)
                      (singleton_properties et) m (relations et)
                      (related_properties et) (unique et) (Some attrs)]>) d.
Proof.
  unfold SetEventTypeParent. intros (et & Het%getitem_Ok & H)%bind_Ok.
  destruct (parent et) as [cur|] eqn:Hp.
  - apply bind_Ok in H as (descr & _ & H).
    apply bind_Ok in H as ([] & _ & [= <-]). by left.
  - unfold SetNewEventTypeParent in H.
    apply bind_Ok in H as (et' & Het'%getitem_Ok & H). simplify_eq.
    destruct (attrs !! "propertymap") as [pm|]; [|discriminate].
    apply bind_Ok in H as (m & Hm & [= <-]).
    right. exists et, m. repeat split; try done.
    by eapply property_map_dom.
Qed.

Lemma AddProperty_effect name p attrs d d' :
  AddProperty name p attrs d = Ok d' →
  d' = d
  ∨ ∃ et names ot entities uniques mandatories singletons,
      EventTypes d !! name = Some et ∧ properties et !! p = None
      ∧ PropertyNames d !! name = Some names
      ∧ attrs !! "object-type" = Some ot
      ∧ d' = mkDefinitions
               (<[name :=
                    mkEventType (attributes et)
                      (<[p := attrs ∪ {["unique" := "false";
                                        "defines-entity" := "false"]}]>
                         (properties et))
                      uniques mandatories singletons (parentmapping et)
                      (relations et) (related_properties et)
                      (unique et || has_value_lower attrs "unique" "true")
                      (parent et)]> (EventTypes d))
               (ObjectTypes d)
               (add_to ot name (ObjectTypeEventTypes d))
               (EventTypeClasses d)
               ({[ot]} ∪ RequiredObjectTypes d)
               entities
               (EventTypeNames d)
               (<[name := names ++ [p]]> (PropertyNames d))
               (PropertyRelations d).
Proof.
  unfold AddProperty. intros (et & Het%getitem_Ok & H)%bind_Ok.
  destruct (properties et !! p) as [cur|] eqn:Hp.
  - apply bind_Ok in H as ([] & _ & [= <-]). by left.
  - unfold AddNewProperty in H.
    apply bind_Ok in H as (names & Hn%getitem_Ok & H).
    apply bind_Ok in H as ([] & _ & H).
    apply bind_Ok in H as (ot & Hot%getitem_Ok & H).
    apply bind_Ok in H as (et' & Het'%getitem_Ok & H). simplify_eq.
    apply bind_Ok in H as (entities & _ & [= <-]).
    right. by eexists et, names, ot, entities, _, _, _.
Qed.

Section effects.
Variable compiles : string → bool.

Lemma AddObjectType_effect name attrs self self' :
  AddObjectType compiles name attrs self = Return self' →
  self' = self
  ∨ ObjectTypes (defs self) !! name = None
    ∧ ∃ dt patterns,
        attrs !! "data-type" = Some dt
        ∧ ValidateDataType name dt = Return ()
        ∧ self' = mkRegistry
                    (set_ObjectTypes
                       (<[name := attrs]> (ObjectTypes (defs self)))
                       (defs self))
                    (RelationPredicates self) patterns
                    (ObjectTypeNames self ++ [name]).
Proof.
  unfold AddObjectType.
  destruct (ObjectTypes (defs self) !! name) as [cur|] eqn:Hcur.
  - intros ([] & _ & [= <-])%bind_Return. by left.
  - unfold AddNewObjectType. intros ([] & _ & H)%bind_Return.
    apply bind_Return in H as (dt & Hdt%lift_Return%getitem_Ok & H).
    apply bind_Return in H as ([] & Hv & H).
    apply bind_Return in H as (patterns & _ & [= <-]).
    right. split; [done|]. by exists dt, patterns.
Qed.

End effects.

Lemma AddRelation_effect name p1 p2 attrs self self' :
  AddRelation name p1 p2 attrs self = Ok self' →
  self' = self
  ∨ ∃ et ids predicates,
      let id := p1 +:+ " -> " +:+ p2 in
      let d := defs self in
      EventTypes d !! name = Some et ∧ relations et !! id = None
      ∧ PropertyRelations d !! name = Some ids
      ∧ self' = mkRegistry
                  (mkDefinitions
                     (<[name :=
                          mkEventType (attributes et) (properties et)
                            (unique_properties et) (mandatory_properties et)
                            (singleton_properties et) (parentmapping et)
                            (<[id := attrs]> (relations et))
                            ({[p2]} ∪ ({[p1]} ∪ related_properties et))
                            (unique et) (parent et)]> (EventTypes d))
                     (ObjectTypes d) (ObjectTypeEventTypes d)
                     (EventTypeClasses d) (RequiredObjectTypes d)
                     (EntityProperties d) (EventTypeNames d)
                     (PropertyNames d)
                     (<[name := ids ++ [id]]> (PropertyRelations d)))
                  predicates (CompiledObjectTypePatterns self)
                  (ObjectTypeNames self).
Proof.
  unfold AddRelation. intros (et & Het%getitem_Ok & H)%bind_Ok.
  destruct (relations et !! _) as [cur|] eqn:Hcur.
  - apply bind_Ok in H as ([] & _ & [= <-]). by left.
  - unfold AddNewRelation in H.
    apply bind_Ok in H as (et' & Het'%getitem_Ok & H). simplify_eq.
    apply bind_Ok in H as (ids & Hids%getitem_Ok & H).
    apply bind_Ok in H as ([] & _ & H).
    apply bind_Ok in H as (type & _ & [= <-]).
    right. by eexists et, ids, _.
Qed.

(** ** Name lists and indexes of a registry *)

Lemma set_defs_defs self : set_defs (defs self) self = self.
Proof. by destruct self. Qed.

Lemma lists_empty {A} : lists [] (∅ : gmap string A).
Proof.
  split; [constructor|]. intros n. rewrite dom_empty.
  split; [by intros ?%elem_of_nil|by intros ?%elem_of_empty].
Qed.

Lemma lists_snoc {A} names (d : gmap string A) x v :
  lists names d → d !! x = None → lists (names ++ [x]) (<[x := v]> d).
Proof.
  intros [Hnd Hdom] Hx. split.
  - apply NoDup_app. split; [done|]. split; [|apply NoDup_singleton].
    intros n Hn ->%list_elem_of_singleton.
    apply Hdom, elem_of_dom in Hn as [? ?]. congruence.
  - intros n. rewrite elem_of_app, list_elem_of_singleton, dom_insert,
      elem_of_union, elem_of_singleton, Hdom. tauto.
Qed.

Lemma has_object_type_fresh d d' name attrs :
  EventTypes d !! name = None →
  EventTypes d' = <[name := mkEventType attrs ∅ ∅ ∅ ∅ ∅ ∅ ∅ false None]>
                    (EventTypes d) →
  ∀ n p ot, has_object_type d' n p ot ↔ has_object_type d n p ot.
Proof.
  intros Hnone Heq n p ot. unfold has_object_type. rewrite Heq.
  destruct (decide (n = name)) as [->|Hne].
  - rewrite lookup_insert_eq, Hnone. split.
    + intros (et & a & [= <-] & Hp & _). simpl in Hp.
      by rewrite lookup_empty in Hp.
    + by intros (et & a & [=] & _).
  - by rewrite lookup_insert_ne.
Qed.

Lemma has_object_type_same d d' name et et' :
  EventTypes d !! name = Some et →
  EventTypes d' = <[name := et']> (EventTypes d) →
  properties et' = properties et →
  ∀ n p ot, has_object_type d' n p ot ↔ has_object_type d n p ot.
Proof.
  intros Het Heq Hprops n p ot. unfold has_object_type. rewrite Heq.
  destruct (decide (n = name)) as [->|Hne].
  - rewrite lookup_insert_eq, Het. split.
    + intros (? & a & [= <-] & Hp & Ha). rewrite Hprops in Hp. eauto.
    + intros (? & a & [= <-] & Hp & Ha). rewrite <- Hprops in Hp. eauto.
  - by rewrite lookup_insert_ne.
Qed.

Lemma has_object_type_added d d' name et et' p0 (attrs stored : gmap string string) ot0 :
  EventTypes d !! name = Some et → properties et !! p0 = None →
  EventTypes d' = <[name := et']> (EventTypes d) →
  properties et' = <[p0 := stored]> (properties et) →
  stored !! "object-type" = Some ot0 →
  ∀ n p ot, has_object_type d' n p ot
            ↔ has_object_type d n p ot ∨ n = name ∧ p = p0 ∧ ot = ot0.
Proof.
  intros Het Hp0 Heq Hprops Hot n p ot. unfold has_object_type. rewrite Heq.
  destruct (decide (n = name)) as [->|Hne].
  - rewrite lookup_insert_eq, Het. split.
    + intros (? & a & [= <-] & Hp & Ha). rewrite Hprops in Hp.
      apply lookup_insert_Some in Hp as [[<- <-]|[Hne Hp]].
      * right. repeat split. congruence.
      * left. eauto.
    + intros [(? & a & [= <-] & Hp & Ha)|(_ & -> & ->)].
      * exists et', a. split; [done|]. split; [|done]. rewrite Hprops.
        rewrite lookup_insert_ne; [done|]. intros ->. congruence.
      * exists et', stored. split; [done|]. split; [|done].
        by rewrite Hprops, lookup_insert_eq.
  - rewrite lookup_insert_ne by done. split; [by left|].
    intros [?|[? _]]; done.
Qed.

Lemma elem_of_add_to k x (d : gmap string (gset string)) k' y :
  y ∈ default ∅ (add_to k x d !! k')
  ↔ y ∈ default ∅ (d !! k') ∨ k' = k ∧ y = x.
Proof.
  unfold add_to. destruct (decide (k' = k)) as [->|Hne].
  - rewrite lookup_insert_eq. simpl. rewrite elem_of_union, elem_of_singleton.
    naive_solver.
  - rewrite lookup_insert_ne by done. naive_solver.
Qed.

Lemma elem_of_having d ot n :
  n ∈ GetEventTypesHavingObjectType d ot
  ↔ n ∈ default ∅ (ObjectTypeEventTypes d !! ot).
Proof.
  unfold GetEventTypesHavingObjectType.
  destruct (ObjectTypeEventTypes d !! ot) as [s|]; simpl.
  - apply elem_of_elements.
  - split; [by intros ?%elem_of_nil|by intros ?%elem_of_empty].
Qed.

Lemma indexed_empty : indexed empty.
Proof.
  assert (He : ∀ n, EventTypes (defs empty) !! n = None)
    by (intros n; apply lookup_empty).
  split.
  - apply lists_empty.
  - apply lists_empty.
  - intros n et H. by rewrite He in H.
  - intros n et H. by rewrite He in H.
  - intros n attrs H. change (ObjectTypes (defs empty)) with (∅ : gmap string (gmap string string)) in H.
    by rewrite lookup_empty in H.
  - intros n et p attrs H. by rewrite He in H.
  - intros ot n. rewrite elem_of_having.
    change (ObjectTypeEventTypes (defs empty)) with (∅ : gmap string (gset string)).
    rewrite lookup_empty. split; [by intros ?%elem_of_empty|].
    intros (p & et & a & H & _). by rewrite He in H.
  - intros ot. split; [by intros ?%elem_of_empty|].
    intros (n & p & et & a & H & _). by rewrite He in H.
Qed.

Lemma indexed_event_type self name attrs d :
  indexed self → AddEventType name attrs (defs self) = Ok d →
  indexed (set_defs d self).
Proof.
  intros I [->|(Hnone & cl & Hcl & ->)]%AddEventType_effect;
    [by rewrite set_defs_defs|].
  destruct I as [I1 I2 I3 I4 I5 I6 I7 I8].
  match goal with
  | |- indexed (set_defs ?d' _) =>
      pose proof (has_object_type_fresh (defs self) d' name attrs Hnone
                    eq_refl) as Hhot
  end.
  split; cbn [defs set_defs EventTypes ObjectTypes EventTypeNames
              PropertyNames PropertyRelations RequiredObjectTypes
              ObjectTypeNames].
  - by apply lists_snoc.
  - done.
  - intros n et. destruct (decide (n = name)) as [->|Hne].
    + rewrite !lookup_insert_eq. intros [= <-]. exists []. split; [done|].
      apply lists_empty.
    + rewrite !lookup_insert_ne by done. apply I3.
  - intros n et. destruct (decide (n = name)) as [->|Hne].
    + rewrite !lookup_insert_eq. intros [= <-]. exists []. split; [done|].
      apply lists_empty.
    + rewrite !lookup_insert_ne by done. apply I4.
  - done.
  - intros n et p a. destruct (decide (n = name)) as [->|Hne].
    + rewrite lookup_insert_eq. intros [= <-]. simpl. by rewrite lookup_empty.
    + rewrite lookup_insert_ne by done. apply I6.
  - intros ot n. rewrite elem_of_having. cbn [ObjectTypeEventTypes].
    rewrite <- elem_of_having, I7. by setoid_rewrite Hhot.
  - intros ot. rewrite I8. by setoid_rewrite Hhot.
Qed.

Lemma indexed_same_properties self name et et' d' :
  indexed self →
  EventTypes (defs self) !! name = Some et →
  properties et' = properties et → relations et' = relations et →
  d' = set_EventTypes (<[name := et']>) (defs self) →
  indexed (set_defs d' self).
Proof.
  intros [I1 I2 I3 I4 I5 I6 I7 I8] Het Hprops Hrels ->.
  pose proof (has_object_type_same (defs self)
                (set_EventTypes (<[name := et']>) (defs self))
                name et et' Het eq_refl Hprops) as Hhot.
  assert (Hdom : dom (<[name := et']> (EventTypes (defs self)))
                 = dom (EventTypes (defs self))).
  { apply set_eq. intros n. rewrite dom_insert, elem_of_union, elem_of_singleton.
    split; [|by right]. intros [->|?]; [|done]. apply elem_of_dom. eauto. }
  split; cbn [defs set_defs set_EventTypes EventTypes ObjectTypes
              EventTypeNames PropertyNames PropertyRelations
              RequiredObjectTypes ObjectTypeNames].
  - destruct I1 as [? Hd]. split; [done|]. intros n. by rewrite Hdom.
  - done.
  - intros n e. destruct (decide (n = name)) as [->|Hne].
    + rewrite lookup_insert_eq. intros [= <-]. rewrite Hprops. by apply (I3 name).
    + rewrite lookup_insert_ne by done. apply I3.
  - intros n e. destruct (decide (n = name)) as [->|Hne].
    + rewrite lookup_insert_eq. intros [= <-]. rewrite Hrels. by apply (I4 name).
    + rewrite lookup_insert_ne by done. apply I4.
  - done.
  - intros n e p a. destruct (decide (n = name)) as [->|Hne].
    + rewrite lookup_insert_eq. intros [= <-]. rewrite Hprops. by apply (I6 name).
    + rewrite lookup_insert_ne by done. apply I6.
  - intros ot n. rewrite elem_of_having.
    cbn [ObjectTypeEventTypes set_EventTypes].
    rewrite <- elem_of_having, I7. by setoid_rewrite Hhot.
  - intros ot. rewrite I8. by setoid_rewrite Hhot.
Qed.

Lemma indexed_parent self name attrs d :
  indexed self → SetEventTypeParent name attrs (defs self) = Ok d →
  indexed (set_defs d self).
Proof.
  intros I [->|(et & m & Het & _ & _ & ->)]%SetEventTypeParent_effect;
    [by rewrite set_defs_defs|].
  eapply (indexed_same_properties self name et); [done|done| | |reflexivity];
    reflexivity.
Qed.

Lemma indexed_property self name p attrs d :
  indexed self → AddProperty name p attrs (defs self) = Ok d →
  indexed (set_defs d self).
Proof.
  intros I [->|(et & names & ot & ents & us & ms & ss & Het & Hp & Hn & Hot
                & ->)]%AddProperty_effect;
    [by rewrite set_defs_defs|].
  destruct I as [I1 I2 I3 I4 I5 I6 I7 I8].
  assert (Hstored : (attrs ∪ {["unique" := "false"; "defines-entity" := "false"]}
                     : gmap string string) !! "object-type" = Some ot)
    by (by apply lookup_union_Some_l).
  match goal with
  | |- indexed (set_defs ?d' _) =>
      pose proof (has_object_type_added (defs self) d' name et _ p attrs _ ot
                    Het Hp eq_refl eq_refl Hstored) as Hhot
  end.
  assert (Hdom : ∀ e, dom (<[name := e]> (EventTypes (defs self)))
                      = dom (EventTypes (defs self))).
  { intros e. apply set_eq. intros n.
    rewrite dom_insert, elem_of_union, elem_of_singleton.
    split; [|by right]. intros [->|?]; [|done]. apply elem_of_dom. eauto. }
  split; cbn [defs set_defs EventTypes ObjectTypes EventTypeNames
              PropertyNames PropertyRelations RequiredObjectTypes
              ObjectTypeNames].
  - destruct I1 as [? Hd]. split; [done|]. intros n. by rewrite Hdom.
  - done.
  - intros n e. destruct (decide (n = name)) as [->|Hne].
    + rewrite !lookup_insert_eq. intros [= <-]. cbn [properties].
      exists (names ++ [p]). split; [done|].
      destruct (I3 name et Het) as (names' & Hn' & Hl). simplify_eq.
      by apply lists_snoc.
    + rewrite !lookup_insert_ne by done. apply I3.
  - intros n e. destruct (decide (n = name)) as [->|Hne].
    + rewrite lookup_insert_eq. intros [= <-]. cbn [relations]. by apply (I4 name).
    + rewrite lookup_insert_ne by done. apply I4.
  - done.
  - intros n e q a. destruct (decide (n = name)) as [->|Hne].
    + rewrite lookup_insert_eq. intros [= <-]. cbn [properties].
      intros [[<- <-]|[_ Hq]]%lookup_insert_Some; [eauto|]. by eapply (I6 name).
    + rewrite lookup_insert_ne by done. apply I6.
  - intros o n. rewrite elem_of_having. cbn [ObjectTypeEventTypes].
    rewrite elem_of_add_to, <- elem_of_having, I7.
    setoid_rewrite Hhot. split.
    + intros [[q Hq]|[-> ->]]; [exists q; by left|]. exists p. by right.
    + intros [q [Hq|(-> & -> & ->)]]; [left; by exists q|by right].
  - intros o. rewrite elem_of_union, elem_of_singleton, I8.
    setoid_rewrite Hhot. split.
    + intros [->|(n & q & Hq)]; [exists name, p; by right|].
      exists n, q. by left.
    + intros (n & q & [Hq|(-> & -> & ->)]); [right; by exists n, q|by left].
Qed.

Section indexes.
Variable compiles : string → bool.

Lemma indexed_object_type self name attrs self' :
  indexed self → AddObjectType compiles name attrs self = Return self' →
  indexed self'.
Proof.
  intros I [->|(Hnone & dt & pats & Hdt & Hv & ->)]%AddObjectType_effect;
    [done|].
  destruct I as [I1 I2 I3 I4 I5 I6 I7 I8].
  split; cbn [defs set_ObjectTypes EventTypes ObjectTypes EventTypeNames
              PropertyNames PropertyRelations RequiredObjectTypes
              ObjectTypeNames]; try done.
  - by apply lists_snoc.
  - intros n a. destruct (decide (n = name)) as [->|Hne].
    + rewrite lookup_insert_eq. intros [= <-]. eauto.
    + rewrite lookup_insert_ne by done. apply I5.
Qed.

Lemma built_indexed self : built compiles self → indexed self.
Proof.
  induction 1 as [|self name attrs d _ IH H|self name attrs d _ IH H
                  |self name p attrs d _ IH H|self name attrs self' _ IH H
                  |self name p1 p2 attrs self' _ IH H].
  - apply indexed_empty.
  - by eapply indexed_event_type.
  - by eapply indexed_parent.
  - by eapply indexed_property.
  - by eapply indexed_object_type.
  - apply AddRelation_effect in H as [->|(et & ids & preds & Het & Hid & Hids & ->)];
      [done|].
    destruct IH as [I1 I2 I3 I4 I5 I6 I7 I8].
    match goal with
    | |- indexed (mkRegistry ?d' _ _ _) =>
        pose proof (has_object_type_same (defs self) d' name et _ Het
                      eq_refl eq_refl) as Hhot
    end.
    assert (Hdom : ∀ e, dom (<[name := e]> (EventTypes (defs self)))
                        = dom (EventTypes (defs self))).
    { intros e. apply set_eq. intros n.
      rewrite dom_insert, elem_of_union, elem_of_singleton.
      split; [|by right]. intros [->|?]; [|done]. apply elem_of_dom. eauto. }
    split; cbn [defs EventTypes ObjectTypes EventTypeNames
                PropertyNames PropertyRelations RequiredObjectTypes
                ObjectTypeNames]; try done.
    + destruct I1 as [? Hd]. split; [done|]. intros n. by rewrite Hdom.
    + intros n e. destruct (decide (n = name)) as [->|Hne].
      * rewrite lookup_insert_eq. intros [= <-]. cbn [properties]. by apply (I3 name).
      * rewrite lookup_insert_ne by done. apply I3.
    + intros n e. destruct (decide (n = name)) as [->|Hne].
      * rewrite !lookup_insert_eq. intros [= <-]. cbn [relations].
        eexists. split; [done|].
        destruct (I4 name et Het) as (ids' & Hids' & Hl). simplify_eq.
        by apply lists_snoc.
      * rewrite !lookup_insert_ne by done. apply I4.
    + intros n e q a. destruct (decide (n = name)) as [->|Hne].
      * rewrite lookup_insert_eq. intros [= <-]. cbn [properties]. by apply (I6 name).
      * rewrite lookup_insert_ne by done. apply I6.
    + intros ot n. rewrite elem_of_having. cbn [ObjectTypeEventTypes].
      rewrite <- elem_of_having, I7. by setoid_rewrite Hhot.
    + intros ot. rewrite I8. by setoid_rewrite Hhot.
Qed.

End indexes.

Section registry_theorems.
Variable compiles : string → bool.

(** X9.  In a registry built by registration calls that returned,
    [GetEventTypeNames] lists the defined event types and
    [GetObjectTypeNames] the defined object types, each once; and for
    every event type [GetEventTypeProperties] lists its properties and
    [GetEventTypePropertyRelations] its relations, each once. *)
Theorem registry_name_lists self :
  built compiles self →
  lists (GetEventTypeNames (defs self)) (EventTypes (defs self))
  ∧ lists (GetObjectTypeNames self) (ObjectTypes (defs self))
  ∧ ∀ n et,
      EventTypes (defs self) !! n = Some et →
      ∃ names ids,
        GetEventTypeProperties (defs self) n = Ok names
        ∧ lists names (properties et)
        ∧ GetEventTypePropertyRelations (defs self) n = Ok ids
        ∧ lists ids (relations et).
Proof.
  intros [I1 I2 I3 I4 _ _ _ _]%built_indexed.
  split; [done|]. split; [done|]. intros n et Het.
  destruct (I3 n et Het) as (names & Hn & Hl).
  destruct (I4 n et Het) as (ids & Hi & Hli).
  exists names, ids.
  unfold GetEventTypeProperties, GetEventTypePropertyRelations, getitem.
  by rewrite Hn, Hi.
Qed.

(** X10.  In a registry built by registration calls that returned,
    [GetEventTypesHavingObjectType] returns, without repetition, exactly
    the event types that have a property of the object type. *)
Theorem registry_object_type_index self :
  built compiles self →
  (∀ ot n, n ∈ GetEventTypesHavingObjectType (defs self) ot
           ↔ ∃ p, has_object_type (defs self) n p ot)
  ∧ ∀ ot, NoDup (GetEventTypesHavingObjectType (defs self) ot).
Proof.
  intros [_ _ _ _ _ _ I7 _]%built_indexed. split; [done|].
  assert (∀ ot, NoDup (GetEventTypesHavingObjectType (defs self) ot)).
  { intros ot. unfold GetEventTypesHavingObjectType.
    destruct (_ !! ot); [apply NoDup_elements|constructor]. }
  done.
Qed.

Lemma CheckPropertyObjectTypes_Ok d :
  CheckPropertyObjectTypes d = Ok ()
  ↔ RequiredObjectTypes d ⊆ dom (ObjectTypes d).
Proof.
  unfold CheckPropertyObjectTypes. rewrite for_each_Ok. split.
  - intros H ot Hot. specialize (H ot). rewrite elem_of_elements in H.
    specialize (H Hot). unfold ObjectTypeDefined in H.
    destruct (bool_decide _) eqn:Hd; [|discriminate].
    by apply bool_decide_eq_true in Hd.
  - intros H ot Hot%elem_of_elements. unfold ObjectTypeDefined.
    by rewrite bool_decide_eq_true_2 by (by apply H).
Qed.

(** X11.  In a registry built by registration calls that returned,
    [CheckPropertyObjectTypes] returns exactly when the object type of
    every property is defined; and once it has returned, the object type
    and the data type of every property of every event type can be looked
    up, and [ValidateDataType] accepts that data type. *)
Theorem CheckPropertyObjectTypes_lookups self :
  built compiles self →
  (CheckPropertyObjectTypes (defs self) = Ok ()
   ↔ ∀ n p ot, has_object_type (defs self) n p ot →
               ObjectTypeDefined (defs self) ot = true)
  ∧ (CheckPropertyObjectTypes (defs self) = Ok () →
     ∀ n et p,
       EventTypes (defs self) !! n = Some et → p ∈ dom (properties et) →
       ∃ ot dt,
         GetPropertyObjectType (defs self) n p = Ok ot
         ∧ GetObjectTypeDataType (defs self) ot = Ok dt
         ∧ ValidateDataType ot dt = Return ()).
Proof.
  intros [_ _ _ _ I5 I6 _ I8]%built_indexed.
  assert (Hiff : CheckPropertyObjectTypes (defs self) = Ok ()
   ↔ ∀ n p ot, has_object_type (defs self) n p ot →
               ObjectTypeDefined (defs self) ot = true).
  { rewrite CheckPropertyObjectTypes_Ok. unfold ObjectTypeDefined. split.
    - intros H n p ot Hot. apply bool_decide_eq_true, H, I8. eauto.
    - intros H ot (n & p & Hot)%I8. eapply bool_decide_eq_true, H, Hot. }
  split; [exact Hiff|]. intros Hc n et p Het [attrs Hp]%elem_of_dom.
  destruct (I6 n et p attrs Het Hp) as [ot Hot].
  assert (Hhas : has_object_type (defs self) n p ot) by (by exists et, attrs).
  apply (proj1 Hiff Hc) in Hhas. unfold ObjectTypeDefined in Hhas.
  apply bool_decide_eq_true, elem_of_dom in Hhas as [ota Hota].
  destruct (I5 ot ota Hota) as (dt & Hdt & Hv).
  exists ot, dt. unfold GetPropertyObjectType, GetObjectTypeDataType, getitem.
  rewrite Het, Hp, Hot, Hota. cbn [mbind result_mbind result_bind].
  by rewrite Hdt.
Qed.

End registry_theorems.

(** ** Checks of parents and relations *)






Lemma append_inv_head (s x y : string) : s +:+ x = s +:+ y → x = y.
Proof.
  induction s as [|c s IH]; [done|]. rewrite !append_cons. intros [= H].
  by apply IH.
Qed.


Lemma avoids_Ok {A} bad (a : A) : avoids bad (Ok a).
Proof. intros e [=]. Qed.

Lemma avoids_bind {A B} bad (f : A → result B) (r : result A) :
  avoids bad r → (∀ a, avoids bad (f a)) → avoids bad (r ≫= f).
Proof.
  intros Hr Hf. destruct r as [a|e]; simpl; [apply Hf|].
  intros e' [= <-]. by apply Hr.
Qed.

Lemma avoids_for_each {A} bad (f : A → result unit) l :
  (∀ x, avoids bad (f x)) → avoids bad (for_each f l).
Proof.
  intros Hf. induction l as [|x l IH]; simpl; [apply avoids_Ok|].
  apply avoids_bind; [apply Hf|done].
Qed.

Lemma avoids_getitem {K A} `{Countable K} bad (d : gmap K A) k :
  ¬ bad KeyError → avoids bad (getitem d k).
Proof. intros Hb. unfold getitem. destruct (d !! k); intros e [= <-]. done. Qed.

(** X13.  [CheckEventTypeParents] never raises its error about an
    unknown child property: the merge strategy of the child property is
    read before the test, so an undefined child property raises
    [KeyError]. *)
Theorem CheckEventTypeParents_never_unknown_child d name child :
  CheckEventTypeParents d name ≠ Raise (unknown_child name child).
Proof.
  intros Hraise.
  assert (Hk : ¬ (λ e, ∃ c, e = unknown_child name c) KeyError)
    by (by intros [c [=]]).
  assert (Hmsg : ∀ (A : Type) (c : ascii) (rest : string),
            c ≠ "u"%char →
            avoids (λ e, ∃ c, e = unknown_child name c)
              (@Error A ("Event type " +:+ name
                          +:+ " contains a parent definition which refers to "
                          +:+ String c rest))).
  { intros A c rest Hc e [= <-] [c' [= H]].
    apply (append_inv_head name) in H. vm_compute in H. by simplify_eq. }
  assert (Hlacks : ∀ (A : Type) (rest : string),
            avoids (λ e, ∃ c, e = unknown_child name c)
              (@Error A ("Event type " +:+ name
                          +:+ " contains a parent definition which lacks"
                          +:+ rest))).
  { intros A rest e [= <-] [c' [= H]].
    apply (append_inv_head name) in H. vm_compute in H. by simplify_eq. }
  enough (avoids (λ e, ∃ c, e = unknown_child name c)
            (CheckEventTypeParents d name)) as Hav.
  { eapply Hav; [exact Hraise|]. by exists child. }
  clear Hraise. unfold CheckEventTypeParents.
  apply avoids_bind; [by apply avoids_getitem|]. intros et.
  destruct (parent et) as [attrs|]; [|apply avoids_Ok].
  apply avoids_bind; [by apply avoids_getitem|]. intros pname.
  apply avoids_bind.
  { destruct (negb _); [|apply avoids_Ok].
    by apply (Hmsg unit "e"%char). }
  intros _. apply avoids_bind; [by apply avoids_getitem|]. intros pet.
  apply avoids_bind.
  { apply avoids_for_each. intros u. destruct (negb _); [|apply avoids_Ok].
    apply (Hlacks unit). }
  intros _. apply avoids_for_each. intros [c q]. unfold check_mapping, getitem.
  destruct (properties et !! c) as [a|] eqn:Hc;
    cbn [mbind result_mbind result_bind];
    [|intros e He; injection He as <-; exact Hk].
  destruct (a !! "merge") as [m|]; cbn [mbind result_mbind result_bind];
    [|intros e He; injection He as <-; exact Hk].
  rewrite (bool_decide_eq_true_2 (c ∈ dom (properties et)))
    by (apply elem_of_dom; eauto).
  cbn [negb mbind result_mbind result_bind].
  apply avoids_bind.
  { destruct (_ && _); [|apply avoids_Ok]. by apply (Hmsg unit "c"%char). }
  intros _. destruct (negb _); [|apply avoids_Ok].
  by apply (Hmsg unit "p"%char).
Qed.

Lemma span_append p s a b : PyNum.span p s = (a, b) → s = a +:+ b.
Proof.
  revert a b. induction s as [|c s IH]; intros a b; simpl.
  - by intros [= <- <-].
  - destruct (p c).
    + destruct (PyNum.span p s) as [a' b']. intros [= <- <-].
      rewrite append_cons. f_equal. by apply IH.
    + by intros [= <- <-].
Qed.

Lemma placeholder_here_Some s group rest :
  placeholder_here s = Some (group, rest) →
  s = "[[" +:+ group +:+ "]]" +:+ rest.
Proof.
  unfold placeholder_here.
  destruct s as [|c1 [|c2 s1]]; try discriminate.
  - by destruct c1 as [[] [] [] [] [] [] [] []].
  - destruct (Ascii.eqb_spec c1 "["); [subst|].
    2: { by destruct c1 as [[] [] [] [] [] [] [] []]. }
    destruct (Ascii.eqb_spec c2 "["); [subst|].
    2: { by destruct c2 as [[] [] [] [] [] [] [] []]. }
    destruct (PyNum.span _ s1) as [g t] eqn:Hspan.
    apply span_append in Hspan as ->.
    destruct t as [|d1 [|d2 t]]; try discriminate.
    + by destruct d1 as [[] [] [] [] [] [] [] []].
    + destruct (Ascii.eqb_spec d1 "]"); [subst|].
      2: { by destruct d1 as [[] [] [] [] [] [] [] []]. }
      destruct (Ascii.eqb_spec d2 "]"); [subst|].
      2: { by destruct d2 as [[] [] [] [] [] [] [] []]. }
      intros [= <- <-]. reflexivity.
Qed.

Lemma findall_placeholders_occur fuel s g :
  g ∈ findall_placeholders fuel s → occurs ("[[" +:+ g +:+ "]]") s.
Proof.
  revert s. induction fuel as [|fuel IH]; intros s; simpl.
  { by intros ?%elem_of_nil. }
  destruct (placeholder_here s) as [[group rest]|] eqn:Hhere.
  - apply placeholder_here_Some in Hhere as ->.
    intros [->|Hin]%elem_of_cons.
    + exists ""%string, rest. by rewrite !append_assoc.
    + destruct (IH _ Hin) as (pre & post & ->).
      exists ("[[" +:+ group +:+ "]]" +:+ pre), post.
      by rewrite !append_assoc.
  - destruct s as [|c s]; [by intros ?%elem_of_nil|].
    intros (pre & post & ->)%IH. by exists (String c pre), post.
Qed.

Lemma check_relation_Ok d name et id attrs :
  EventTypes d !! name = Some et →
  check_relation d name (id, attrs) = Ok ()
  ↔ ∃ a b descr,
      attrs !! "property1" = Some a ∧ attrs !! "property2" = Some b
      ∧ attrs !! "description" = Some descr
      ∧ a ∈ placeholders descr ∧ b ∈ placeholders descr
      ∧ a ∈ dom (properties et) ∧ b ∈ dom (properties et).
Proof.
  intros Het. unfold check_relation, PropertyDefined, getitem. rewrite Het.
  cbn [mbind result_mbind result_bind].
  destruct (attrs !! "description") as [descr|].
  2: { split; [discriminate|]. by intros (? & ? & ? & _ & _ & [=] & _). }
  destruct (attrs !! "property1") as [a|]; cbn [is_in negb mbind result_mbind result_bind].
  2: { split; [discriminate|]. by intros (? & ? & ? & [=] & _). }
  destruct (elem a (placeholders descr)) eqn:Ha;
    cbn [negb mbind result_mbind result_bind].
  2: { split; [discriminate|].
       intros (? & ? & ? & [= <-] & _ & [= <-] & Hin%elem_elem & _). congruence. }
  apply elem_elem in Ha.
  destruct (attrs !! "property2") as [b|]; cbn [is_in negb mbind result_mbind result_bind].
  2: { split; [discriminate|]. by intros (? & ? & ? & _ & [=] & _). }
  destruct (elem b (placeholders descr)) eqn:Hb;
    cbn [negb mbind result_mbind result_bind].
  2: { split; [discriminate|].
       intros (? & ? & ? & _ & [= <-] & [= <-] & _ & Hin%elem_elem & _).
       congruence. }
  apply elem_elem in Hb.
  destruct (bool_decide (a ∈ dom (properties et))) eqn:Hda;
    cbn [negb mbind result_mbind result_bind].
  2: { apply bool_decide_eq_false in Hda. split; [discriminate|].
       intros (? & ? & ? & [= <-] & _ & _ & _ & _ & ? & _). done. }
  apply bool_decide_eq_true in Hda.
  destruct (bool_decide (b ∈ dom (properties et))) eqn:Hdb;
    cbn [negb mbind result_mbind result_bind].
  2: { apply bool_decide_eq_false in Hdb. split; [discriminate|].
       intros (? & ? & ? & _ & [= <-] & _ & _ & _ & _ & ?). done. }
  apply bool_decide_eq_true in Hdb.
  split; [|done]. intros _. by exists a, b, descr.
Qed.

(** X14.  For a defined event type [CheckEventTypeRelations] returns
    exactly when every relation of the event type has the attributes
    property1, property2 and description, both properties are placeholders
    of the description and both are properties of the event type; and a
    placeholder of a description occurs in it between double square
    brackets. *)
Theorem CheckEventTypeRelations_accepts_iff d name et :
  EventTypes d !! name = Some et →
  (CheckEventTypeRelations d name = Ok ()
   ↔ ∀ id attrs,
       relations et !! id = Some attrs →
       ∃ a b descr,
         attrs !! "property1" = Some a ∧ attrs !! "property2" = Some b
         ∧ attrs !! "description" = Some descr
         ∧ a ∈ placeholders descr ∧ b ∈ placeholders descr
         ∧ a ∈ dom (properties et) ∧ b ∈ dom (properties et))
  ∧ ∀ descr p, p ∈ placeholders descr → occurs ("[[" +:+ p +:+ "]]") descr.
Proof.
  intros Het. split; [|intros descr p; apply findall_placeholders_occur].
  unfold CheckEventTypeRelations, getitem. rewrite Het.
  cbn [mbind result_mbind result_bind]. rewrite for_each_Ok. split.
  - intros H id attrs Hid. apply (check_relation_Ok d name et id attrs Het), H.
    by apply elem_of_map_to_list.
  - intros H [id attrs] Hid%elem_of_map_to_list.
    apply (check_relation_Ok d name et id attrs Het). by apply (H id).
Qed.

(** ** Merging with the simple strategies *)

Lemma merge_property_simple self etn et names Source Target p src tgt :
  EventTypes self !! etn = Some et → simple_strategies et names →
  p ∈ names → Source !! p = Some src → Target !! p = Some tgt →
  ∃ T', merge_property self etn Source Target p = Ok T'
        ∧ T' !! p = Some (merged et p src tgt)
        ∧ ∀ q, q ≠ p → T' !! q = Target !! q.
Proof.
  intros Het Hsimple Hp Hsrc Htgt. unfold merge_property, getitem, merged, strategy.
  rewrite Het. cbn [mbind result_mbind result_bind].
  destruct (bool_decide (p ∈ unique_properties et)) eqn:Hu.
  { by exists Target. }
  apply bool_decide_eq_false in Hu.
  destruct (Hsimple p Hp) as [?|(attrs & m & Ha & Hm & Hmm)]; [done|].
  rewrite Ha. cbn [mbind result_mbind result_bind]. rewrite Hm.
  cbn [mbind result_mbind result_bind]. rewrite Hmm, Hsrc.
  cbn [mbind result_mbind result_bind].
  destruct (String.eqb m "add").
  { rewrite Htgt. cbn [mbind result_mbind result_bind].
    eexists. split; [done|]. split; [by rewrite lookup_insert_eq|].
    intros q Hq. by rewrite lookup_insert_ne. }
  destruct (String.eqb m "replace").
  { eexists. split; [done|]. split; [by rewrite lookup_insert_eq|].
    intros q Hq. by rewrite lookup_insert_ne. }
  by exists Target.
Qed.

Lemma merge_loop_simple self etn et names Source keys Target :
  EventTypes self !! etn = Some et → simple_strategies et names →
  NoDup keys → (∀ k, k ∈ keys → k ∈ names) →
  (∀ q, q ∈ names → is_Some (Source !! q)) →
  (∀ q, q ∈ names → is_Some (Target !! q)) →
  ∃ T', merge_loop self etn Source keys Target = Ok T'
        ∧ ∀ q, T' !! q
               = if decide (q ∈ keys)
                 then Some (merged et q (default ∅ (Source !! q))
                              (default ∅ (Target !! q)))
                 else Target !! q.
Proof.
  intros Het Hsimple Hnd Hkeys HS. revert Target Hnd Hkeys.
  induction keys as [|k keys IH]; intros Target Hnd Hkeys HT;
    cbn [merge_loop].
  - exists Target. split; [done|]. intros q.
    by rewrite decide_False by apply not_elem_of_nil.
  - apply NoDup_cons in Hnd as [Hk Hnd].
    assert (Hkn : k ∈ names) by (apply Hkeys; left).
    destruct (HS k Hkn) as [src Hsrc]. destruct (HT k Hkn) as [tgt Htgt].
    destruct (merge_property_simple self etn et names Source Target k src tgt)
      as (T1 & -> & Hk1 & Hother); auto.
    cbn [mbind result_mbind result_bind].
    destruct (IH T1 Hnd) as (T' & -> & HT').
    { intros k' Hk'. apply Hkeys. by right. }
    { intros q Hq. destruct (decide (q = k)) as [->|Hne]; [by rewrite Hk1|].
      rewrite Hother by done. by apply HT. }
    exists T'. split; [done|]. intros q. rewrite HT'.
    destruct (decide (q ∈ keys)) as [Hq|Hq].
    + rewrite decide_True by (by right).
      assert (q ≠ k) by (intros ->; done). by rewrite Hother.
    + destruct (decide (q = k)) as [->|Hne].
      * rewrite decide_True by left. by rewrite Hk1, Hsrc, Htgt.
      * rewrite decide_False by (intros [?|?]%elem_of_cons; done).
        by apply Hother.
Qed.

Lemma event_updated_false names Original Target :
  event_updated names Original Target = Ok false →
  ∀ p, p ∈ names → Target !! p = Original !! p.
Proof.
  induction names as [|p names IH]; simpl; [intros _ q []%elem_of_nil|].
  intros H. apply bind_Ok in H as (fresh & Hfresh & H).
  destruct fresh; [discriminate|].
  apply bind_Ok in H as (t & Ht%getitem_Ok & H).
  apply bind_Ok in H as (o & Ho%getitem_Ok & H).
  destruct (bool_decide (t ≠ o)) eqn:Hne; [discriminate|].
  apply bool_decide_eq_false in Hne. apply dec_stable in Hne as ->.
  intros q [->|Hq]%elem_of_cons; [congruence|]. by apply IH.
Qed.

Lemma event_updated_names names Original Target :
  event_updated names Original Target = Ok true →
  (∀ q, q ∈ names → is_Some (Original !! q)) →
  ∃ p, p ∈ names ∧ Target !! p ≠ Original !! p.
Proof.
  intros (p & t & Hp & Ht & Ho)%event_updated_true HO.
  exists p. split; [done|]. rewrite Ht.
  destruct Ho as [Ho|(o & -> & Hne)]; [|congruence].
  destruct (HO p Hp) as [? ?]. congruence.
Qed.

(** What [merge_objects] computes for the simple strategies. *)
Lemma merge_objects_simple self etn et names A B :
  EventTypes self !! etn = Some et → unique et = true →
  PropertyNames self !! etn = Some names → simple_strategies et names →
  ∃ T : gmap string (gset string),
    (∀ p, T !! p = if decide (p ∈ names)
                   then Some (merged et p (value_set B p) (value_set A p))
                   else None)
    ∧ merge_objects self etn A B
      = Ok (if bool_decide
                    (Forall (λ p, merged et p (value_set B p) (value_set A p)
                                  = value_set A p) names)
            then None else Some (elements <$> T)).
Proof.
  intros Het Hu Hnames Hsimple.
  unfold merge_objects, GetEventTypeProperties, getitem.
  rewrite Het. cbn [mbind result_mbind result_bind]. rewrite Hu, Hnames.
  cbn [negb mbind result_mbind result_bind].
  destruct (merge_loop_simple self etn et names (value_sets names B)
              (elements (dom (value_sets names B)))
              (value_sets names A))
    as (T & -> & HT); auto using value_sets_is_Some.
  { apply NoDup_elements. }
  { intros k Hk. by apply elem_of_elements, value_sets_dom in Hk. }
  cbn [mbind result_mbind result_bind]. rewrite filter_none.
  2: { intros p Hp. apply andb_false_iff. left. apply negb_false_iff.
       apply bool_decide_eq_true. by apply value_sets_dom. }
  cbn [remove_loop mbind result_mbind result_bind].
  assert (HT' : ∀ p, T !! p = if decide (p ∈ names)
                   then Some (merged et p (value_set B p) (value_set A p))
                   else None).
  { intros p. rewrite HT. rewrite !value_sets_lookup.
    destruct (decide (p ∈ names)) as [Hp|Hp].
    - rewrite decide_True; [done|]. by apply elem_of_elements, value_sets_dom.
    - rewrite decide_False; [done|]. by rewrite elem_of_elements, value_sets_dom. }
  exists T. split; [exact HT'|].
  destruct (event_updated_total names (value_sets names A) T) as [upd Hupd];
    auto using value_sets_is_Some.
  { intros q Hq. rewrite HT', decide_True by done. eauto. }
  rewrite Hupd. cbn [mbind result_mbind result_bind]. destruct upd.
  - apply event_updated_names in Hupd as (p & Hp & Hne);
      auto using value_sets_is_Some.
    rewrite bool_decide_eq_false_2; [done|]. intros Hall. apply Hne.
    rewrite HT', value_sets_lookup, !decide_True by done. f_equal.
    by apply (proj1 (Forall_forall _ _) Hall).
  - rewrite bool_decide_eq_true_2; [done|]. apply Forall_forall. intros p Hp.
    pose proof (event_updated_false _ _ _ Hupd p Hp) as Heq.
    rewrite HT', value_sets_lookup, !decide_True in Heq by done. congruence.
Qed.

Lemma value_set_elements (T : gmap string (gset string)) p :
  value_set (elements <$> T) p = default ∅ (T !! p).
Proof.
  unfold value_set. rewrite lookup_fmap. destruct (T !! p) as [t|]; simpl.
  - by rewrite list_to_set_elements_L.
  - done.
Qed.

Lemma merged_again et p (source target : gset string) :
  merged et p source (merged et p source target) = merged et p source target.
Proof.
  unfold merged. destruct (bool_decide (p ∈ unique_properties et)); [done|].
  destruct (strategy et p) as [m|]; [|done].
  destruct (String.eqb m "add"); [set_solver|].
  by destruct (String.eqb m "replace").
Qed.

Lemma merged_self et p (objects : gset string) :
  merged et p objects objects = objects.
Proof.
  unfold merged. destruct (bool_decide (p ∈ unique_properties et)); [done|].
  destruct (strategy et p) as [m|]; [|done].
  destruct (String.eqb m "add"); [set_solver|].
  by destruct (String.eqb m "replace").
Qed.

Lemma merge_simple_run self etn et names a b h :
  EventTypes self !! etn = Some et → unique et = true →
  PropertyNames self !! etn = Some names → simple_strategies et names →
  ∃ changed h',
    MergeEvents self etn a b h = Ok (changed, h')
    ∧ (∀ p, p ∈ names →
            value_set (h' a) p
            = merged et p (value_set (h b) p) (value_set (h a) p))
    ∧ (changed = true → ∀ p, p ∉ names → h' a !! p = None)
    ∧ MergeEvents self etn a b h' = Ok (false, h').
Proof.
  intros Het Hu Hnames Hsimple.
  destruct (merge_objects_simple self etn et names (h a) (h b))
    as (T & HT & Hrun); auto.
  assert (Hfix : ∀ A B : objects,
    (∀ p, p ∈ names →
          merged et p (value_set B p) (value_set A p) = value_set A p) →
    merge_objects self etn A B = Ok None).
  { intros A B Hall.
    destruct (merge_objects_simple self etn et names A B)
      as (T' & _ & ->); auto.
    rewrite bool_decide_eq_true_2; [done|]. by apply Forall_forall. }
  unfold MergeEvents. rewrite Hrun. cbn [mbind result_mbind result_bind].
  destruct (bool_decide _) eqn:Hall.
  - apply bool_decide_eq_true in Hall.
    exists false, h. split; [done|]. split; [|split; [done|]].
    + intros p Hp. symmetry. by apply (proj1 (Forall_forall _ _) Hall).
    + by rewrite Hrun.
  - exists true, (store_set h a (elements <$> T)).
    split; [done|]. rewrite store_set_eq.
    assert (HA' : ∀ p, p ∈ names →
              value_set (elements <$> T) p
              = merged et p (value_set (h b) p) (value_set (h a) p)).
    { intros p Hp. by rewrite value_set_elements, HT, decide_True. }
    split; [exact HA'|]. split.
    { intros _ p Hp. by rewrite lookup_fmap, HT, decide_False. }
    rewrite Hfix; [done|]. intros p Hp. rewrite HA' by done.
    destruct (decide (b = a)) as [->|Hne].
    + rewrite store_set_eq, HA' by done. apply merged_self.
    + rewrite store_set_ne by done. apply merged_again.
Qed.

(** ** Sticky hashes of unique event types *)

Lemma object_strings_unique_objects self etn et l acc :
  EventTypes self !! etn = Some et → unique et = true →
  object_strings self etn l acc
  = object_strings self etn (unique_objects et l) acc.
Proof.
  intros Het Hu. revert acc. unfold unique_objects.
  induction l as [|[p v] l IH]; intros acc; [done|].
  cbn [List.filter fst].
  destruct (bool_decide (p ∈ unique_properties et)) eqn:Hp.
  - cbn [object_strings]. destruct (hash_object self etn acc (p, v)); [|done].
    cbn [mbind result_mbind result_bind]. apply IH.
  - cbn [object_strings]. unfold hash_object at 1, getitem. rewrite Het.
    cbn [mbind result_mbind result_bind]. rewrite Hu, Hp.
    cbn [negb andb mbind result_mbind result_bind]. apply IH.
Qed.

(** X18.  For a unique event type both sticky hashes depend on the
    objects of the unique properties only: the objects of all other
    properties, defined or not, and the event content can be changed or
    left out without changing the result of the call. *)
Theorem sticky_hash_unique_objects self etn url et l c c' :
  EventTypes self !! etn = Some et → unique et = true →
  ComputeStickyHash self etn l c
  = ComputeStickyHash self etn (unique_objects et l) c'
  ∧ ComputeStickyHashV3 self etn url l c
    = ComputeStickyHashV3 self etn url (unique_objects et l) c'.
Proof.
  intros Het Hu. unfold ComputeStickyHash, ComputeStickyHashV3, getitem.
  rewrite <- (object_strings_unique_objects self etn et l ∅ Het Hu).
  rewrite Het. cbn [mbind result_mbind result_bind]. rewrite Hu.
  by destruct (object_strings self etn l ∅).
Qed.

(** X19.  For an event type that is not unique, an event with an object
    of a property that the event type does not have has no sticky hash:
    neither hash function returns a digest. *)
Theorem sticky_hash_needs_defined_properties self etn url et l c p v digest :
  EventTypes self !! etn = Some et → unique et = false →
  (p, v) ∈ l → properties et !! p = None →
  ComputeStickyHash self etn l c ≠ Ok digest
  ∧ ComputeStickyHashV3 self etn url l c ≠ Ok digest.
Proof.
  intros Het Hu Hin Hp.
  assert (Hno : ∀ S, object_strings self etn l ∅ ≠ Ok S).
  { intros S HS.
    destruct (object_strings_Ok self etn et l ∅ S Het HS) as [Hall _].
    destruct (Hall _ Hin) as [r Hr].
    inversion Hr as [? ? Hu' ?|? ? dt ? [a [ot [ota [Ha _]]]] ?
                     |? ? dt nv ? [a [ot [ota [Ha _]]]] ? ?];
      subst; congruence. }
  unfold ComputeStickyHash, ComputeStickyHashV3.
  destruct (object_strings self etn l ∅) as [S|e] eqn:HS;
    [by destruct (Hno S)|]. done.
Qed.

(** ** Merging keeps the sticky hash *)

Lemma merge_property_unique self etn et Source Target q T' p :
  EventTypes self !! etn = Some et →
  merge_property self etn Source Target q = Ok T' →
  p ∈ unique_properties et → T' !! p = Target !! p.
Proof.
  intros Het H Hp. unfold merge_property in H.
  apply bind_Ok in H as (et' & Het'%getitem_Ok & H). simplify_eq.
  destruct (bool_decide (q ∈ unique_properties et)) eqn:Hq; [by simplify_eq|].
  apply bool_decide_eq_false in Hq.
  assert (q ≠ p) by (intros ->; done).
  apply bind_Ok in H as (attrs & _ & H).
  apply bind_Ok in H as (m & _ & H).
  destruct (elem m ["min"; "max"]).
  { apply bind_Ok in H as (ot & _ & H). apply bind_Ok in H as (dt & _ & H).
    apply bind_Ok in H as ([v|] & _ & H); simplify_eq; [|done].
    by rewrite lookup_insert_ne. }
  destruct (String.eqb m "add").
  { apply bind_Ok in H as (src & _ & H). apply bind_Ok in H as (tgt & _ & H).
    simplify_eq. by rewrite lookup_insert_ne. }
  destruct (String.eqb m "replace").
  { apply bind_Ok in H as (src & _ & H). simplify_eq.
    by rewrite lookup_insert_ne. }
  by simplify_eq.
Qed.

Lemma merge_loop_unique self etn et Source keys Target T' p :
  EventTypes self !! etn = Some et →
  merge_loop self etn Source keys Target = Ok T' →
  p ∈ unique_properties et → T' !! p = Target !! p.
Proof.
  intros Het H Hp. revert Target H.
  induction keys as [|k keys IH]; intros Target H; cbn [merge_loop] in H.
  - by simplify_eq.
  - apply bind_Ok in H as (T1 & H1 & H). rewrite (IH _ H).
    by eapply merge_property_unique.
Qed.

Lemma merge_objects_unique self etn et names A B A' p :
  EventTypes self !! etn = Some et →
  PropertyNames self !! etn = Some names →
  merge_objects self etn A B = Ok (Some A') →
  p ∈ unique_properties et → p ∈ names →
  value_set A' p = value_set A p.
Proof.
  intros Het Hnames H Hp Hpn. unfold merge_objects in H.
  apply bind_Ok in H as (et' & Het'%getitem_Ok & H). simplify_eq.
  destruct (negb (unique et)); [discriminate|].
  apply bind_Ok in H as (names' & Hn & H).
  unfold GetEventTypeProperties in Hn. apply getitem_Ok in Hn. simplify_eq.
  apply bind_Ok in H as (T1 & H1 & H).
  rewrite filter_none in H.
  2: { intros q Hq. apply andb_false_iff. left. apply negb_false_iff.
       apply bool_decide_eq_true. by apply value_sets_dom. }
  cbn [remove_loop mbind result_mbind result_bind] in H.
  apply bind_Ok in H as (upd & _ & H). destruct upd; [|discriminate].
  simplify_eq. rewrite value_set_elements.
  rewrite (merge_loop_unique _ _ _ _ _ _ _ p Het H1 Hp).
  by rewrite value_sets_lookup, decide_True.
Qed.

Lemma elem_of_ungroup (o : objects) p v :
  (p, v) ∈ ungroup o ↔ v ∈ value_set o p.
Proof.
  unfold ungroup, value_set. rewrite list_elem_of_In, in_flat_map.
  setoid_rewrite <- list_elem_of_In. split.
  - intros ([q vs] & Hq%elem_of_map_to_list & Hin).
    apply list_elem_of_fmap in Hin as (v' & [= -> ->] & Hv).
    rewrite Hq. simpl. by apply elem_of_list_to_set.
  - destruct (o !! p) as [vs|] eqn:Hp; simpl.
    + intros Hv%elem_of_list_to_set. exists (p, vs).
      split; [by apply elem_of_map_to_list|].
      apply list_elem_of_fmap. by exists v.
    + by intros ?%elem_of_empty.
Qed.

Lemma elem_of_unique_objects et l p v :
  (p, v) ∈ unique_objects et l ↔ (p, v) ∈ l ∧ p ∈ unique_properties et.
Proof.
  unfold unique_objects. rewrite list_elem_of_In, filter_In.
  rewrite <- list_elem_of_In. simpl. by rewrite bool_decide_eq_true.
Qed.

(** X20.  Merging does not change the sticky hash: when the unique
    properties of the event type are among its listed properties and
    [MergeEvents] returns, the event rebuilt from [EventObjectsA] after the
    call has the digest that the event rebuilt from [EventObjectsA] had
    before the call, whatever the event content. *)
Theorem MergeEvents_keeps_hash self etn url et names a b h changed h' c c' digest :
  EventTypes self !! etn = Some et →
  PropertyNames self !! etn = Some names →
  (∀ p, p ∈ unique_properties et → p ∈ names) →
  MergeEvents self etn a b h = Ok (changed, h') →
  (ComputeStickyHash self etn (ungroup (h a)) c = Ok digest →
   ComputeStickyHash self etn (ungroup (h' a)) c' = Ok digest)
  ∧ (ComputeStickyHashV3 self etn url (ungroup (h a)) c = Ok digest →
     ComputeStickyHashV3 self etn url (ungroup (h' a)) c' = Ok digest).
Proof.
  intros Het Hnames Hsub Hrun.
  assert (Hu : unique et = true).
  { unfold MergeEvents, merge_objects, getitem in Hrun. rewrite Het in Hrun.
    cbn [mbind result_mbind result_bind] in Hrun.
    by destruct (unique et). }
  assert (Hsets : ∀ p, p ∈ unique_properties et →
                       value_set (h' a) p = value_set (h a) p).
  { intros p Hp. unfold MergeEvents in Hrun.
    apply bind_Ok in Hrun as ([A'|] & Hm & Hrun); simplify_eq; [|done].
    rewrite store_set_eq. eapply merge_objects_unique; eauto. }
  assert (Hsame : same_up_to_floats self et
                    (unique_objects et (ungroup (h a)))
                    (unique_objects et (ungroup (h' a)))).
  { split; intros [p v] [Hin Hp]%elem_of_unique_objects; left;
      apply elem_of_unique_objects; (split; [|done]);
      apply elem_of_ungroup; apply elem_of_ungroup in Hin.
    - by rewrite Hsets.
    - by rewrite <- Hsets. }
  assert (Hstrings : ∀ S, object_strings self etn (ungroup (h a)) ∅ = Ok S →
                          object_strings self etn (ungroup (h' a)) ∅ = Ok S).
  { intros S.
    rewrite (object_strings_unique_objects self etn et (ungroup (h a)))
      by done.
    rewrite (object_strings_unique_objects self etn et (ungroup (h' a)))
      by done.
    by apply (object_strings_same self etn et). }
  unfold ComputeStickyHash, ComputeStickyHashV3, getitem. rewrite Het.
  destruct (object_strings self etn (ungroup (h a)) ∅) as [S|e] eqn:HS.
  - rewrite (Hstrings S eq_refl). cbn [mbind result_mbind result_bind].
    by rewrite Hu.
  - split; discriminate.
Qed.

(** ** The event merger *)

Lemma EditEvent_new self buffer sid etn objs c attrs digest :
  ComputeStickyHash self etn objs c = Ok digest →
  buffer !! digest = None →
  EditEvent self buffer sid etn objs c attrs
  = Ok (objs, c, attrs, <[digest := group objs]> buffer).
Proof. intros Hd Hb. unfold EditEvent. rewrite Hd. simpl. by rewrite Hb. Qed.

(** X21.  The event merger cannot process a repeated event of an event
    type that is not unique: when [EditEvent] has returned for such an
    event, it returned the event as it is, and a second call with the
    same event raises the error of [MergeEvents] for event types that are
    not unique. *)
Theorem EditEvent_duplicate self buffer sid etn et objs c attrs out buffer' :
  EventTypes self !! etn = Some et → unique et = false →
  EditEvent self buffer sid etn objs c attrs = Ok (out, buffer') →
  out = (objs, c, attrs)
  ∧ EditEvent self buffer' sid etn objs c attrs
    = Raise (unsupported_operation etn).
Proof.
  intros Het Hu H.
  assert (Hmerge : ∀ A B, MergeEvents self etn 0 1 (cells A B)
                          = Raise (unsupported_operation etn)).
  { intros A B. unfold MergeEvents, merge_objects, getitem. rewrite Het.
    cbn [mbind result_mbind result_bind]. by rewrite Hu. }
  unfold EditEvent in *.
  destruct (ComputeStickyHash self etn objs c) as [digest|] eqn:Hd;
    [|discriminate].
  cbn [mbind result_mbind result_bind] in *.
  destruct (buffer !! digest) as [Objects|] eqn:Hb.
  - by rewrite Hmerge in H.
  - injection H as <- <-. split; [done|]. rewrite lookup_insert_eq.
    by rewrite Hmerge.
Qed.


(** X16.  For an event type whose properties are unique or merge by
    drop, add, replace or match: after [MergeEvents] has returned, merging
    the same event B into A once more returns false and changes
    nothing. *)
Theorem MergeEvents_idempotent self etn et names a b h changed h' :
  EventTypes self !! etn = Some et →
  PropertyNames self !! etn = Some names → simple_strategies et names →
  MergeEvents self etn a b h = Ok (changed, h') →
  MergeEvents self etn a b h' = Ok (false, h').
Proof.
  intros Het Hnames Hsimple Hrun.
  assert (Hu : unique et = true).
  { unfold MergeEvents, merge_objects, getitem in Hrun. rewrite Het in Hrun.
    cbn [mbind result_mbind result_bind] in Hrun.
    by destruct (unique et). }
  destruct (merge_simple_run self etn et names a b h Het Hu Hnames Hsimple)
    as (changed0 & h0 & Hrun0 & _ & _ & Hagain).
  rewrite Hrun in Hrun0. by simplify_eq.
Qed.

(** X22.  A digest returned by [ComputeStickyHash] or
    [ComputeStickyHashV3] is a string of 40 lower-case hexadecimal
    digits. *)
Theorem sticky_hash_format self etn url l c digest :
  ComputeStickyHash self etn l c = Ok digest
  ∨ ComputeStickyHashV3 self etn url l c = Ok digest →
  String.length digest = 40%nat ∧ all_chars lower_hex digest = true.
Proof.
  unfold ComputeStickyHash, ComputeStickyHashV3.
  intros [H|H]; apply bind_Ok in H as (S & _ & H);
    apply bind_Ok in H as (et & _ & H);
    destruct (unique et); injection H as <-; apply sha1_utf8_format.
Qed.

(** ** Instances of the further properties *)

Lemma lookup_default {A} (o : option A) (d : A) :
  match o with Some _ => true | None => false end = true →
  o = Some (default d o).
Proof. by destruct o. Qed.

Lemma registered_Ok (r : result Definitions) :
  is_Ok r = true → r = Ok (registered r).
Proof. by destruct r. Qed.

Lemma stored_Ok (r : result Registry) : is_Ok r = true → r = Ok (stored r).
Proof. by destruct r. Qed.

Lemma answered_Return (r : answer Registry) :
  match r with Return _ => true | Throw _ => false end = true →
  r = Return (answered r).
Proof. by destruct r. Qed.

Lemma sample_3_reachable : reachable sample_3.
Proof.
  assert (H1 : AddEventType "e" (eventtype_attrs "e") init = Ok sample_1).
  { apply registered_Ok. vm_compute. reflexivity. }
  assert (H2 : AddProperty "e" "a"
                 (property_attrs "a" "text" [("merge", "add")]) sample_1
               = Ok sample_2).
  { apply registered_Ok. vm_compute. reflexivity. }
  assert (H3 : AddProperty "e" "u"
                 (property_attrs "u" "text" [("unique", "true")]) sample_2
               = Ok sample_3).
  { apply registered_Ok. vm_compute. reflexivity. }
  exact (reach_property sample_2 "e" "u" _ sample_3
           (reach_property sample_1 "e" "a" _ sample_2
              (reach_event_type init "e" _ sample_1 reach_init H1) H2) H3).
Qed.

Lemma sample_built : built (λ _, true) sample.
Proof.
  pose (r1 := set_defs sample_1 empty).
  pose (r2 := set_defs sample_2 r1).
  pose (r3 := set_defs sample_3 r2).
  assert (H1 : AddEventType "e" (eventtype_attrs "e") (defs empty)
               = Ok sample_1).
  { apply registered_Ok. vm_compute. reflexivity. }
  assert (H2 : AddProperty "e" "a"
                 (property_attrs "a" "text" [("merge", "add")]) (defs r1)
               = Ok sample_2).
  { change (defs r1) with sample_1. apply registered_Ok.
    vm_compute. reflexivity. }
  assert (H3 : AddProperty "e" "u"
                 (property_attrs "u" "text" [("unique", "true")]) (defs r2)
               = Ok sample_3).
  { change (defs r2) with sample_2. apply registered_Ok.
    vm_compute. reflexivity. }
  assert (H4 : AddObjectType (λ _, true) "text"
                 (objecttype_attrs "text" "string:0:cs") r3
               = Return sample_4).
  { apply answered_Return. vm_compute. reflexivity. }
  assert (H5 : AddRelation "e" "a" "u"
                 (relation_attrs "a" "u" "[[a]] knows [[u]]") sample_4
               = Ok sample).
  { apply stored_Ok. vm_compute. reflexivity. }
  exact (built_relation _ sample_4 "e" "a" "u" _ sample
           (built_object_type _ r3 "text" _ sample_4
              (built_property _ r2 "e" "u" _ sample_3
                 (built_property _ r1 "e" "a" _ sample_2
                    (built_event_type _ empty "e" _ sample_1
                       (built_empty _) H1) H2) H3)
              H4) H5).
Qed.

Lemma simple_registry_e :
  EventTypes simple_registry !! "e" = Some (eventtype_e simple_registry).
Proof. apply lookup_default. vm_compute. reflexivity. Qed.

Lemma plain_registry_e :
  EventTypes plain_registry !! "e" = Some (eventtype_e plain_registry).
Proof. apply lookup_default. vm_compute. reflexivity. Qed.

Lemma simple_registry_names :
  PropertyNames simple_registry !! "e" = Some simple_names.
Proof. vm_compute. reflexivity. Qed.

Lemma simple_registry_strategies :
  simple_strategies (eventtype_e simple_registry) simple_names.
Proof.
  assert (Hs : ∀ p m,
            (attrs ← properties (eventtype_e simple_registry) !! p;
             attrs !! "merge") = Some m →
            elem m ["min"; "max"] = false →
            ∃ attrs m, properties (eventtype_e simple_registry) !! p
                       = Some attrs
                       ∧ attrs !! "merge" = Some m
                       ∧ elem m ["min"; "max"] = false).
  { intros p m Hm He.
    destruct (properties (eventtype_e simple_registry) !! p) as [attrs|];
      [|discriminate].
    by exists attrs, m. }
  intros p Hp. unfold simple_names in Hp.
  apply elem_of_cons in Hp as [->|Hp].
  { right. apply (Hs "a"%string "add"%string); vm_compute; reflexivity. }
  apply elem_of_cons in Hp as [->|Hp].
  { right. apply (Hs "r"%string "replace"%string); vm_compute; reflexivity. }
  apply elem_of_cons in Hp as [->|Hp].
  { right. apply (Hs "d"%string "drop"%string); vm_compute; reflexivity. }
  apply elem_of_cons in Hp as [->|Hp]; [|by apply elem_of_nil in Hp].
  left. apply (bool_decide_eq_true_1 _). vm_compute. reflexivity.
Qed.

Lemma simple_registry_unique_listed p :
  p ∈ unique_properties (eventtype_e simple_registry) → p ∈ simple_names.
Proof.
  assert (E : unique_properties (eventtype_e simple_registry)
              = {["u"%string]}) by (vm_compute; reflexivity).
  rewrite E. intros ->%elem_of_singleton. unfold simple_names.
  do 3 right. left.
Qed.

Lemma simple_merge :
  MergeEvents simple_registry "e" 0 1 (two_events simple_A simple_B)
  = Ok (true, store_set (two_events simple_A simple_B) 0 simple_A').
Proof. vm_compute. exact eq_refl. Qed.

Lemma plain_EditEvent :
  EditEvent plain_registry ∅ "s" "e" plain_event "c" ∅
  = Ok (plain_event, "c"%string, ∅,
        <["a6cb0d36212f1ff054132dce8b3460151d4c249f"%string
          := group plain_event]> ∅).
Proof.
  apply EditEvent_new; [vm_compute; reflexivity|apply lookup_empty].
Qed.

Lemma ValidateDataType_number_field_count_witness :
  ValidateDataType "count" "number:int:signed"
  = unsupported "count" "number:int:signed".
Proof.
  exact (ValidateDataType_number_field_count "count" "int" ["signed"%string]
           eq_refl eq_refl).
Defined.

Lemma ValidateDataType_hex_groups_witness :
  ValidateDataType "code" "number:hex:4:2::" = Return ().
Proof.
  refine (proj2 (proj1 (ValidateDataType_hex_groups "code" "4" "2"
                          [""%string; ""%string] eq_refl)) _).
  split; [by exists ""%string|]. exists 4, 2.
  split; [reflexivity|]. split; [reflexivity|]. split; [lia|reflexivity].
Defined.

Lemma ValidateDataType_decimal_scale_witness :
  ValidateDataType "price" "number:decimal:10:4" = Return ().
Proof.
  refine (proj2 (proj1 (ValidateDataType_decimal_scale "price" "10" "4" []
                          eq_refl)) _).
  split; [by left|]. exists 10, 4.
  split; [reflexivity|]. split; [reflexivity|lia].
Defined.

Lemma ValidateObject_number_unchecked_witness :
  ValidateObject "abc" "count" "number:int" = Ok ().
Proof.
  exact (ValidateObject_number_unchecked "abc" "count" "int" []
           eq_refl eq_refl).
Defined.

Lemma ValidateObject_ip_normal_form_witness :
  ∃ n0 n1 n2 n3,
    octet n0 ∧ octet n1 ∧ octet n2 ∧ octet n3
    ∧ NormalizeObject "192.168.001.001" (Py.split ":" "ip")
      = Ok (dotted n0 n1 n2 n3)
    ∧ ValidateObject (dotted n0 n1 n2 n3) "address" "ip" = Ok ()
    ∧ NormalizeObject (dotted n0 n1 n2 n3) (Py.split ":" "ip")
      = Ok (dotted n0 n1 n2 n3).
Proof.
  apply (ValidateObject_ip_normal_form "192.168.001.001" "address").
  vm_compute. reflexivity.
Defined.

Lemma NormalizeObject_idempotent_exact_witness :
  NormalizeObject "7" ["number"; "int"]%string = Ok "7"%string.
Proof.
  apply (NormalizeObject_idempotent_exact "007").
  - reflexivity.
  - vm_compute. reflexivity.
Defined.

Lemma registry_derived_sets_witness : derived_sets (eventtype_e sample_3).
Proof.
  apply (registry_derived_sets sample_3 "e").
  - exact sample_3_reachable.
  - apply lookup_default. vm_compute. reflexivity.
Defined.

Lemma registry_name_lists_witness :
  lists (GetObjectTypeNames sample) (ObjectTypes (defs sample)).
Proof.
  exact (proj1 (proj2 (registry_name_lists (λ _, true) sample sample_built))).
Defined.

Lemma registry_object_type_index_witness :
  NoDup (GetEventTypesHavingObjectType (defs sample) "text").
Proof.
  exact (proj2 (registry_object_type_index (λ _, true) sample sample_built)
           "text"%string).
Defined.

Lemma CheckPropertyObjectTypes_lookups_witness :
  CheckPropertyObjectTypes (defs sample) = Ok ()
  ↔ ∀ n p ot, has_object_type (defs sample) n p ot →
              ObjectTypeDefined (defs sample) ot = true.
Proof.
  exact (proj1 (CheckPropertyObjectTypes_lookups (λ _, true) sample sample_built)).
Defined.


Lemma CheckEventTypeRelations_accepts_iff_witness :
  let attrs := default ∅ (relations (eventtype_e (defs sample))
                            !! "a -> u"%string) in
  ∃ a b descr,
    attrs !! "property1" = Some a ∧ attrs !! "property2" = Some b
    ∧ attrs !! "description" = Some descr
    ∧ a ∈ placeholders descr ∧ b ∈ placeholders descr
    ∧ a ∈ dom (properties (eventtype_e (defs sample)))
    ∧ b ∈ dom (properties (eventtype_e (defs sample))).
Proof.
  refine (proj1 (proj1 (CheckEventTypeRelations_accepts_iff (defs sample) "e"
                          (eventtype_e (defs sample)) _)) _
            "a -> u"%string _ _).
  - apply lookup_default. vm_compute. reflexivity.
  - vm_compute. reflexivity.
  - apply lookup_default. vm_compute. reflexivity.
Defined.


Lemma MergeEvents_idempotent_witness :
  MergeEvents simple_registry "e" 0 1
    (store_set (two_events simple_A simple_B) 0 simple_A')
  = Ok (false, store_set (two_events simple_A simple_B) 0 simple_A').
Proof.
  apply (MergeEvents_idempotent simple_registry "e"
           (eventtype_e simple_registry) simple_names 0 1
           (two_events simple_A simple_B) true
           (store_set (two_events simple_A simple_B) 0 simple_A')).
  - exact simple_registry_e.
  - exact simple_registry_names.
  - exact simple_registry_strategies.
  - exact simple_merge.
Defined.

Lemma merge_min_max_integer_witness :
  ∃ values m,
    Forall2 (λ s n, Py.int s = Ok n)
      (elements ({["3"%string]} : gset string)
         ++ elements ({["5"%string]} : gset string)) values
    ∧ Some "3"%string = Some (Py.str_int m) ∧ m ∈ values
    ∧ ∀ n, n ∈ values → if true then m ≤ n else n ≤ m.
Proof.
  apply (merge_min_max_integer true "int" [] "m"
           {["m"%string := {["3"%string]}]} {["m"%string := {["5"%string]}]}).
  - reflexivity.
  - discriminate.
  - vm_compute. reflexivity.
  - vm_compute. reflexivity.
  - vm_compute. reflexivity.
Defined.

Lemma sticky_hash_unique_objects_witness :
  ComputeStickyHash simple_registry "e" [("a", "x"); ("u", "k")]%string "c"
  = ComputeStickyHash simple_registry "e"
      (unique_objects (eventtype_e simple_registry)
         [("a", "x"); ("u", "k")]%string) "other"
  ∧ ComputeStickyHashV3 simple_registry "e" "url"
      [("a", "x"); ("u", "k")]%string "c"
    = ComputeStickyHashV3 simple_registry "e" "url"
        (unique_objects (eventtype_e simple_registry)
           [("a", "x"); ("u", "k")]%string) "other".
Proof.
  apply (sticky_hash_unique_objects simple_registry "e" "url"
           (eventtype_e simple_registry)).
  - exact simple_registry_e.
  - vm_compute. reflexivity.
Defined.

Lemma sticky_hash_needs_defined_properties_witness :
  ComputeStickyHash plain_registry "e" [("zz", "v")]%string "c" ≠ Ok ""%string
  ∧ ComputeStickyHashV3 plain_registry "e" "url" [("zz", "v")]%string "c"
    ≠ Ok ""%string.
Proof.
  apply (sticky_hash_needs_defined_properties plain_registry "e" "url"
           (eventtype_e plain_registry) [("zz", "v")]%string "c" "zz" "v").
  - exact plain_registry_e.
  - vm_compute. reflexivity.
  - left.
  - vm_compute. reflexivity.
Defined.

Lemma MergeEvents_keeps_hash_witness :
  (ComputeStickyHash simple_registry "e"
     (ungroup (two_events simple_A simple_B 0%nat)) "c"
   = Ok "9982114916c0d5d36d71dcdbcbd33eb3f04b53fc"%string →
   ComputeStickyHash simple_registry "e"
     (ungroup (store_set (two_events simple_A simple_B) 0 simple_A' 0%nat))
     "other"
   = Ok "9982114916c0d5d36d71dcdbcbd33eb3f04b53fc"%string)
  ∧ (ComputeStickyHashV3 simple_registry "e" "url"
       (ungroup (two_events simple_A simple_B 0%nat)) "c"
     = Ok "9982114916c0d5d36d71dcdbcbd33eb3f04b53fc"%string →
     ComputeStickyHashV3 simple_registry "e" "url"
       (ungroup (store_set (two_events simple_A simple_B) 0 simple_A' 0%nat))
       "other"
     = Ok "9982114916c0d5d36d71dcdbcbd33eb3f04b53fc"%string).
Proof.
  apply (MergeEvents_keeps_hash simple_registry "e" "url"
           (eventtype_e simple_registry) simple_names 0 1
           (two_events simple_A simple_B) true
           (store_set (two_events simple_A simple_B) 0 simple_A')).
  - exact simple_registry_e.
  - exact simple_registry_names.
  - exact simple_registry_unique_listed.
  - exact simple_merge.
Defined.

Lemma EditEvent_duplicate_witness :
  (plain_event, "c"%string, (∅ : gmap string string))
  = (plain_event, "c"%string, ∅)
  ∧ EditEvent plain_registry
      (<["a6cb0d36212f1ff054132dce8b3460151d4c249f"%string
         := group plain_event]> ∅) "s" "e" plain_event "c" ∅
    = Raise (unsupported_operation "e").
Proof.
  apply (EditEvent_duplicate plain_registry ∅ "s" "e"
           (eventtype_e plain_registry) plain_event "c" ∅
           (plain_event, "c"%string, ∅)
           (<["a6cb0d36212f1ff054132dce8b3460151d4c249f"%string
              := group plain_event]> ∅)).
  - exact plain_registry_e.
  - vm_compute. reflexivity.
  - exact plain_EditEvent.
Defined.

Lemma sticky_hash_format_witness :
  String.length "a6cb0d36212f1ff054132dce8b3460151d4c249f" = 40%nat
  ∧ all_chars lower_hex "a6cb0d36212f1ff054132dce8b3460151d4c249f" = true.
Proof.
  apply (sticky_hash_format plain_registry "e" "url" plain_event "c").
  left. vm_compute. reflexivity.
Defined.

(** * Sources, reporter strings and further indexes *)

Import Sources Reporter ClassQueries Invariants SourceSamples.

(** ** Event sources *)

Lemma AddSource_effect url a h self self' :
  AddSource url a h self = Ok self' →
  ∃ id,
    h a !! "source-id" = Some id
    ∧ SourceIDs self' = <[id := url]> (SourceIDs self)
    ∧ ((∃ current,
          SourceURLs self !! url = Some current
          ∧ CheckEdxmlEntityConsistency "source" url (h current) (h a) = Ok ()
          ∧ SourceURLs self' = SourceURLs self
          ∧ Sources self' = Sources self)
       ∨ (SourceURLs self !! url = None
          ∧ ValidateEdxmlEntityAttributes "source" (h a) = Ok ()
          ∧ SourceURLs self' = <[url := a]> (SourceURLs self)
          ∧ Sources self' = Sources self ++ [id])).
Proof.
  unfold AddSource. intros (id & Hid%getitem_Ok & H)%bind_Ok.
  exists id. split; [done|]. cbn [SourceURLs] in H.
  destruct (SourceURLs self !! url) as [current|] eqn:Hc.
  - apply bind_Ok in H as ([] & Hcheck & [= <-]).
    split; [done|]. left. by exists current.
  - unfold AddNewSource in H.
    apply bind_Ok in H as ([] & Hv & [= <-]).
    split; [done|]. by right.
Qed.

(** What the three fields of a source table say about each other. *)
Lemma sourced_resolved h self :
  sourced h self →
  (∀ id, id ∈ Sources self ↔ id ∈ dom (SourceIDs self))
  ∧ (∀ id url, SourceIDs self !! id = Some url →
               ∃ a, SourceURLs self !! url = Some a
                    ∧ h a !! "source-id" = Some id)
  ∧ (∀ url a, SourceURLs self !! url = Some a →
              ValidateEdxmlEntityAttributes "source" (h a) = Ok ()
              ∧ ∃ id, h a !! "source-id" = Some id
                      ∧ id ∈ dom (SourceIDs self)).
Proof.
  induction 1 as [|self url a self' _ (I1 & I2 & I3) Hadd].
  - split; [|split].
    + intros id. simpl. rewrite dom_empty. set_solver.
    + intros id url. simpl. by rewrite lookup_empty.
    + intros url a. simpl. by rewrite lookup_empty.
  - apply AddSource_effect in Hadd as (id & Hid & Hids & Hcase).
    destruct Hcase as [(current & Hc & Hcheck & Hurls & Hsrc)
                      |(Hc & Hv & Hurls & Hsrc)].
    + (* the URL was known: the stored dict has the same source id *)
      destruct (I3 url current Hc) as (Hvc & id' & Hid' & Hdom).
      apply CheckEdxmlEntityConsistency_accepts_iff in Hcheck
        as (Hsame & _ & _).
      pose proof (Hsame _ _ _ Hid' Hid) as ->.
      rewrite Hids, Hurls, Hsrc. split; [|split].
      * intros i. rewrite dom_insert, I1. set_solver.
      * intros i u. destruct (decide (i = id)) as [->|Hne].
        -- rewrite lookup_insert_eq. intros [= <-]. by exists current.
        -- rewrite lookup_insert_ne by done. apply I2.
      * intros u b Hb. destruct (I3 u b Hb) as (Hvb & i & Hi & Hin).
        split; [done|]. exists i. split; [done|].
        rewrite dom_insert. set_solver.
    + rewrite Hids, Hurls, Hsrc. split; [|split].
      * intros i. rewrite dom_insert, elem_of_app, I1, list_elem_of_singleton.
        set_solver.
      * intros i u. destruct (decide (i = id)) as [->|Hne].
        -- rewrite lookup_insert_eq. intros [= <-]. exists a.
           by rewrite lookup_insert_eq.
        -- rewrite lookup_insert_ne by done. intros Hi.
           destruct (I2 i u Hi) as (b & Hb & Hib). exists b.
           rewrite lookup_insert_ne; [done|]. intros <-. congruence.
      * intros u b. destruct (decide (u = url)) as [->|Hne].
        -- rewrite lookup_insert_eq. intros [= <-]. split; [done|].
           exists id. split; [done|]. rewrite dom_insert. set_solver.
        -- rewrite lookup_insert_ne by done. intros Hb.
           destruct (I3 u b Hb) as (Hvb & i & Hi & Hin).
           split; [done|]. exists i. split; [done|].
           rewrite dom_insert. set_solver.
Qed.

(** X23.  In a source table built by [AddSource] calls that returned,
    [GetSourceIDs] lists exactly the source ids that [SourceIdDefined]
    knows; a known source id resolves to an attribute dict that carries
    this id; and the dict of every source URL was validated and carries a
    known source id. *)
Theorem sources_resolve h self :
  sourced h self →
  (∀ id, id ∈ GetSourceIDs self ↔ SourceIdDefined self id = true)
  ∧ (∀ id, SourceIdDefined self id = true →
           ∃ a, GetSourceIdProperties self id = Ok a
                ∧ h a !! "source-id" = Some id)
  ∧ (∀ url a, GetSourceURLProperties self url = Ok a →
              ValidateEdxmlEntityAttributes "source" (h a) = Ok ()
              ∧ ∃ id, GetSourceId self h url = Ok id
                      ∧ SourceIdDefined self id = true).
Proof.
  intros (I1 & I2 & I3)%sourced_resolved.
  unfold GetSourceIDs, SourceIdDefined, GetSourceIdProperties,
    GetSourceURLProperties, GetSourceId.
  split; [|split].
  - intros id. by rewrite bool_decide_eq_true.
  - intros id [url Hurl]%bool_decide_eq_true%elem_of_dom.
    destruct (I2 id url Hurl) as (a & Ha & Hid). exists a.
    split; [|done]. unfold getitem. rewrite Hurl. simpl. by rewrite Ha.
  - intros url a Ha%getitem_Ok.
    destruct (I3 url a Ha) as (Hv & id & Hid & Hdom). split; [done|].
    exists id. split; [|by apply bool_decide_eq_true].
    unfold getitem. rewrite Ha. simpl. by rewrite Hid.
Qed.

Lemma str_int_inj z1 z2 : Py.str_int z1 = Py.str_int z2 → z1 = z2.
Proof.
  intros H. pose proof (int_str_int z1) as H1. rewrite H in H1.
  rewrite int_str_int in H1. congruence.
Qed.

Lemma dicts_set_eq h a d : dicts_set h a d a = d.
Proof. unfold dicts_set. by rewrite Nat.eqb_refl. Qed.

Lemma dicts_set_ne h a d l : l ≠ a → dicts_set h a d l = h l.
Proof.
  intros Hne. unfold dicts_set.
  by destruct (Nat.eqb_spec l a) as [->|_].
Qed.

(** The loop of [UniqueSourceIDs], for any order of the keys. *)
Lemma renumber_spec keys :
  ∀ c M self h,
    NoDup keys →
    (∀ u, u ∈ keys → is_Some (SourceURLs self !! u)) →
    ∃ M' self' h',
      renumber keys c M self h = Ok (M', self', h')
      ∧ SourceURLs self' = SourceURLs self
      ∧ Sources self' = Sources self
      ∧ (∀ i u, keys !! i = Some u →
                M' !! u = Some (Py.str_int (c + Z.of_nat i))
                ∧ SourceIDs self' !! Py.str_int (c + Z.of_nat i) = Some u)
      ∧ (∀ u, u ∉ keys → M' !! u = M !! u)
      ∧ (∀ id, (∀ i, (i < length keys)%nat →
                     id ≠ Py.str_int (c + Z.of_nat i)) →
               SourceIDs self' !! id = SourceIDs self !! id)
      ∧ (∀ a k, k ≠ "source-id"%string → h' a !! k = h a !! k)
      ∧ (∀ a, (∀ u, u ∈ keys → SourceURLs self !! u ≠ Some a) →
              h' a = h a)
      ∧ (∀ i u a,
           keys !! i = Some u → SourceURLs self !! u = Some a →
           (∀ j u', (i < j)%nat → keys !! j = Some u' →
                    SourceURLs self !! u' ≠ Some a) →
           h' a !! "source-id" = Some (Py.str_int (c + Z.of_nat i))).
Proof.
  induction keys as [|u keys IH]; intros c M self h Hnd Hkeys.
  - exists M, self, h. simpl. repeat split; try done.
  - apply NoDup_cons in Hnd as [Hu Hnd].
    destruct (Hkeys u) as [a Ha]; [left|].
    cbn [renumber]. unfold getitem at 1. rewrite Ha.
    cbn [mbind result_mbind result_bind].
    set (id := Py.str_int c).
    set (h1 := dicts_set h a (<["source-id" := id]> (h a))).
    set (self1 := mkSourceTable (<[id := u]> (SourceIDs self))
                    (SourceURLs self) (Sources self)).
    destruct (IH (c + 1) (<[u := id]> M) self1 h1 Hnd)
      as (M' & self' & h' & Hrun & Hurls & Hsrc & Hmap & Hrest & Hids
          & Hkeep & Hframe & Hlast).
    { intros v Hv. apply Hkeys. by right. }
    exists M', self', h'. split; [done|].
    split; [done|]. split; [done|].
    split; [|split; [|split; [|split; [|split]]]].
    + intros [|i] v Hv; simpl in Hv.
      * injection Hv as <-. rewrite Z.add_0_r. split.
        -- rewrite Hrest by done. by rewrite lookup_insert_eq.
        -- rewrite Hids.
           ++ simpl. by rewrite lookup_insert_eq.
           ++ intros i _ Heq%str_int_inj. lia.
      * replace (c + Z.of_nat (S i)) with (c + 1 + Z.of_nat i) by lia.
        by apply Hmap.
    + intros v Hv. rewrite Hrest by set_solver.
      rewrite lookup_insert_ne; [done|]. set_solver.
    + intros i Hi. rewrite Hids.
      * simpl. rewrite lookup_insert_ne; [done|].
        intros Heq. apply (Hi 0%nat); [simpl; lia|].
        by rewrite Z.add_0_r.
      * intros j Hj.
        replace (c + 1 + Z.of_nat j) with (c + Z.of_nat (S j)) by lia.
        apply Hi. simpl. lia.
    + intros b k Hk. rewrite Hkeep by done. unfold h1.
      destruct (decide (b = a)) as [->|Hne].
      * rewrite dicts_set_eq. by rewrite lookup_insert_ne.
      * by rewrite dicts_set_ne.
    + intros b Hb. rewrite Hframe.
      * unfold h1. rewrite dicts_set_ne; [done|].
        intros ->. by apply (Hb u); [left|].
      * intros v Hv. apply Hb. by right.
    + intros [|i] v b Hv Hb Hlater; simpl in Hv.
      * injection Hv as <-. rewrite Z.add_0_r.
        assert (b = a) as -> by congruence.
        rewrite Hframe.
        -- unfold h1. rewrite dicts_set_eq. by rewrite lookup_insert_eq.
        -- intros v [j Hj]%list_elem_of_lookup.
           apply (Hlater (S j)); [lia|done].
      * replace (c + Z.of_nat (S i)) with (c + 1 + Z.of_nat i) by lia.
        apply (Hlast i v b Hv Hb).
        intros j u' Hij Hj. apply (Hlater (S j)); [lia|done].
Qed.

(** X24.  When no two source URLs share an attribute dict,
    [UniqueSourceIDs] returns for any order of iteration: the mapping
    takes each source URL (not the old id) to the decimal position of
    the URL in that order, starting at 1, and is injective; afterwards
    [GetSourceId] of a URL is its mapped id, the mapped id resolves to the
    dict of the URL, and all other attributes are as before. *)
Theorem UniqueSourceIDs_renumbers keys self h :
  lists keys (SourceURLs self) → unshared self →
  ∃ Mapping self' h',
    UniqueSourceIDs keys self h = Ok (Mapping, self', h')
    ∧ dom Mapping = dom (SourceURLs self)
    ∧ (∀ i url, keys !! i = Some url →
                Mapping !! url = Some (Py.str_int (Z.of_nat i + 1)))
    ∧ (∀ u1 u2 id, Mapping !! u1 = Some id → Mapping !! u2 = Some id →
                   u1 = u2)
    ∧ (∀ url id,
         Mapping !! url = Some id →
         GetSourceId self' h' url = Ok id
         ∧ ∃ a, GetSourceIdProperties self' id = Ok a
                ∧ GetSourceURLProperties self' url = Ok a)
    ∧ (∀ url, GetSourceURLProperties self' url
              = GetSourceURLProperties self url)
    ∧ ∀ a k, k ≠ "source-id"%string → h' a !! k = h a !! k.
Proof.
  intros [Hnd Hdom] Hun. unfold UniqueSourceIDs.
  destruct (renumber_spec keys 1 ∅ self h Hnd)
    as (M & self' & h' & Hrun & Hurls & Hsrc & Hmap & Hrest & Hids
        & Hkeep & Hframe & Hlast).
  { intros u Hu. by apply elem_of_dom, Hdom. }
  exists M, self', h'. split; [done|].
  assert (∀ url id, M !! url = Some id →
            ∃ i, keys !! i = Some url
                 ∧ id = Py.str_int (1 + Z.of_nat i)) as Hinv.
  { intros url id Hid. destruct (decide (url ∈ keys)) as [Hin|Hout].
    - apply list_elem_of_lookup in Hin as [i Hi]. exists i.
      split; [done|]. destruct (Hmap i url Hi) as [Hm _]. congruence.
    - rewrite Hrest in Hid by done. by rewrite lookup_empty in Hid. }
  split; [|split; [|split; [|split; [|split]]]].
  - apply set_eq. intros u. rewrite <- Hdom, elem_of_dom. split.
    + intros [id Hid]. destruct (Hinv u id Hid) as (i & Hi & _).
      by eapply list_elem_of_lookup_2.
    + intros [i Hi]%list_elem_of_lookup.
      destruct (Hmap i u Hi) as [Hm _]. by eexists.
  - intros i url Hi. destruct (Hmap i url Hi) as [Hm _].
    by rewrite Z.add_comm.
  - intros u1 u2 id (i1 & Hi1 & ->)%Hinv (i2 & Hi2 & Heq%str_int_inj)%Hinv.
    assert (i1 = i2) as -> by lia. congruence.
  - intros url id Hid. destruct (Hinv url id Hid) as (i & Hi & ->).
    destruct (Hmap i url Hi) as [_ Hres].
    assert (url ∈ dom (SourceURLs self)) as [a Ha]%elem_of_dom.
    { apply Hdom. by eapply list_elem_of_lookup_2. }
    unfold GetSourceId, GetSourceIdProperties, GetSourceURLProperties,
      getitem.
    rewrite Hurls, Ha, Hres. cbn [mbind result_mbind result_bind].
    rewrite Ha. split; [|by exists a].
    rewrite (Hlast i url a Hi Ha); [done|].
    intros j u' Hij Hj Hu'. pose proof (Hun _ _ _ Ha Hu') as <-.
    pose proof (NoDup_lookup _ _ _ _ Hnd Hi Hj). lia.
  - intros url. unfold GetSourceURLProperties. by rewrite Hurls.
  - done.
Qed.

(** X25.  [UniqueSourceIDs] leaves the old source ids behind:
    [GetSourceIDs] returns the same list as before, and an old id that is
    not one of the new ids still resolves to the attribute dict it
    resolved to, which does not carry this id any more. *)
Theorem UniqueSourceIDs_keeps_old_ids h keys self Mapping self' h' :
  sourced h self → lists keys (SourceURLs self) → unshared self →
  UniqueSourceIDs keys self h = Ok (Mapping, self', h') →
  GetSourceIDs self' = GetSourceIDs self
  ∧ ∀ old,
      old ∈ GetSourceIDs self → (∀ url, Mapping !! url ≠ Some old) →
      ∃ a, GetSourceIdProperties self old = Ok a
           ∧ GetSourceIdProperties self' old = Ok a
           ∧ h a !! "source-id" = Some old
           ∧ h' a !! "source-id" ≠ Some old.
Proof.
  intros (I1 & I2 & I3)%sourced_resolved [Hnd Hdom] Hun.
  unfold UniqueSourceIDs.
  destruct (renumber_spec keys 1 ∅ self h Hnd)
    as (M & s & h1 & Hrun & Hurls & Hsrc & Hmap & Hrest & Hids
        & Hkeep & Hframe & Hlast).
  { intros u Hu. by apply elem_of_dom, Hdom. }
  rewrite Hrun. intros [= <- <- <-]. unfold GetSourceIDs.
  split; [done|]. intros old [url Hurl]%I1%elem_of_dom Hnew.
  destruct (I2 old url Hurl) as (a & Ha & Hold). exists a.
  assert (url ∈ keys) as [i Hi]%list_elem_of_lookup
    by (by apply Hdom, elem_of_dom).
  unfold GetSourceIdProperties, getitem.
  rewrite Hurl, Hurls. cbn [mbind result_mbind result_bind]. rewrite Ha.
  split; [done|]. rewrite Hids.
  - rewrite Hurl. cbn [mbind result_mbind result_bind]. rewrite Ha.
    split; [done|]. split; [done|].
    rewrite (Hlast i url a Hi Ha).
    + intros [= Heq]. destruct (Hmap i url Hi) as [Hm _].
      apply (Hnew url). by rewrite Hm, Heq.
    + intros j u' Hij Hj Hu'. pose proof (Hun _ _ _ Ha Hu') as <-.
      pose proof (NoDup_lookup _ _ _ _ Hnd Hi Hj). lia.
  - intros j Hj ->. apply lookup_lt_is_Some_2 in Hj as [u Hu].
    destruct (Hmap j u Hu) as [Hm _]. by apply (Hnew u).
Qed.

Lemma for_each_Raise {A} `{EqDecision A} (f : A → result unit)
    (l : list A) x e :
  x ∈ l → f x = Raise e → (∀ y, y ∈ l → y ≠ x → f y = Ok ()) →
  for_each f l = Raise e.
Proof.
  induction l as [|y l IH]; [by intros ?%elem_of_nil|].
  intros Hx Hfx Hrest. simpl. destruct (decide (y = x)) as [->|Hne].
  - by rewrite Hfx.
  - rewrite (Hrest y) by (done || by left). simpl.
    apply IH; [|done|].
    + apply elem_of_cons in Hx as [->|Hx]; done.
    + intros z Hz. apply Hrest. by right.
Qed.

(** X26.  After [UniqueSourceIDs] a source cannot be registered again
    under the id it had: [AddSource] with the URL of a known source and a
    dict that holds its attributes as they were raises the error of a
    source-id that does not match, unless the new id equals the old
    one. *)
Theorem AddSource_after_UniqueSourceIDs
    keys self h Mapping self' h' url a b old new :
  lists keys (SourceURLs self) → unshared self →
  UniqueSourceIDs keys self h = Ok (Mapping, self', h') →
  GetSourceURLProperties self url = Ok a →
  h a !! "source-id" = Some old → Mapping !! url = Some new → old ≠ new →
  h' b = h a →
  AddSource url b h' self' = Raise (source_id_mismatch url old new).
Proof.
  intros [Hnd Hdom] Hun. unfold UniqueSourceIDs.
  destruct (renumber_spec keys 1 ∅ self h Hnd)
    as (M & s & h1 & Hrun & Hurls & Hsrc & Hmap & Hrest & Hids
        & Hkeep & Hframe & Hlast).
  { intros u Hu. by apply elem_of_dom, Hdom. }
  rewrite Hrun. intros [= <- <- <-] Ha%getitem_Ok Hold Hnew Hne Hb.
  assert (url ∈ keys) as [i Hi]%list_elem_of_lookup
    by (by apply Hdom, elem_of_dom).
  assert (h1 a !! "source-id" = Some new) as Hcur.
  { destruct (Hmap i url Hi) as [Hm _].
    rewrite (Hlast i url a Hi Ha); [congruence|].
    intros j u' Hij Hj Hu'. pose proof (Hun _ _ _ Ha Hu') as <-.
    pose proof (NoDup_lookup _ _ _ _ Hnd Hi Hj). lia. }
  unfold AddSource, getitem. rewrite Hb, Hold.
  cbn [mbind result_mbind result_bind SourceURLs]. rewrite Hurls, Ha.
  unfold CheckEdxmlEntityConsistency.
  rewrite (for_each_Raise (check_retained _ _ _ _) _ "source-id"%string
             (source_id_mismatch url old new)); [reflexivity| | |].
  - apply elem_of_elements, elem_of_intersection.
    split; apply elem_of_dom; by eexists.
  - unfold check_retained, getitem. rewrite Hcur, Hold.
    cbn [mbind result_mbind result_bind].
    destruct (String.eqb_spec new old) as [->|_]; [done|]. reflexivity.
  - intros k [Hk1 Hk2]%elem_of_elements%elem_of_intersection Hk.
    apply elem_of_dom in Hk1 as [v Hv].
    unfold check_retained, getitem. rewrite Hkeep by done. rewrite Hv.
    cbn [mbind result_mbind result_bind]. by rewrite String.eqb_refl.
Qed.
(** ** Reporter strings *)

Lemma count_char_cons c x l :
  count_char c (x :: l)
  = ((if Ascii.eqb c x then 1 else 0) + count_char c l)%nat.
Proof. unfold count_char. simpl. by destruct (Ascii.eqb c x). Qed.

Lemma count_char_curlies c l :
  is_curly c = true →
  count_char c (List.filter is_curly l) = count_char c l.
Proof.
  intros Hc. induction l as [|x l IH]; [done|]. simpl.
  destruct (is_curly x) eqn:Hx.
  - by rewrite !count_char_cons, IH.
  - rewrite count_char_cons, IH.
    destruct (Ascii.eqb_spec c x) as [->|_]; [congruence|done].
Qed.

Lemma filter_take {A} (p : A → bool) n (l : list A) :
  List.filter p (take n l)
  = take (length (List.filter p (take n l))) (List.filter p l).
Proof.
  revert n. induction l as [|x l IH]; intros [|n]; simpl; try done.
  destruct (p x); simpl; by rewrite <- IH.
Qed.

Lemma count_char_closing l :
  count_char "}" (List.filter is_curly l)
  = (length (List.filter is_curly l)
     - count_char "{" (List.filter is_curly l))%nat.
Proof.
  induction l as [|x l IH]; [done|]. simpl.
  destruct (is_curly x) eqn:Hx; [|exact IH].
  pose proof (List.filter_length_le (Ascii.eqb "{") (List.filter is_curly l)) as Hle.
  fold (count_char "{" (List.filter is_curly l)) in Hle.
  rewrite !count_char_cons, IH. cbn [length]. unfold is_curly in Hx.
  destruct (Ascii.eqb_spec x "{") as [->|Ho].
  - change (Ascii.eqb "}" "{") with false.
    change (Ascii.eqb "{" "{") with true. cbv iota. lia.
  - destruct (Ascii.eqb_spec x "}") as [->|Hc]; [|discriminate].
    change (Ascii.eqb "}" "}") with true.
    change (Ascii.eqb "{" "}") with false. cbv iota. lia.
Qed.

Lemma nesting_Ok s curlies :
  ∀ n m,
    0 ≤ n → nesting s curlies n = Ok m →
    m = n + Z.of_nat (count_char "{" curlies)
          - (Z.of_nat (length curlies) - Z.of_nat (count_char "{" curlies))
    ∧ ∀ k, 0 ≤ n + Z.of_nat (count_char "{" (take k curlies))
                 - (Z.of_nat (length (take k curlies))
                    - Z.of_nat (count_char "{" (take k curlies))).
Proof.
  induction curlies as [|c curlies IH]; intros n m Hn; simpl.
  - intros [= <-]. split; [unfold count_char; simpl; lia|].
    intros k. rewrite take_nil. unfold count_char. simpl. lia.
  - destruct (n + CurlyNestings c <? 0) eqn:Hlt; [discriminate|].
    apply Z.ltb_ge in Hlt. intros H. apply IH in H as [-> Hk]; [|done].
    rewrite count_char_cons. unfold CurlyNestings in *.
    rewrite (Ascii.eqb_sym c "{") in *.
    split.
    + destruct (Ascii.eqb "{" c); lia.
    + intros [|k]; simpl.
      * unfold count_char. simpl. lia.
      * rewrite count_char_cons. specialize (Hk k).
        destruct (Ascii.eqb "{" c); lia.
Qed.

Lemma nesting_balanced s m :
  nesting s (List.filter is_curly (list_ascii_of_string s)) 0 = Ok m →
  negb (m =? 0) = false → balanced s.
Proof.
  intros [-> Hk]%nesting_Ok Hm; [|done].
  apply negb_false_iff, Z.eqb_eq in Hm. unfold balanced. cbv zeta.
  set (l := list_ascii_of_string s) in *.
  pose proof (count_char_closing l) as Hc.
  rewrite !count_char_curlies in Hc by done.
  pose proof (List.filter_length_le (Ascii.eqb "{") (List.filter is_curly l)) as Hle.
  fold (count_char "{" (List.filter is_curly l)) in Hle.
  rewrite count_char_curlies in * by done.
  split; [lia|]. intros n.
  rewrite <- (count_char_curlies "}" (take n l)) by done.
  rewrite <- (count_char_curlies "{" (take n l)) by done.
  pose proof (count_char_closing (take n l)) as Hcn.
  specialize (Hk (length (List.filter is_curly (take n l)))).
  rewrite <- filter_take in Hk.
  pose proof (List.filter_length_le (Ascii.eqb "{")
                (List.filter is_curly (take n l))) as Hlen.
  fold (count_char "{" (List.filter is_curly (take n l))) in Hlen.
  lia.
Qed.

Lemma error_if_Ok (failed : bool) (m : string) :
  error_if failed m = Ok () ↔ failed = false.
Proof. destruct failed; split; done. Qed.

Lemma error_if_bind {A} (failed : bool) (m : string) (k : result A) x :
  error_if failed m ≫= (λ _, k) = Ok x ↔ failed = false ∧ k = Ok x.
Proof. destruct failed; simpl; split; (done || by intros []). Qed.

Lemma data_type_checked self etn p t m :
  property_data_type self etn p
    ≫= (λ dt, error_if (negb (String.eqb dt t)) m) = Ok ()
  ↔ property_data_type self etn p = Ok t.
Proof.
  destruct (property_data_type self etn p) as [dt|e]; simpl; [|done].
  rewrite error_if_Ok, negb_false_iff, String.eqb_eq.
  split; congruence.
Qed.

Lemma single_iff p : (1 <? length (Py.split "," p))%nat = false ↔ single p.
Proof.
  unfold single. pose proof (split_not_nil "," p).
  destruct (Py.split "," p) as [|? [|? ?]]; simpl; split; done.
Qed.

Ltac eval_tests :=
  repeat match goal with
         | |- context [elem ?a ?l] =>
             let b := eval vm_compute in (elem a l) in
             change (elem a l) with b
         | |- context [String.eqb ?a ?b] =>
             let r := eval vm_compute in (String.eqb a b) in
             change (String.eqb a b) with r
         end;
  cbv iota.

(** A formatter is in a list of formatters or not. *)
Ltac decide_formatter H :=
  first [ exfalso; apply elem_elem in H; vm_compute in H; discriminate H
        | discriminate H
        | idtac ].

Ltac formatter_in :=
  first [ reflexivity | apply elem_elem; vm_compute; reflexivity ].

Lemma check_formatter_iff self etn s f p options :
  f ∈ KnownFormatters → f ∉ ["DURATION"; "TIMESPAN"] →
  check_formatter self etn s (f :: p :: options) = Ok ()
  ↔ (f ∈ date_formatters →
     single p ∧ property_data_type self etn p = Ok "timestamp"%string)
    ∧ (f ∈ plain_formatters → options = [] ∧ single p)
    ∧ (f ∈ boolean_formatters →
       property_data_type self etn p = Ok "boolean"%string)
    ∧ (f ∈ ["CURRENCY"; "EMPTY"] → length options = 1%nat)
    ∧ (f = "BOOLEAN_STRINGCHOICE"%string → length options = 2%nat).
Proof.
  intros Hknown Hnot. unfold check_formatter.
  change (index (f :: p :: options) 0) with (Ok f).
  change (index (f :: p :: options) 1) with (Ok p).
  cbn [mbind result_mbind result_bind length].
  unfold KnownFormatters in Hknown.
  repeat (apply elem_of_cons in Hknown as [->|Hknown]);
    [..|by apply elem_of_nil in Hknown];
    try (exfalso; apply Hnot; apply elem_elem; vm_compute; reflexivity);
    clear Hnot; eval_tests;
    rewrite ?error_if_bind, ?data_type_checked, ?error_if_Ok, ?single_iff,
      ?negb_false_iff, ?Nat.eqb_eq, ?Nat.ltb_ge.
  all: split;
    [ intros H; refine (conj _ (conj _ (conj _ (conj _ _))));
      intros Hin; decide_formatter Hin
    | intros (H1 & H2 & H3 & H4 & H5);
      repeat match goal with
             | Hi : ?P → _ |- _ =>
                 first [ let Hp := fresh in
                         assert (Hp : P) by formatter_in;
                         specialize (Hi Hp); clear Hp
                       | clear Hi ]
             end ].
  all: repeat match goal with H : _ ∧ _ |- _ => destruct H end.
  all: try (destruct options as [|? [|? [|? ?]]]); simpl in *.
  all: repeat split; (done || lia).
Qed.

Lemma check_placeholder_iff self etn names R ph R' :
  check_placeholder self etn names R ph = Ok R'
  ↔ well_formed self etn names ph ∧ R' = R ++ referred ph.
Proof.
  unfold check_placeholder, well_formed, referred.
  destruct (Py.split ":" ph) as [|c0 [|c1 rest]] eqn:Hs.
  - by destruct (split_not_nil ":" ph).
  - cbn [length Nat.eqb]. change (index [c0] 0) with (Ok c0).
    cbn [mbind result_mbind result_bind]. rewrite <- elem_elem.
    destruct (elem c0 names); split; try done.
    + intros [= <-]. done.
    + intros [_ ->]. done.
    + by intros [].
  - cbn [length Nat.eqb].
    change (index (c0 :: c1 :: rest) 0) with (Ok c0).
    change (index (c0 :: c1 :: rest) 1) with (Ok c1).
    cbn [mbind result_mbind result_bind].
    destruct (elem c0 ["DURATION"; "TIMESPAN"]) eqn:Hd.
    + rewrite error_if_bind, negb_false_iff, Nat.eqb_eq.
      destruct (Py.split "," c1) as [|d0 [|d1 [|? ?]]];
        try (split; [by intros []|by intros [(? & ? & ? & _) _]]).
      change (index [d0; d1] 0) with (Ok d0).
      change (index [d0; d1] 1) with (Ok d1).
      cbn [mbind result_mbind result_bind].
      split.
      * intros [_ H].
        destruct (elem d0 names) eqn:Hd0; [|discriminate].
        destruct (elem d1 names) eqn:Hd1; [|discriminate].
        apply bind_Ok in H as (dt0 & Hdt0 & H).
        apply bind_Ok in H as ([] & Hg0 & H).
        apply bind_Ok in H as (dt1 & Hdt1 & H).
        apply bind_Ok in H as ([] & Hg1 & [= <-]).
        apply error_if_Ok, negb_false_iff, String.eqb_eq in Hg0 as ->.
        apply error_if_Ok, negb_false_iff, String.eqb_eq in Hg1 as ->.
        split; [|done]. exists d0, d1.
        by rewrite <- !elem_elem.
      * intros [(p1 & p2 & [= <- <-] & H1%elem_elem & H2%elem_elem
                 & Ht1 & Ht2) ->].
        split; [done|]. rewrite H1, H2, Ht1, Ht2. reflexivity.
    + rewrite error_if_bind, negb_false_iff, elem_elem.
      assert (c0 ∉ ["DURATION"; "TIMESPAN"]) as Hnot.
      { intros Hin%elem_elem. congruence. }
      split.
      * intros [Hk H].
        apply bind_Ok in H as ([] & Hf & H).
        apply (check_formatter_iff self etn ph c0 c1 rest Hk Hnot) in Hf.
        destruct (elem c1 names) eqn:Hc1; [|discriminate].
        injection H as <-. apply elem_elem in Hc1. done.
      * intros [(Hk & Hc1%elem_elem & Hf) ->]. split; [done|].
        apply (check_formatter_iff self etn ph c0 c1 rest Hk Hnot) in Hf.
        rewrite Hf. cbn [mbind result_mbind result_bind].
        by rewrite Hc1.
Qed.

Lemma check_placeholders_iff self etn names phs :
  ∀ R R',
    check_placeholders self etn names phs R = Ok R'
    ↔ (∀ ph, ph ∈ phs → well_formed self etn names ph)
      ∧ R' = R ++ (phs ≫= referred).
Proof.
  induction phs as [|ph phs IH]; intros R R'; simpl.
  - rewrite app_nil_r. split.
    + intros [= <-]. split; [|done]. by intros ph ?%elem_of_nil.
    + by intros [_ ->].
  - rewrite bind_Ok. split.
    + intros (R1 & [Hwf ->]%check_placeholder_iff & [Hall ->]%IH).
      split; [|by rewrite app_assoc].
      intros ph' [->|Hin]%elem_of_cons; [done|by apply Hall].
    + intros [Hall ->]. exists (R ++ referred ph). split.
      * apply check_placeholder_iff. split; [|done]. apply Hall. by left.
      * apply IH. split; [|by rewrite app_assoc].
        intros ph' Hin. apply Hall. by right.
Qed.

Lemma take_filter {A} (p : A → bool) (l : list A) :
  ∀ k, ∃ n, take k (List.filter p l) = List.filter p (take n l).
Proof.
  induction l as [|x l IH]; intros k.
  - exists 0%nat. by destruct k.
  - simpl. destruct (p x) eqn:Hx.
    + destruct k as [|k]; [by exists 0%nat|].
      destruct (IH k) as [n Hn]. exists (S n). simpl. by rewrite Hx, Hn.
    + destruct (IH k) as [n Hn]. exists (S n). simpl. by rewrite Hx.
Qed.

Lemma nesting_complete s curlies :
  ∀ n,
    (∀ k, 0 ≤ n + Z.of_nat (count_char "{" (take k curlies))
              - (Z.of_nat (length (take k curlies))
                 - Z.of_nat (count_char "{" (take k curlies)))) →
    nesting s curlies n
    = Ok (n + Z.of_nat (count_char "{" curlies)
            - (Z.of_nat (length curlies)
               - Z.of_nat (count_char "{" curlies))).
Proof.
  induction curlies as [|c curlies IH]; intros n Hk; simpl.
  - f_equal. unfold count_char. simpl. lia.
  - pose proof (Hk 1%nat) as H1.
    change (take 1 (c :: curlies)) with [c] in H1.
    rewrite count_char_cons in H1. rewrite count_char_cons.
    unfold CurlyNestings. rewrite (Ascii.eqb_sym c "{").
    change (count_char "{" []) with 0%nat in H1. cbn [length] in H1.
    assert ((n + (if Ascii.eqb "{" c then 1 else -1) <? 0) = false) as ->.
    { apply Z.ltb_ge. destruct (Ascii.eqb "{" c); lia. }
    rewrite IH.
    + f_equal. cbn [length]. destruct (Ascii.eqb "{" c); lia.
    + intros k. specialize (Hk (S k)). cbn [take length] in Hk.
      rewrite count_char_cons in Hk. destruct (Ascii.eqb "{" c); lia.
Qed.

Lemma balanced_nesting s :
  balanced s →
  nesting s (List.filter is_curly (list_ascii_of_string s)) 0 = Ok 0.
Proof.
  unfold balanced. cbv zeta. set (l := list_ascii_of_string s).
  intros [Heq Hpre]. rewrite nesting_complete.
  - f_equal. pose proof (count_char_closing l) as Hc.
    rewrite !count_char_curlies in Hc by done.
    pose proof (List.filter_length_le (Ascii.eqb "{")
                  (List.filter is_curly l)) as Hle.
    fold (count_char "{" (List.filter is_curly l)) in Hle.
    rewrite count_char_curlies in * by done. lia.
  - intros k. destruct (take_filter is_curly l k) as [n ->].
    pose proof (count_char_closing (take n l)) as Hc.
    pose proof (List.filter_length_le (Ascii.eqb "{")
                  (List.filter is_curly (take n l))) as Hle.
    fold (count_char "{" (List.filter is_curly (take n l))) in Hle.
    specialize (Hpre n).
    rewrite <- (count_char_curlies "}" (take n l)) in Hpre by done.
    rewrite <- (count_char_curlies "{" (take n l)) in Hpre by done.
    lia.
Qed.

(** X27.  [CheckReporterString] returns exactly when the curly
    brackets of the string are balanced and every placeholder is well
    formed: a listed property name, or a known formatter with listed
    property names, with the number of fields and the data types the
    formatter requires.  When it returns, it warns once for each listed
    property that no placeholder names if completeness is checked, and
    does not warn otherwise. *)
Theorem CheckReporterString_accepts_iff self etn s names complete :
  ((∃ warnings, CheckReporterString self etn s names complete = Ok warnings)
   ↔ balanced s
     ∧ ∀ ph, ph ∈ placeholders s → well_formed self etn names ph)
  ∧ ∀ warnings,
      CheckReporterString self etn s names complete = Ok warnings →
      warnings
      = if complete then
          incomplete etn
            <$> List.filter
                  (λ p, negb (elem p (placeholders s ≫= referred))) names
        else [].
Proof.
  unfold CheckReporterString. split; [split|].
  - intros (warnings & (m & Hnest & H)%bind_Ok).
    apply bind_Ok in H as ([] & Hzero & H).
    apply bind_Ok in H as (R & [Hall _]%check_placeholders_iff & _).
    split; [|done]. apply (nesting_balanced s m Hnest).
    by destruct (negb (m =? 0)).
  - intros [Hb Hall]. rewrite (balanced_nesting s Hb).
    cbn [mbind result_mbind result_bind Z.eqb negb].
    assert (check_placeholders self etn names (placeholders s) []
            = Ok ([] ++ (placeholders s ≫= referred))) as ->
      by (by apply check_placeholders_iff).
    cbn [mbind result_mbind result_bind]. by eexists.
  - intros warnings (m & Hnest & H)%bind_Ok.
    apply bind_Ok in H as ([] & Hzero & H).
    by apply bind_Ok in H as (R & [_ ->]%check_placeholders_iff & [= <-]).
Qed.

Lemma avoids_bind_Ok {A B} bad (f : A → result B) (r : result A) :
  avoids bad r → (∀ a, r = Ok a → avoids bad (f a)) → avoids bad (r ≫= f).
Proof.
  intros Hr Hf. destruct r as [a|e]; simpl; [by apply Hf|].
  intros e' [= <-]. by apply Hr.
Qed.

Lemma avoids_index {A} bad (l : list A) i :
  ¬ bad IndexError → avoids bad (index l i).
Proof. intros Hb. unfold index. destruct (l !! i); intros e [= <-]. done. Qed.

Section unknown_formatter.
Variables (self : Definitions) (etn : string).



(** The message is not the one of the unknown formatter error. *)
Ltac other_message :=
  let H := fresh in
  intros ? [= <-] [? [= H]];
  try apply (append_inv_head etn) in H;
  vm_compute in H; simplify_eq.

Ltac other_exception := intros [? [=]].

Lemma avoids_property_data_type p :
  avoids (unknown_formatter_error etn) (property_data_type self etn p).
Proof.
  unfold property_data_type. apply avoids_bind.
  - unfold GetPropertyObjectType.
    destruct (EventTypes self !! etn) as [et|].
    + destruct (properties et !! p) as [attrs|].
      * apply avoids_getitem. other_exception.
      * apply avoids_bind_Ok.
        { unfold str_. destruct (is_ascii etn); [apply avoids_Ok|].
          intros e [= <-]. other_exception. }
        intros e He. unfold str_ in He.
        destruct (is_ascii etn); [|discriminate]. injection He as <-.
        apply avoids_bind.
        { unfold str_. destruct (is_ascii p); [apply avoids_Ok|].
          intros e [= <-]. other_exception. }
        intros p'. other_message.
    + apply avoids_bind.
      { unfold str_. destruct (is_ascii etn); [apply avoids_Ok|].
        intros e [= <-]. other_exception. }
      intros e. other_message.
  - intros ot. unfold GetObjectTypeDataType.
    apply avoids_bind; [apply avoids_getitem; other_exception|].
    intros attrs. apply avoids_getitem. other_exception.
Qed.

Lemma avoids_check_formatter s f p options :
  f ∈ KnownFormatters → f ∉ ["DURATION"; "TIMESPAN"] →
  avoids (unknown_formatter_error etn) (check_formatter self etn s (f :: p :: options)).
Proof.
  intros Hknown Hnot. unfold check_formatter.
  change (index (f :: p :: options) 0) with (Ok f).
  change (index (f :: p :: options) 1) with (Ok p).
  cbn [mbind result_mbind result_bind length].
  unfold KnownFormatters in Hknown.
  repeat (apply elem_of_cons in Hknown as [->|Hknown]);
    [..|by apply elem_of_nil in Hknown];
    try (exfalso; apply Hnot; apply elem_elem; vm_compute; reflexivity);
    clear Hnot; eval_tests.
  all: repeat match goal with
              | |- avoids _ (Ok _) => apply avoids_Ok
              | |- avoids _ (property_data_type _ _ _) =>
                  apply avoids_property_data_type
              | |- avoids _ (error_if ?b _) =>
                  unfold error_if; destruct b;
                  [other_message|apply avoids_Ok]
              | |- avoids _ (_ ≫= _) => apply avoids_bind; [|intros ?]
              end.
Qed.

Lemma avoids_nonexisting {A} ph :
  avoids (unknown_formatter_error etn) (@nonexisting A etn ph).
Proof. other_message. Qed.

Lemma avoids_check_placeholder names R ph :
  avoids (unknown_formatter_error etn) (check_placeholder self etn names R ph).
Proof.
  unfold check_placeholder.
  destruct (Py.split ":" ph) as [|c0 [|c1 rest]] eqn:Hs.
  - by destruct (split_not_nil ":" ph).
  - cbn [length Nat.eqb]. change (index [c0] 0) with (Ok c0).
    cbn [mbind result_mbind result_bind].
    destruct (elem c0 names); [apply avoids_Ok|apply avoids_nonexisting].
  - cbn [length Nat.eqb].
    change (index (c0 :: c1 :: rest) 0) with (Ok c0).
    change (index (c0 :: c1 :: rest) 1) with (Ok c1).
    cbn [mbind result_mbind result_bind].
    destruct (elem c0 ["DURATION"; "TIMESPAN"]) eqn:Hd.
    + apply avoids_bind.
      { destruct (negb _); [|apply avoids_Ok]. other_message. }
      intros _. apply avoids_bind; [apply avoids_index; other_exception|].
      intros d0. destruct (elem d0 names); [|apply avoids_nonexisting].
      apply avoids_bind; [apply avoids_index; other_exception|].
      intros d1. destruct (elem d1 names); [|apply avoids_nonexisting].
      apply avoids_bind; [apply avoids_property_data_type|]. intros dt0.
      apply avoids_bind;
        [unfold error_if; destruct (negb _); [other_message|apply avoids_Ok]|].
      intros _.
      apply avoids_bind; [apply avoids_property_data_type|]. intros dt1.
      apply avoids_bind;
        [unfold error_if; destruct (negb _); [other_message|apply avoids_Ok]|].
      intros _. apply avoids_Ok.
    + apply avoids_bind_Ok.
      { destruct (negb _); [|apply avoids_Ok]. other_message. }
      intros [] Hk%error_if_Ok%negb_false_iff%elem_elem.
      apply avoids_bind.
      { apply avoids_check_formatter; [done|].
        intros Hin%elem_elem. congruence. }
      intros _.
      destruct (elem c1 names); [apply avoids_Ok|apply avoids_nonexisting].
Qed.

Lemma avoids_check_placeholders names phs :
  ∀ R, avoids (unknown_formatter_error etn) (check_placeholders self etn names phs R).
Proof.
  induction phs as [|ph phs IH]; intros R; simpl; [apply avoids_Ok|].
  apply avoids_bind; [apply avoids_check_placeholder|done].
Qed.

Lemma avoids_nesting s curlies :
  ∀ n, avoids (unknown_formatter_error etn) (nesting s curlies n).
Proof.
  induction curlies as [|c curlies IH]; intros n; simpl; [apply avoids_Ok|].
  destruct (_ <? 0); [|apply IH]. unfold unbalanced. other_message.
Qed.

End unknown_formatter.

(** X28.  [CheckReporterString] never raises the error of its last
    formatter branch (a reporter string which uses an unknown formatter):
    a formatter that is not known is rejected before with another
    message, and every known formatter has a branch of its own. *)
Theorem CheckReporterString_never_unknown_formatter
    self etn s names complete f :
  CheckReporterString self etn s names complete
  ≠ Raise (unknown_formatter etn f).
Proof.
  intros Hraise.
  enough (avoids (unknown_formatter_error etn)
            (CheckReporterString self etn s names complete)) as Hav.
  { eapply Hav; [exact Hraise|]. by exists f. }
  clear Hraise. unfold CheckReporterString.
  apply avoids_bind; [apply avoids_nesting|]. intros m.
  apply avoids_bind.
  { destruct (negb _); [|apply avoids_Ok]. unfold unbalanced.
    intros ? [= <-] [? [= H]]. }
  intros _. apply avoids_bind; [apply avoids_check_placeholders|].
  intros R. apply avoids_Ok.
Qed.
(** ** Class, entity and relation indexes of a registry *)

Lemma in_class_ext d d' :
  EventTypes d' = EventTypes d → ∀ n c, in_class d' n c ↔ in_class d n c.
Proof. intros Heq n c. unfold in_class. by rewrite Heq. Qed.

Lemma defines_entity_ext d d' :
  EventTypes d' = EventTypes d →
  ∀ n p, defines_entity d' n p ↔ defines_entity d n p.
Proof. intros Heq n p. unfold defines_entity. by rewrite Heq. Qed.

Lemma has_predicate_ext d d' :
  EventTypes d' = EventTypes d →
  ∀ predicate, has_predicate d' predicate ↔ has_predicate d predicate.
Proof. intros Heq predicate. unfold has_predicate. by rewrite Heq. Qed.

Lemma cross_indexed_ext self self' :
  EventTypes (defs self') = EventTypes (defs self) →
  EventTypeClasses (defs self') = EventTypeClasses (defs self) →
  EntityProperties (defs self') = EntityProperties (defs self) →
  RelationPredicates self' = RelationPredicates self →
  cross_indexed self → cross_indexed self'.
Proof.
  intros He Hc Hn Hp [I1 I2 I3 I4 I5]. split.
  - intros c n. rewrite Hc, (in_class_ext _ _ He). apply I1.
  - intros c names. rewrite Hc. apply I2.
  - intros n et. rewrite He, Hn. intros Het.
    destruct (I3 n et Het) as (entities & Hent & Hiff).
    exists entities. split; [done|]. intros p.
    rewrite (defines_entity_ext _ _ He). apply Hiff.
  - intros n et p. rewrite He. apply I4.
  - intros predicate. rewrite Hp, (has_predicate_ext _ _ He). apply I5.
Qed.

(** One event type is replaced by one with the same attributes. *)
Lemma in_class_same d d' name et et' :
  EventTypes d !! name = Some et →
  EventTypes d' = <[name := et']> (EventTypes d) →
  attributes et' = attributes et →
  ∀ n c, in_class d' n c ↔ in_class d n c.
Proof.
  intros Het Heq Hattrs n c. unfold in_class. rewrite Heq.
  destruct (decide (n = name)) as [->|Hne].
  - rewrite lookup_insert_eq, Het. split.
    + intros (? & cl & [= <-] & Hcl & Hc). rewrite Hattrs in Hcl. eauto.
    + intros (? & cl & [= <-] & Hcl & Hc). rewrite <- Hattrs in Hcl. eauto.
  - by rewrite lookup_insert_ne.
Qed.

Lemma defines_entity_same d d' name et et' :
  EventTypes d !! name = Some et →
  EventTypes d' = <[name := et']> (EventTypes d) →
  properties et' = properties et →
  ∀ n p, defines_entity d' n p ↔ defines_entity d n p.
Proof.
  intros Het Heq Hprops n p. unfold defines_entity. rewrite Heq.
  destruct (decide (n = name)) as [->|Hne].
  - rewrite lookup_insert_eq, Het. split.
    + intros (? & a & v & [= <-] & Hp & Hv). rewrite Hprops in Hp.
      by exists et, a, v.
    + intros (? & a & v & [= <-] & Hp & Hv). rewrite <- Hprops in Hp.
      by exists et', a, v.
  - by rewrite lookup_insert_ne.
Qed.

Lemma has_predicate_same d d' name et et' :
  EventTypes d !! name = Some et →
  EventTypes d' = <[name := et']> (EventTypes d) →
  relations et' = relations et →
  ∀ predicate, has_predicate d' predicate ↔ has_predicate d predicate.
Proof.
  intros Het Heq Hrel predicate. unfold has_predicate. split.
  - intros (n & e & id & a & t & k & He & Hid & Ht). rewrite Heq in He.
    destruct (decide (n = name)) as [->|Hne].
    + rewrite lookup_insert_eq in He. injection He as <-.
      rewrite Hrel in Hid. by exists name, et, id, a, t, k.
    + rewrite lookup_insert_ne in He by done. by exists n, e, id, a, t, k.
  - intros (n & e & id & a & t & k & He & Hid & Ht).
    destruct (decide (n = name)) as [->|Hne].
    + assert (e = et) as -> by congruence. exists name, et', id, a, t, k.
      by rewrite Heq, lookup_insert_eq, Hrel.
    + exists n, e, id, a, t, k. by rewrite Heq, lookup_insert_ne.
Qed.

Lemma cross_indexed_empty : cross_indexed empty.
Proof.
  assert (He : ∀ n, EventTypes (defs empty) !! n = None)
    by (intros n; apply lookup_empty).
  split.
  - intros c n.
    change (EventTypeClasses (defs empty))
      with (∅ : gmap string (gset string)).
    rewrite lookup_empty. simpl. split; [by intros ?%elem_of_empty|].
    intros (et & ? & Het & _). by rewrite He in Het.
  - intros c names.
    change (EventTypeClasses (defs empty))
      with (∅ : gmap string (gset string)).
    by rewrite lookup_empty.
  - intros n et Het. by rewrite He in Het.
  - intros n et p Het. by rewrite He in Het.
  - intros predicate.
    change (RelationPredicates empty) with (∅ : gset string).
    split; [by intros ?%elem_of_empty|].
    intros (n & et & ? & ? & ? & ? & Het & _). by rewrite He in Het.
Qed.

Lemma elem_of_add_classes name (cl : list string) :
  ∀ (m : gmap string (gset string)) c n,
    n ∈ default ∅ (foldl (λ acc Class, add_to Class name acc) m cl !! c)
    ↔ n ∈ default ∅ (m !! c) ∨ c ∈ cl ∧ n = name.
Proof.
  induction cl as [|x cl IH]; intros m c n; simpl.
  - split; [by left|]. intros [?|[?%elem_of_nil _]]; done.
  - rewrite IH, elem_of_add_to, elem_of_cons. naive_solver.
Qed.

Lemma add_classes_inhabited name (cl : list string) :
  ∀ (m : gmap string (gset string)),
    (∀ c names, m !! c = Some names → names ≠ ∅) →
    ∀ c names,
      foldl (λ acc Class, add_to Class name acc) m cl !! c = Some names →
      names ≠ ∅.
Proof.
  induction cl as [|x cl IH]; intros m Hm; simpl; [done|].
  apply IH. intros c names. unfold add_to.
  destruct (decide (c = x)) as [->|Hne].
  - rewrite lookup_insert_eq. intros [= <-]. set_solver.
  - rewrite lookup_insert_ne by done. apply Hm.
Qed.

Lemma cross_indexed_event_type self name attrs d :
  cross_indexed self → AddEventType name attrs (defs self) = Ok d →
  cross_indexed (set_defs d self).
Proof.
  intros I Hadd.
  apply AddEventType_effect in Hadd as [->|(Hnone & cl & Hcl & ->)];
    [by rewrite set_defs_defs|].
  destruct I as [I1 I2 I3 I4 I5].
  assert (∀ n c, in_class
                   (mkDefinitions
                      (<[name := mkEventType attrs ∅ ∅ ∅ ∅ ∅ ∅ ∅ false None]>
                         (EventTypes (defs self)))
                      (ObjectTypes (defs self))
                      (ObjectTypeEventTypes (defs self))
                      (foldl (λ c Class, add_to Class name c)
                         (EventTypeClasses (defs self)) (Py.split "," cl))
                      (RequiredObjectTypes (defs self))
                      (<[name := ∅]> (EntityProperties (defs self)))
                      (EventTypeNames (defs self) ++ [name])
                      (<[name := []]> (PropertyNames (defs self)))
                      (<[name := []]> (PropertyRelations (defs self)))) n c
                 ↔ in_class (defs self) n c
                   ∨ c ∈ Py.split "," cl ∧ n = name) as Hclass.
  { intros n c. unfold in_class. cbn [EventTypes].
    destruct (decide (n = name)) as [->|Hne].
    - rewrite lookup_insert_eq, Hnone. split.
      + intros (? & cl' & [= <-] & Hcl' & Hc). simpl in Hcl'.
        right. split; [congruence|done].
      + intros [(? & ? & [=] & _)|[Hc _]].
        eexists _, cl. split; [done|]. by split.
    - rewrite lookup_insert_ne by done. split; [by left|].
      intros [?|[_ ?]]; done. }
  split; cbn [defs set_defs EventTypes EventTypeClasses EntityProperties
              RelationPredicates].
  - intros c n. rewrite Hclass, elem_of_add_classes, I1. done.
  - apply add_classes_inhabited, I2.
  - intros n et. destruct (decide (n = name)) as [->|Hne].
    + rewrite !lookup_insert_eq. intros [= <-]. exists ∅.
      split; [done|]. intros p. split; [by intros ?%elem_of_empty|].
      intros (? & a & v & Het & Hp & _).
      cbn [EventTypes] in Het. rewrite lookup_insert_eq in Het.
      injection Het as <-. cbn [properties] in Hp.
      by rewrite lookup_empty in Hp.
    + rewrite !lookup_insert_ne by done. intros Het.
      destruct (I3 n et Het) as (entities & Hent & Hiff).
      exists entities. split; [done|]. intros p. rewrite Hiff.
      unfold defines_entity. cbn [EventTypes].
      by rewrite lookup_insert_ne.
  - intros n et p. destruct (decide (n = name)) as [->|Hne].
    + rewrite lookup_insert_eq. intros [= <-]. by intros ?%elem_of_empty.
    + rewrite lookup_insert_ne by done. apply I4.
  - intros predicate. rewrite I5. unfold has_predicate. cbn [EventTypes].
    split.
    + intros (n & e & id & a & t & k & He & Hid & Ht).
      exists n, e, id, a, t, k. rewrite lookup_insert_ne; [done|].
      intros <-. congruence.
    + intros (n & e & id & a & t & k & He & Hid & Ht).
      destruct (decide (n = name)) as [->|Hne].
      * rewrite lookup_insert_eq in He. injection He as <-.
        cbn [relations] in Hid. by rewrite lookup_empty in Hid.
      * rewrite lookup_insert_ne in He by done.
        by exists n, e, id, a, t, k.
Qed.

Lemma cross_indexed_parent self name attrs d :
  cross_indexed self → SetEventTypeParent name attrs (defs self) = Ok d →
  cross_indexed (set_defs d self).
Proof.
  intros I Hset.
  apply SetEventTypeParent_effect in Hset
    as [->|(et & m & Het & _ & _ & ->)]; [by rewrite set_defs_defs|].
  destruct I as [I1 I2 I3 I4 I5].
  set (et' := mkEventType _ _ _ _ _ _ _ _ _ _).
  set (d' := set_EventTypes _ _).
  assert (EventTypes d' = <[name := et']> (EventTypes (defs self))) as Heq
    by done.
  split; cbn [defs set_defs RelationPredicates].
  - intros c n. rewrite (in_class_same _ d' name et et' Het Heq eq_refl).
    apply I1.
  - apply I2.
  - intros n e He.
    assert (∃ e0, EventTypes (defs self) !! n = Some e0) as [e0 He0].
    { rewrite Heq in He. destruct (decide (n = name)) as [->|Hne].
      - by exists et.
      - rewrite lookup_insert_ne in He by done. by exists e. }
    destruct (I3 n e0 He0) as (entities & Hent & Hiff).
    exists entities. split; [done|]. intros p.
    rewrite (defines_entity_same _ d' name et et' Het Heq eq_refl).
    apply Hiff.
  - intros n e p He. rewrite Heq in He.
    destruct (decide (n = name)) as [->|Hne].
    + rewrite lookup_insert_eq in He. injection He as <-.
      apply (I4 name et p Het).
    + rewrite lookup_insert_ne in He by done. by apply (I4 n).
  - intros predicate.
    rewrite (has_predicate_same _ d' name et et' Het Heq eq_refl).
    apply I5.
Qed.

Lemma AddProperty_entities name p attrs d d' :
  AddProperty name p attrs d = Ok d' →
  d' = d
  ∨ ∃ et et',
      EventTypes d !! name = Some et ∧ properties et !! p = None
      ∧ EventTypes d' = <[name := et']> (EventTypes d)
      ∧ attributes et' = attributes et
      ∧ properties et'
        = <[p := attrs ∪ {["unique" := "false";
                           "defines-entity" := "false"]}]> (properties et)
      ∧ relations et' = relations et
      ∧ related_properties et' = related_properties et
      ∧ EventTypeClasses d' = EventTypeClasses d
      ∧ if has_value_lower attrs "defines-entity" "true" then
          ∃ e, EntityProperties d !! name = Some e
               ∧ EntityProperties d' = <[name := {[p]} ∪ e]>
                                         (EntityProperties d)
        else EntityProperties d' = EntityProperties d.
Proof.
  unfold AddProperty. intros (et & Het%getitem_Ok & H)%bind_Ok.
  destruct (properties et !! p) as [cur|] eqn:Hp.
  - apply bind_Ok in H as ([] & _ & [= <-]). by left.
  - unfold AddNewProperty in H.
    apply bind_Ok in H as (names & Hn%getitem_Ok & H).
    apply bind_Ok in H as ([] & _ & H).
    apply bind_Ok in H as (ot & Hot%getitem_Ok & H).
    apply bind_Ok in H as (et' & Het'%getitem_Ok & H). simplify_eq.
    apply bind_Ok in H as (entities & Hent & [= <-]).
    right. eexists et, _. split; [done|]. split; [done|].
    split; [reflexivity|]. do 5 (split; [reflexivity|]).
    cbn [EntityProperties].
    destruct (has_value_lower attrs "defines-entity" "true").
    + apply bind_Ok in Hent as (e & He%getitem_Ok & [= <-]). by exists e.
    + by injection Hent as <-.
Qed.

Lemma stored_defines_entity (attrs : gmap string string) v :
  (attrs ∪ {["unique" := "false"; "defines-entity" := "false"]})
    !! "defines-entity" = Some v →
  Py.lower v = "true"%string
  ↔ has_value_lower attrs "defines-entity" "true" = true.
Proof.
  unfold has_value_lower.
  destruct (attrs !! "defines-entity") as [x|] eqn:Hx.
  - rewrite (lookup_union_Some_l _ _ _ _ Hx). intros [= ->].
    by rewrite String.eqb_eq.
  - rewrite lookup_union_r by done. intros H. vm_compute in H.
    injection H as <-. split; discriminate.
Qed.

Lemma stored_defines_entity_is_Some (attrs : gmap string string) :
  is_Some ((attrs ∪ {["unique" := "false"; "defines-entity" := "false"]})
             !! "defines-entity").
Proof.
  destruct (attrs !! "defines-entity") as [x|] eqn:Hx.
  - rewrite (lookup_union_Some_l _ _ _ _ Hx). by eexists.
  - rewrite lookup_union_r by done. by eexists.
Qed.

Lemma cross_indexed_property self name p attrs d :
  cross_indexed self → AddProperty name p attrs (defs self) = Ok d →
  cross_indexed (set_defs d self).
Proof.
  intros I Hadd.
  apply AddProperty_entities in Hadd
    as [->|(et & et' & Het & Hp & Heq & Hattrs & Hprops & Hrel & Hrp
            & Hcl & Hent)]; [by rewrite set_defs_defs|].
  destruct I as [I1 I2 I3 I4 I5].
  assert (∀ n q, defines_entity d n q
                 ↔ defines_entity (defs self) n q
                   ∨ n = name ∧ q = p
                     ∧ has_value_lower attrs "defines-entity" "true" = true)
    as Hdef.
  { intros n q. unfold defines_entity. rewrite Heq.
    destruct (decide (n = name)) as [->|Hne].
    - rewrite lookup_insert_eq, Het. split.
      + intros (? & a & v & [= <-] & Hq & Hv & Hlow). rewrite Hprops in Hq.
        apply lookup_insert_Some in Hq as [[<- <-]|[Hne Hq]].
        * right. split; [done|]. split; [done|].
          by apply (stored_defines_entity attrs v).
        * left. by exists et, a, v.
      + intros [(? & a & v & [= <-] & Hq & Hv & Hlow)|(_ & -> & Hlow)].
        * exists et', a, v. split; [done|]. split; [|done].
          rewrite Hprops, lookup_insert_ne; [done|]. intros ->. congruence.
        * destruct (stored_defines_entity_is_Some attrs) as [v Hv].
          eexists et', _, v. split; [done|].
          rewrite Hprops, lookup_insert_eq. split; [done|]. split; [done|].
          by apply (stored_defines_entity attrs v).
    - rewrite lookup_insert_ne by done. split; [by left|].
      intros [?|[? _]]; done. }
  split; cbn [defs set_defs RelationPredicates].
  - intros c n. rewrite Hcl.
    rewrite (in_class_same _ d name et et' Het Heq Hattrs). apply I1.
  - rewrite Hcl. apply I2.
  - intros n e He.
    assert (∃ e0, EventTypes (defs self) !! n = Some e0) as [e0 He0].
    { rewrite Heq in He. destruct (decide (n = name)) as [->|Hne].
      - by exists et.
      - rewrite lookup_insert_ne in He by done. by exists e. }
    destruct (I3 n e0 He0) as (entities & Hentities & Hiff).
    destruct (has_value_lower attrs "defines-entity" "true") eqn:Hlow.
    + destruct Hent as (e1 & He1 & ->).
      destruct (decide (n = name)) as [->|Hne].
      * rewrite lookup_insert_eq. eexists. split; [done|].
        assert (e1 = entities) as -> by congruence.
        intros q. rewrite Hdef, elem_of_union, elem_of_singleton, Hiff.
        naive_solver.
      * rewrite lookup_insert_ne by done. exists entities.
        split; [done|]. intros q. rewrite Hdef, Hiff. naive_solver.
    + rewrite Hent. exists entities. split; [done|].
      intros q. rewrite Hdef, Hiff. naive_solver.
  - intros n e q He. rewrite Heq in He.
    destruct (decide (n = name)) as [->|Hne].
    + rewrite lookup_insert_eq in He. injection He as <-.
      rewrite Hrp, Hrel. apply (I4 name et q Het).
    + rewrite lookup_insert_ne in He by done. by apply (I4 n).
  - intros predicate.
    rewrite (has_predicate_same _ d name et et' Het Heq Hrel). apply I5.
Qed.

Lemma AddRelation_predicates name p1 p2 attrs self self' :
  AddRelation name p1 p2 attrs self = Ok self' →
  self' = self
  ∨ ∃ et et' type,
      let id := p1 +:+ " -> " +:+ p2 in
      EventTypes (defs self) !! name = Some et ∧ relations et !! id = None
      ∧ attrs !! "type" = Some type
      ∧ EventTypes (defs self') = <[name := et']> (EventTypes (defs self))
      ∧ attributes et' = attributes et ∧ properties et' = properties et
      ∧ relations et' = <[id := attrs]> (relations et)
      ∧ related_properties et' = {[p2]} ∪ ({[p1]} ∪ related_properties et)
      ∧ EventTypeClasses (defs self') = EventTypeClasses (defs self)
      ∧ EntityProperties (defs self') = EntityProperties (defs self)
      ∧ RelationPredicates self'
        = match Py.split ":" type with
          | [_; predicate] => {[predicate]} ∪ RelationPredicates self
          | _ => RelationPredicates self
          end.
Proof.
  unfold AddRelation. intros (et & Het%getitem_Ok & H)%bind_Ok.
  destruct (relations et !! _) as [cur|] eqn:Hcur.
  - apply bind_Ok in H as ([] & _ & [= <-]). by left.
  - unfold AddNewRelation in H.
    apply bind_Ok in H as (et' & Het'%getitem_Ok & H). simplify_eq.
    apply bind_Ok in H as (ids & Hids%getitem_Ok & H).
    apply bind_Ok in H as ([] & _ & H).
    apply bind_Ok in H as (type & Htype%getitem_Ok & [= <-]).
    right. eexists et, _, type. cbv zeta.
    split; [done|]. split; [done|]. split; [done|].
    split; [reflexivity|]. by do 6 (split; [reflexivity|]).
Qed.

Section cross_indexes.
Variable compiles : string → bool.

Lemma cross_indexed_object_type self name attrs self' :
  cross_indexed self →
  AddObjectType compiles name attrs self = Return self' →
  cross_indexed self'.
Proof.
  intros I Hadd.
  apply AddObjectType_effect in Hadd
    as [->|(_ & dt & patterns & _ & _ & ->)]; [done|].
  by apply (cross_indexed_ext self).
Qed.

Lemma cross_indexed_relation self name p1 p2 attrs self' :
  cross_indexed self → AddRelation name p1 p2 attrs self = Ok self' →
  cross_indexed self'.
Proof.
  intros I Hadd.
  apply AddRelation_predicates in Hadd
    as [->|(et & et' & type & Het & Hid & Htype & Heq & Hattrs & Hprops
            & Hrel & Hrp & Hcl & Hent & Hpred)]; [done|].
  cbv zeta in *. destruct I as [I1 I2 I3 I4 I5].
  split.
  - intros c n. rewrite Hcl.
    rewrite (in_class_same _ _ name et et' Het Heq Hattrs). apply I1.
  - rewrite Hcl. apply I2.
  - intros n e He.
    assert (∃ e0, EventTypes (defs self) !! n = Some e0) as [e0 He0].
    { rewrite Heq in He. destruct (decide (n = name)) as [->|Hne].
      - by exists et.
      - rewrite lookup_insert_ne in He by done. by exists e. }
    destruct (I3 n e0 He0) as (entities & Hentities & Hiff).
    exists entities. rewrite Hent. split; [done|]. intros p.
    rewrite (defines_entity_same _ _ name et et' Het Heq Hprops).
    apply Hiff.
  - intros n e q He. rewrite Heq in He.
    destruct (decide (n = name)) as [->|Hne].
    + rewrite lookup_insert_eq in He. injection He as <-.
      rewrite Hrp, Hrel, !elem_of_union, !elem_of_singleton.
      intros [->|[->|Hq]].
      * exists p1. right. rewrite dom_insert. set_solver.
      * exists p2. left. rewrite dom_insert. set_solver.
      * destruct (I4 name et q Het Hq) as [q' Hq'].
        exists q'. rewrite dom_insert. set_solver.
    + rewrite lookup_insert_ne in He by done. by apply (I4 n).
  - intros predicate.
    assert (has_predicate (defs self') predicate
            ↔ has_predicate (defs self) predicate
              ∨ ∃ kind, Py.split ":" type = [kind; predicate]) as ->.
    { unfold has_predicate. split.
      - intros (n & e & id & a & t & k & He & Hida & Ht & Hs).
        rewrite Heq in He. destruct (decide (n = name)) as [->|Hne].
        + rewrite lookup_insert_eq in He. injection He as <-.
          rewrite Hrel in Hida.
          apply lookup_insert_Some in Hida as [[<- <-]|[Hne Hida]].
          * right. exists k. congruence.
          * left. by exists name, et, id, a, t, k.
        + rewrite lookup_insert_ne in He by done. left.
          by exists n, e, id, a, t, k.
      - intros [(n & e & id & a & t & k & He & Hida & Ht & Hs)|[k Hs]].
        + destruct (decide (n = name)) as [->|Hne].
          * assert (e = et) as -> by congruence.
            exists name, et', id, a, t, k.
            rewrite Heq, lookup_insert_eq, Hrel. split; [done|].
            split; [|done]. rewrite lookup_insert_ne; [done|].
            intros <-. congruence.
          * exists n, e, id, a, t, k. by rewrite Heq, lookup_insert_ne.
        + exists name, et', (p1 +:+ " -> " +:+ p2), attrs, type, k.
          by rewrite Heq, lookup_insert_eq, Hrel, lookup_insert_eq. }
    rewrite Hpred, <- I5.
    destruct (Py.split ":" type) as [|k [|pr [|? ?]]].
    + split; [by left|]. by intros [?|[? [=]]].
    + split; [by left|]. by intros [?|[? [=]]].
    + rewrite elem_of_union, elem_of_singleton. split.
      * intros [->|?]; [right; by exists k|by left].
      * intros [?|[? [= _ ->]]]; [by right|by left].
    + split; [by left|]. by intros [?|[? [=]]].
Qed.

Lemma built_cross_indexed self : built compiles self → cross_indexed self.
Proof.
  induction 1 as [|self name attrs d _ IH Hadd|self name attrs d _ IH Hset
                  |self name p attrs d _ IH Hadd
                  |self name attrs self' _ IH Hadd
                  |self name p1 p2 attrs self' _ IH Hadd].
  - apply cross_indexed_empty.
  - by eapply cross_indexed_event_type.
  - by eapply cross_indexed_parent.
  - by eapply cross_indexed_property.
  - by eapply cross_indexed_object_type.
  - by eapply cross_indexed_relation.
Qed.

(** X29.  In a registry built by registration calls that returned,
    [GetEventTypeNamesInClass] raises [KeyError] exactly for a class that
    no event type has in its class list, and otherwise returns, without
    repetition, exactly the event types that have the class;
    [GetEventTypeNamesInClasses], when it returns, lists without
    repetition the event types that have one of the classes. *)
Theorem registry_class_index self :
  built compiles self →
  (∀ c,
     (GetEventTypeNamesInClass (defs self) c = Raise KeyError
      ↔ ∀ n, ¬ in_class (defs self) n c)
     ∧ ∀ names,
         GetEventTypeNamesInClass (defs self) c = Ok names →
         NoDup names ∧ ∀ n, n ∈ names ↔ in_class (defs self) n c)
  ∧ ∀ cs names,
      GetEventTypeNamesInClasses (defs self) cs = Ok names →
      NoDup names
      ∧ ∀ n, n ∈ names ↔ ∃ c, c ∈ cs ∧ in_class (defs self) n c.
Proof.
  intros [I1 I2 _ _ _]%built_cross_indexed. split.
  - intros c. unfold GetEventTypeNamesInClass, getitem.
    specialize (I1 c). specialize (I2 c).
    destruct (EventTypeClasses (defs self) !! c) as [s|]; simpl in *.
    + split.
      * split; [done|]. intros Hno.
        destruct (set_choose_L s) as [n Hn]; [by apply I2|].
        by destruct (Hno n); apply I1.
      * intros names [= <-]. split; [apply NoDup_elements|].
        intros n. rewrite elem_of_elements. apply I1.
    + split; [|done]. split; [|done]. intros _ n Hn.
      by apply I1, elem_of_empty in Hn.
  - intros cs names. unfold GetEventTypeNamesInClasses.
    intros (s & Hs & [= <-])%bind_Ok. split; [apply NoDup_elements|].
    intros n. rewrite elem_of_elements.
    enough (∀ acc s,
              names_in_classes (defs self) cs acc = Ok s →
              n ∈ s ↔ n ∈ acc ∨ ∃ c, c ∈ cs ∧ in_class (defs self) n c)
      as Hloop.
    { rewrite (Hloop ∅ s Hs). split; [|by right].
      by intros [?%elem_of_empty|?]. }
    clear s Hs. induction cs as [|c cs IH]; intros acc s; simpl.
    + intros [= <-]. split; [by left|].
      by intros [?|(? & ?%elem_of_nil & _)].
    + intros (names & Hnames%getitem_Ok & Hrest)%bind_Ok.
      rewrite (IH _ _ Hrest), elem_of_union.
      specialize (I1 c n). rewrite Hnames in I1. simpl in I1.
      rewrite I1. setoid_rewrite elem_of_cons. naive_solver.
Qed.

(** X30.  In a registry built by registration calls that returned, for
    a defined event type [PropertyDefinesEntity] returns, and returns true
    exactly for the properties registered with defines-entity set to
    true; a property that [PropertyInRelation] reports is the first or
    second property of a relation that [RelationDefined] knows; and
    [GetRelationPredicates] lists exactly the predicates of the relation
    types of the form kind:predicate. *)
Theorem registry_entities_and_relations self :
  built compiles self →
  (∀ n et p,
     EventTypes (defs self) !! n = Some et →
     (∃ b, PropertyDefinesEntity (defs self) n p = Ok b
           ∧ (b = true ↔ defines_entity (defs self) n p))
     ∧ (PropertyInRelation (defs self) n p = Ok true →
        ∃ q, RelationDefined (defs self) n p q = Ok true
             ∨ RelationDefined (defs self) n q p = Ok true))
  ∧ ∀ predicate,
      predicate ∈ GetRelationPredicates self
      ↔ has_predicate (defs self) predicate.
Proof.
  intros [_ _ I3 I4 I5]%built_cross_indexed. split.
  - intros n et p Het. split.
    + destruct (I3 n et Het) as (entities & Hent & Hiff).
      unfold PropertyDefinesEntity, getitem. rewrite Hent. simpl.
      eexists. split; [done|]. by rewrite bool_decide_eq_true.
    + unfold PropertyInRelation, RelationDefined, getitem. rewrite Het.
      simpl. intros [= Hp%bool_decide_eq_true].
      destruct (I4 n et p Het Hp) as [q [Hq|Hq]]; exists q.
      * left. by rewrite bool_decide_eq_true_2.
      * right. by rewrite bool_decide_eq_true_2.
  - intros predicate. unfold GetRelationPredicates.
    rewrite elem_of_elements. apply I5.
Qed.

End cross_indexes.
(** ** The theorems at the sample source table and registry *)

Lemma tabled_Ok (r : result SourceTable) : is_Ok r = true → r = Ok (tabled r).
Proof. by destruct r. Qed.

Lemma two_sources_sourced : sourced source_dicts two_sources.
Proof.
  assert (H1 : AddSource "/a/" 0 source_dicts no_sources = Ok one_source).
  { apply tabled_Ok. vm_compute. reflexivity. }
  assert (H2 : AddSource "/b/" 1 source_dicts one_source = Ok two_sources).
  { apply tabled_Ok. vm_compute. reflexivity. }
  exact (sourced_add source_dicts one_source "/b/" 1 two_sources
           (sourced_add source_dicts no_sources "/a/" 0 one_source
              (sourced_none source_dicts) H1) H2).
Qed.

Lemma two_sources_urls :
  SourceURLs two_sources = <["/b/" := 1%nat]> (<["/a/" := 0%nat]> ∅).
Proof. vm_compute. reflexivity. Qed.

Lemma two_sources_listed : lists source_keys (SourceURLs two_sources).
Proof.
  rewrite two_sources_urls. split.
  - unfold source_keys. apply NoDup_cons. split.
    + intros Hin%list_elem_of_singleton. discriminate Hin.
    + apply NoDup_singleton.
  - intros n. unfold source_keys.
    rewrite !dom_insert, dom_empty, !elem_of_union, !elem_of_singleton,
      elem_of_cons, list_elem_of_singleton.
    split; [intros [->| ->]; auto|].
    intros [Hn|[Hn|Hn%elem_of_empty]]; [by left|by right|done].
Qed.

Lemma two_sources_unshared : unshared two_sources.
Proof.
  intros u1 u2 a. rewrite two_sources_urls.
  intros [[<- <-]|[_ [[<- <-]|[_ H1]]%lookup_insert_Some]]%lookup_insert_Some;
    [| |by rewrite lookup_empty in H1].
  - intros [[<- _]|[_ [[_ H2]|[_ H2]]%lookup_insert_Some]]%lookup_insert_Some;
      [done|discriminate H2|by rewrite lookup_empty in H2].
  - intros [[_ H2]|[_ [[<- _]|[_ H2]]%lookup_insert_Some]]%lookup_insert_Some;
      [discriminate H2|done|by rewrite lookup_empty in H2].
Qed.

Lemma renumbered_Ok
    (r : result (gmap string string * SourceTable * dicts)) dflt :
  is_Ok r = true →
  let x := match r with Ok x => x | Raise _ => dflt end in
  r = Ok (x.1.1, x.1.2, x.2).
Proof. destruct r as [[[m s] h]|]; [done|discriminate]. Qed.

Lemma two_sources_renumbered :
  UniqueSourceIDs source_keys two_sources source_dicts
  = Ok (renumbered.1.1, renumbered.1.2, renumbered.2).
Proof.
  apply (renumbered_Ok
           (UniqueSourceIDs source_keys two_sources source_dicts)
           (∅, no_sources, source_dicts)).
  vm_compute. reflexivity.
Qed.

Lemma sources_resolve_witness :
  (∀ id, id ∈ GetSourceIDs two_sources
         ↔ SourceIdDefined two_sources id = true)
  ∧ (∀ id, SourceIdDefined two_sources id = true →
           ∃ a, GetSourceIdProperties two_sources id = Ok a
                ∧ source_dicts a !! "source-id" = Some id)
  ∧ (∀ url a, GetSourceURLProperties two_sources url = Ok a →
              ValidateEdxmlEntityAttributes "source" (source_dicts a) = Ok ()
              ∧ ∃ id, GetSourceId two_sources source_dicts url = Ok id
                      ∧ SourceIdDefined two_sources id = true).
Proof.
  exact (sources_resolve source_dicts two_sources two_sources_sourced).
Defined.

Lemma UniqueSourceIDs_renumbers_witness :
  ∃ Mapping self' h',
    UniqueSourceIDs source_keys two_sources source_dicts
    = Ok (Mapping, self', h')
    ∧ dom Mapping = dom (SourceURLs two_sources)
    ∧ (∀ i url, source_keys !! i = Some url →
                Mapping !! url = Some (Py.str_int (Z.of_nat i + 1)))
    ∧ (∀ u1 u2 id, Mapping !! u1 = Some id → Mapping !! u2 = Some id →
                   u1 = u2)
    ∧ (∀ url id,
         Mapping !! url = Some id →
         GetSourceId self' h' url = Ok id
         ∧ ∃ a, GetSourceIdProperties self' id = Ok a
                ∧ GetSourceURLProperties self' url = Ok a)
    ∧ (∀ url, GetSourceURLProperties self' url
              = GetSourceURLProperties two_sources url)
    ∧ ∀ a k, k ≠ "source-id"%string → h' a !! k = source_dicts a !! k.
Proof.
  exact (UniqueSourceIDs_renumbers source_keys two_sources source_dicts
           two_sources_listed two_sources_unshared).
Defined.

Lemma UniqueSourceIDs_keeps_old_ids_witness :
  GetSourceIDs renumbered.1.2 = GetSourceIDs two_sources
  ∧ ∀ old,
      old ∈ GetSourceIDs two_sources →
      (∀ url, renumbered.1.1 !! url ≠ Some old) →
      ∃ a, GetSourceIdProperties two_sources old = Ok a
           ∧ GetSourceIdProperties renumbered.1.2 old = Ok a
           ∧ source_dicts a !! "source-id" = Some old
           ∧ renumbered.2 a !! "source-id" ≠ Some old.
Proof.
  exact (UniqueSourceIDs_keeps_old_ids source_dicts source_keys two_sources
           renumbered.1.1 renumbered.1.2 renumbered.2
           two_sources_sourced two_sources_listed two_sources_unshared
           two_sources_renumbered).
Defined.

Lemma AddSource_after_UniqueSourceIDs_witness :
  AddSource "/a/" 2 renumbered.2 renumbered.1.2
  = Raise (source_id_mismatch "/a/" "x" "2").
Proof.
  refine (AddSource_after_UniqueSourceIDs source_keys two_sources
            source_dicts renumbered.1.1 renumbered.1.2 renumbered.2
            "/a/" 0%nat 2%nat "x" "2"
            two_sources_listed two_sources_unshared two_sources_renumbered
            _ _ _ _ _).
  - vm_compute. reflexivity.
  - vm_compute. reflexivity.
  - vm_compute. reflexivity.
  - discriminate.
  - vm_compute. reflexivity.
Defined.

Lemma registry_class_index_witness :
  (∀ c,
     (GetEventTypeNamesInClass (defs sample) c = Raise KeyError
      ↔ ∀ n, ¬ in_class (defs sample) n c)
     ∧ ∀ names,
         GetEventTypeNamesInClass (defs sample) c = Ok names →
         NoDup names ∧ ∀ n, n ∈ names ↔ in_class (defs sample) n c)
  ∧ ∀ cs names,
      GetEventTypeNamesInClasses (defs sample) cs = Ok names →
      NoDup names
      ∧ ∀ n, n ∈ names ↔ ∃ c, c ∈ cs ∧ in_class (defs sample) n c.
Proof.
  exact (registry_class_index (λ _, true) sample sample_built).
Defined.

Lemma registry_entities_and_relations_witness :
  (∀ n et p,
     EventTypes (defs sample) !! n = Some et →
     (∃ b, PropertyDefinesEntity (defs sample) n p = Ok b
           ∧ (b = true ↔ defines_entity (defs sample) n p))
     ∧ (PropertyInRelation (defs sample) n p = Ok true →
        ∃ q, RelationDefined (defs sample) n p q = Ok true
             ∨ RelationDefined (defs sample) n q p = Ok true))
  ∧ ∀ predicate,
      predicate ∈ GetRelationPredicates sample
      ↔ has_predicate (defs sample) predicate.
Proof.
  exact (registry_entities_and_relations (λ _, true) sample sample_built).
Defined.
